(** * ROSA financial dashboard: the transaction pipeline of [dashboard.py]

    A shallow embedding of the data pipeline of [dashboard.py] (loader,
    description normaliser, categoriser, signed amounts, filter and the
    aggregated views) together with the properties its specification states.

    Conventions of the embedding.
    - Text is [string]; a character is read as a code point of the Latin-1
      block (0..255), with Python's classification of those code points.
    - An amount is a binary64 floating-point number, the dtype float64 of the
      columns [amount], [signed_amount] and [cumulative]: the operations are
      those of IEEE 754 with rounding to nearest, infinities and NaN included.
      (A file whose amounts are all whole numbers gives columns of dtype
      int64; the floats stand for them exactly as long as the values and
      their sums stay below 2^53 in size.)
    - A pandas timestamp is a record of a calendar date and a time of day.
    - A data frame is the list of its rows; the column [cumulative], which
      only the filtered frame has, is an optional field of the row.
    - The pandas functions whose result the script does not determine are
      taken as parameters: the two parsers of the loader (class [Parsers]),
      the sums of a column, of a group and of a bin (class [Reductions]) and
      [sort_values] (class [Sorting]), of which only what pandas documents
      is assumed.  The sort the default kind runs, numpy's quicksort, is
      embedded in module [Numpy] and shown to be such a [Sorting]. *)

From Stdlib Require Import ZArith NArith List Ascii String Bool Lia.
From Stdlib Require Import Permutation Sorted SpecFloat.
From Stdlib Require Import DecimalString DecimalNat.
Import ListNotations.

Open Scope string_scope.
Open Scope list_scope.
Open Scope Z_scope.

(* ================================================================== *)
(** * Part I: definitions *)
(* ================================================================== *)

(** ** Characters and text (dashboard.py, lines 25-26 and 42) *)

Module Text.

Definition code (c : ascii) : N := N_of_ascii c.

Definition between (lo hi : N) (c : ascii) : bool :=
  ((lo <=? code c) && (code c <=? hi))%N.

(** [str.isalnum] on the code points 0..255: the characters the regular
    expression class [\w] matches, the underscore apart. *)
Definition isalnum (c : ascii) : bool :=
  between 48 57 c || between 65 90 c || between 97 122 c
  || between 170 170 c || between 178 179 c || between 181 181 c
  || between 185 186 c || between 188 190 c
  || between 192 214 c || between 216 246 c || between 248 255 c.

(** The class [[\W_]] of line 26: everything that is not alphanumeric. *)
Definition is_noise (c : ascii) : bool := negb (isalnum c).

(** [str.isspace] on the code points 0..255, the characters [str.strip]
    removes. *)
Definition isspace (c : ascii) : bool :=
  between 9 13 c || between 28 32 c || between 133 133 c
  || between 160 160 c.

(** [str.lower] on one code point of 0..255. *)
Definition lower_char (c : ascii) : ascii :=
  if between 65 90 c
     || (between 192 222 c && negb (between 215 215 c))
  then ascii_of_N (code c + 32)
  else c.

(** [s.lower()] *)
Fixpoint lower (s : string) : string :=
  match s with
  | EmptyString => EmptyString
  | String c t => String (lower_char c) (lower t)
  end.

(** [re.sub(r'[\W_]+', ' ', s)]: every maximal run of noise characters
    becomes one space.  [in_run] tells that the previous character belonged
    to a run whose space has been emitted already. *)
Fixpoint replace_noise (in_run : bool) (s : string) : string :=
  match s with
  | EmptyString => EmptyString
  | String c t =>
      if is_noise c
      then if in_run then replace_noise true t
           else String " " (replace_noise true t)
      else String c (replace_noise false t)
  end.

Fixpoint lstrip (s : string) : string :=
  match s with
  | EmptyString => EmptyString
  | String c t => if isspace c then lstrip t else s
  end.

Fixpoint rstrip (s : string) : string :=
  match s with
  | EmptyString => EmptyString
  | String c t =>
      match rstrip t with
      | EmptyString => if isspace c then EmptyString else String c EmptyString
      | r => String c r
      end
  end.

(** [s.strip()] *)
Definition strip (s : string) : string := rstrip (lstrip s).

(** Lines 25-26 on one cell that already is a string. *)
Definition normalize (s : string) : string :=
  strip (replace_noise false (lower s)).

(** [astype(str)]: a missing cell (NaN) prints as ["nan"]. *)
Definition astype_str (cell : option string) : string :=
  match cell with
  | Some s => s
  | None => "nan"
  end.

(** The characters a regular expression reads as operators. *)
Definition metachars : list ascii :=
  ["."; "^"; "$"; "*"; "+"; "?"; "{"; "}"; "["; "]"; "\"; "|"; "("; ")"]%char.

(** A keyword that is a regular expression for itself: none of its
    characters is an operator. *)
Definition literal (kw : string) : Prop :=
  Forall (fun c => ~ In c metachars) (list_ascii_of_string kw).

(** One character of a keyword, read as the regular expression that
    [str.contains] compiles with [case=False]: a dot matches any character
    but the newline, any other character of the table matches itself up to
    letter case.  The dot is the only operator of regular expressions that
    the keywords of lines 28-37 hold, and the only one modelled: a keyword
    with another one of [metachars] is not read as [re] reads it. *)
Definition char_matches (p c : ascii) : bool :=
  if Ascii.eqb p "."
  then negb (Ascii.eqb c "010")
  else Ascii.eqb (lower_char p) (lower_char c).

(** The keyword matches a prefix of the text. *)
Fixpoint matches_here (kw s : string) : bool :=
  match kw with
  | EmptyString => true
  | String p kw' =>
      match s with
      | EmptyString => false
      | String c s' => char_matches p c && matches_here kw' s'
      end
  end.

(** [re.search(kw, s)]: the keyword matches at some position. *)
Fixpoint search (kw s : string) : bool :=
  matches_here kw s
  || match s with
     | EmptyString => false
     | String _ s' => search kw s'
     end.

(** [str.contains('|'.join(keywords), case=False)]: some alternative is
    found; the join of no keyword at all is the empty pattern, which is
    found in every text. *)
Definition contains (keywords : list string) (s : string) : bool :=
  match keywords with
  | [] => true
  | _ => existsb (fun kw => search kw s) keywords
  end.

(** The shape of a normalised text: lowercase alphanumerics and single
    spaces.  [after_space] tells that the previous character was a space. *)
Fixpoint tidy (after_space : bool) (s : string) : bool :=
  match s with
  | EmptyString => true
  | String c t =>
      if Ascii.eqb c " "
      then negb after_space && tidy true t
      else isalnum c && Ascii.eqb (lower_char c) c && tidy false t
  end.

End Text.

(** ** Calendar dates and timestamps *)

Module Calendar.

(** A calendar date, what [Timestamp.date()] and [st.date_input] give. *)
Record Date : Set := mkDate { year : Z; month : Z; day : Z }.

(** A pandas [Timestamp]: a calendar date and the time elapsed since
    midnight, in nanoseconds. *)
Record Timestamp : Set := mkTimestamp { ts_date : Date; ts_time : Z }.

Definition lexico (c d : comparison) : comparison :=
  match c with
  | Eq => d
  | _ => c
  end.

Definition date_compare (a b : Date) : comparison :=
  lexico (year a ?= year b)
    (lexico (month a ?= month b) (day a ?= day b)).

Definition ts_compare (a b : Timestamp) : comparison :=
  lexico (date_compare (ts_date a) (ts_date b)) (ts_time a ?= ts_time b).

Definition not_gt (c : comparison) : bool :=
  match c with
  | Gt => false
  | _ => true
  end.

(** [a <= b] on dates and on timestamps. *)
Definition date_leb (a b : Date) : bool := not_gt (date_compare a b).
Definition ts_leb (a b : Timestamp) : bool := not_gt (ts_compare a b).

(** The strict orders the comparisons decide. *)
Definition date_lt (a b : Date) : Prop :=
  year a < year b
  \/ (year a = year b
      /\ (month a < month b \/ (month a = month b /\ day a < day b))).

Definition ts_lt (a b : Timestamp) : Prop :=
  date_lt (ts_date a) (ts_date b)
  \/ (ts_date a = ts_date b /\ ts_time a < ts_time b).

(** Months counted from year 0: the bins of a monthly resampling. *)
Definition month_index (t : Timestamp) : Z :=
  year (ts_date t) * 12 + (month (ts_date t) - 1).

(** The label of a monthly bin: midnight of the first day of the month. *)
Definition month_start (k : Z) : Timestamp :=
  mkTimestamp (mkDate (k / 12) (k mod 12 + 1) 1) 0.

End Calendar.

(** ** Amounts: binary64 floating-point numbers *)

Module Float64.

(** A value of dtype float64: a signed zero, a signed infinity, NaN or a
    finite number [(-1)^s * m * 2^e]. *)
Definition float64 : Set := spec_float.

Definition prec : Z := 53.
Definition emax : Z := 1024.

Definition zero : float64 := S754_zero false.
Definition infinity : float64 := S754_infinity false.
Definition nan : float64 := S754_nan.

(** [x + y], [x - y] and [-x], rounded to nearest. *)
Definition add (x y : float64) : float64 := SFadd prec emax x y.
Definition sub (x y : float64) : float64 := SFsub prec emax x y.
Definition opp (x : float64) : float64 := SFopp x.

(** The float of a whole number. *)
Definition of_Z (z : Z) : float64 := binary_normalize prec emax z 0 false.

Definition is_nan (x : float64) : bool :=
  match x with
  | S754_nan => true
  | _ => false
  end.

Definition is_finite (x : float64) : bool :=
  match x with
  | S754_zero _ | S754_finite _ _ _ => true
  | _ => false
  end.

(** [x < y], false when one of the two is NaN. *)
Definition ltb (x y : float64) : bool := SFltb x y.

(** The order in which numpy sorts floats: [x < y], and every number
    before NaN. *)
Definition less (x y : float64) : bool :=
  ltb x y || (is_nan y && negb (is_nan x)).

(** A float as a point of the order numpy sorts by: the class of the value
    (negative infinity, negative, zero, positive, positive infinity, NaN),
    then exponent and mantissa. *)
Definition key (x : float64) : Z * Z * Z :=
  match x with
  | S754_nan => (3, 0, 0)
  | S754_infinity false => (2, 0, 0)
  | S754_infinity true => (-2, 0, 0)
  | S754_zero _ => (0, 0, 0)
  | S754_finite false m e => (1, e, Zpos m)
  | S754_finite true m e => (-1, - e, Zneg m)
  end.

Definition lex (a b : Z * Z * Z) : Prop :=
  fst (fst a) < fst (fst b)
  \/ (fst (fst a) = fst (fst b)
      /\ (snd (fst a) < snd (fst b)
          \/ (snd (fst a) = snd (fst b) /\ snd a < snd b))).

End Float64.

(** ** The pandas functions the script relies on *)

Module PandasLib.
Import Calendar Float64.

Definition total {A : Type} (leb : A -> A -> bool) : Prop :=
  forall a b, leb a b = true \/ leb b a = true.

Definition transitive {A : Type} (leb : A -> A -> bool) : Prop :=
  forall a b c, leb a b = true -> leb b c = true -> leb a c = true.

(** The parsers of lines 21-22, called with [errors='coerce'] on a whole
    column: the result has one entry per cell, and a cell that does not parse
    becomes NaT or NaN, here [None].  A cell that reads as NaN gives the same
    value as one that does not parse, so no entry is [Some nan]; the cells
    'inf' and '-inf' parse to the infinities.  (What a cell parses to may
    depend on the rest of the column, as when the date format is inferred
    from it.) *)
Class Parsers : Type := {
  to_datetime : list string -> list (option Timestamp);
  to_numeric : list string -> list (option float64);
  to_datetime_length :
    forall col, List.length (to_datetime col) = List.length col;
  to_numeric_length :
    forall col, List.length (to_numeric col) = List.length col;
  to_numeric_value :
    forall col a, In (Some a) (to_numeric col) -> is_nan a = false
}.

(** [Series.sum] (lines 79-80) and the sum of a group of [groupby] or of a
    bin of [resample] (lines 121, 165, 189 and 207), on the values of the
    rows in the order of the frame.  How pandas adds floats up (pairwise,
    with compensation) is not fixed by the script; what is used is that the
    sum of no value at all is 0. *)
Class Reductions : Type := {
  series_sum : list float64 -> float64;
  group_sum : list float64 -> float64;
  series_sum_nil : series_sum [] = zero;
  group_sum_nil : group_sum [] = zero
}.

(** [sort_values], ascending, on a column whose order is [leb].  pandas
    documents that the result holds the same rows in ascending order of the
    column, and that of its sort kinds only 'mergesort' and 'stable' keep rows
    with equal keys in their previous order. *)
Class Sorting : Type := {
  sort_values : forall {A : Type}, (A -> A -> bool) -> list A -> list A;
  sort_values_perm :
    forall (A : Type) (leb : A -> A -> bool) (l : list A),
      Permutation l (sort_values leb l);
  sort_values_sorted :
    forall (A : Type) (leb : A -> A -> bool) (l : list A),
      total leb -> transitive leb ->
      StronglySorted (fun a b => leb a b = true) (sort_values leb l)
}.

(** The sort kinds 'stable' and 'mergesort': the sorted arrangement in
    which equal keys keep their input order, here computed by insertion. *)
Fixpoint insert {A : Type} (leb : A -> A -> bool) (x : A) (l : list A) : list A :=
  match l with
  | [] => [x]
  | y :: t => if leb x y then x :: l else y :: insert leb x t
  end.

Definition insertion_sort {A : Type} (leb : A -> A -> bool) (l : list A) : list A :=
  fold_right (insert leb) [] l.

End PandasLib.

(** ** The default sort kind: numpy's quicksort

    [sort_values] with [kind='quicksort'] calls numpy's [argsort] on the
    column (npysort/quicksort.cpp and heapsort.cpp): an introsort that splits a
    segment of more than 17 entries around the median of its first, middle and
    last entry, sorts a shorter segment by insertion and switches to heapsort
    when the depth bound is used up.  [argsort] permutes an array of row
    numbers; here the rows themselves are moved, in the same way.  This is
    the routine numpy runs on a column of dates and of text, and on a column
    of numbers unless the build replaces it there by a vectorised sort. *)

Module Numpy.
Section Quicksort.
Context {A : Type} (less : A -> A -> bool).

(** The insertion sort of a short segment.  [place x r] puts the next row
    [x] into the rows sorted so far, listed from the last to the first: [x]
    moves to the left past every row it is less than. *)
Fixpoint place (x : A) (r : list A) : list A :=
  match r with
  | [] => [x]
  | y :: r' => if less x y then y :: place x r' else x :: r
  end.

Definition insertion (seg : list A) : list A :=
  rev (fold_left (fun r x => place x r) seg []).

(** The first, the middle and the last entry put in order by three
    conditional exchanges. *)
Definition median3 (a b c : A) : A * A * A :=
  let '(a, b) := if less b a then (b, a) else (a, b) in
  let '(b, c) := if less c b then (c, b) else (b, c) in
  let '(a, b) := if less b a then (b, a) else (a, b) in
  (a, b, c).

(** The longest prefix whose entries satisfy [f], and the rest. *)
Fixpoint span (f : A -> bool) (l : list A) : list A * list A :=
  match l with
  | [] => ([], [])
  | x :: t => if f x then let (a, b) := span f t in (x :: a, b) else ([], l)
  end.

(** The two scans of the partition step over the entries [M] between the
    first entry and the pivot [p]: the left scan stops at the first entry [f]
    that is not less than [p], the right scan at the last entry [g] that [p]
    is not less than; [f] and [g] are exchanged and the scans go on between
    them.  The result is what stands to the left and to the right of the
    place where the left scan ends. *)
Fixpoint hoare (fuel : nat) (p : A) (M : list A) : list A * list A :=
  match fuel with
  | O => (M, [])
  | S fuel' =>
      let (lo, rest) := span (fun x => less x p) M in
      match rest with
      | [] => (lo, [])
      | f :: rest1 =>
          let (hi_r, mid_r) := span (fun x => less p x) (rev rest1) in
          match mid_r with
          | [] => (lo, rest)
          | g :: inner_r =>
              let (l', r') := hoare fuel' p (rev inner_r) in
              (lo ++ g :: l', r' ++ f :: rev hi_r)
          end
      end
  end.

(** One partition step on a segment [a0, b1.., am, b2.., z, alast]: the
    median of [a0], [am] and [alast] is the pivot, which changes places with
    [z], the last entry but one; after the scans the pivot is exchanged with
    the entry the left scan ended on.  The result is the segment to the left
    of the pivot, the pivot, and the segment to its right. *)
Definition partition (seg : list A) : option (list A * A * list A) :=
  let n := List.length seg in
  let pm := ((n - 1) / 2)%nat in
  match seg, skipn pm seg, skipn (n - 2) seg with
  | a0 :: _, am :: _, [z; alast] =>
      let b1 := firstn (pm - 1) (skipn 1 seg) in
      let b2 := firstn (n - 3 - pm) (skipn (pm + 1) seg) in
      let '(x0, xm, xl) := median3 a0 am alast in
      let '(lower, upper) := hoare n xm (b1 ++ z :: b2) in
      Some (x0 :: lower, xm,
            match upper with
            | [] => [xl]
            | g :: upper' => upper' ++ [g; xl]
            end)
  | _, _, _ => None
  end.

(** Heapsort works on the segment as an array indexed from 1. *)
Definition get (a : list A) (i : nat) : option A :=
  match i with
  | O => None
  | S i' => nth_error a i'
  end.

Fixpoint set_nth (i : nat) (x : A) (a : list A) : list A :=
  match a, i with
  | [], _ => []
  | _ :: t, O => x :: t
  | y :: t, S i' => y :: set_nth i' x t
  end.

Definition put (a : list A) (i : nat) (x : A) : list A :=
  match i with
  | O => a
  | S i' => set_nth i' x a
  end.

Definition exchange (a : list A) (i j : nat) : list A :=
  match get a i, get a j with
  | Some x, Some y => put (put a i y) j x
  | _, _ => a
  end.

Definition less_at (a : list A) (i j : nat) : bool :=
  match get a i, get a j with
  | Some x, Some y => less x y
  | _, _ => false
  end.

(** The child of the node [j] in the heap [a[1..n]] that is not less than
    the other one. *)
Definition larger_child (a : list A) (j n : nat) : nat :=
  let k := (2 * j)%nat in
  if (k <? n)%nat && less_at a k (S k) then S k else k.

(** The entry at [j] sinks while it is less than its larger child. *)
Fixpoint sift (fuel : nat) (a : list A) (j n : nat) : list A :=
  match fuel with
  | O => a
  | S fuel' =>
      if (2 * j <=? n)%nat
      then let k := larger_child a j n in
           if less_at a j k then sift fuel' (exchange a j k) k n else a
      else a
  end.

(** The heap is built from the node [n / 2] down to the root... *)
Fixpoint build (i : nat) (a : list A) (n : nat) : list A :=
  match i with
  | O => a
  | S i' => build i' (sift n a i n) n
  end.

(** ... and emptied from its root into the end of the array. *)
Fixpoint extract (n : nat) (a : list A) : list A :=
  match n with
  | S (S _ as n') => extract n' (sift n' (exchange a 1 n) 1 n')
  | _ => a
  end.

Definition heapsort (a : list A) : list A :=
  let n := List.length a in extract n (build (n / 2) a n).

(** [a[i]] is not less than [a[j]]. *)
Definition ge_at (a : list A) (i j : nat) : Prop :=
  forall x y, get a i = Some x -> get a j = Some y -> less x y = false.

(** The node [i] of the heap [a[1..n]] is not less than its children. *)
Definition heap_at (a : list A) (n i : nat) : Prop :=
  forall c, (c = 2 * i \/ c = 2 * i + 1)%nat -> (c <= n)%nat -> ge_at a i c.

(** The sort of one segment.  [depth] is what is left of the depth bound;
    it is looked at when a segment is taken from the stack ([popped]), not
    when the loop goes on with the smaller part of a segment it has split. *)
Fixpoint qsort (fuel : nat) (popped : bool) (depth : Z) (seg : list A) : list A :=
  match fuel with
  | O => seg
  | S fuel' =>
      if popped && (depth <? 0)%Z then heapsort seg
      else if (17 <? List.length seg)%nat
      then match partition seg with
           | Some (l, p, r) =>
               if (List.length l <? List.length r)%nat
               then qsort fuel' false (depth - 1) l
                    ++ p :: qsort fuel' true (depth - 1) r
               else qsort fuel' true (depth - 1) l
                    ++ p :: qsort fuel' false (depth - 1) r
           | None => insertion seg
           end
      else insertion seg
  end.

(** The depth bound is twice the position of the highest bit of the
    length. *)
Definition quicksort (l : list A) : list A :=
  qsort (S (List.length l)) true (2 * Z.of_nat (Nat.log2 (List.length l))) l.

End Quicksort.

(** [sort_values] with the default kind, on a column whose order is [leb]:
    the rows are compared by [a < b], which is [not (b <= a)]. *)
Definition sort_values {A : Type} (leb : A -> A -> bool) (l : list A) : list A :=
  quicksort (fun a b => negb (leb b a)) l.

End Numpy.

(** ** The loader (dashboard.py, lines 18-47) *)

Module Loader.
Import Calendar Float64 PandasLib.

(** One line of the CSV file, as [read_csv] hands it over: the cells of the
    four columns the script reads; an empty description cell is missing. *)
Record RawRow : Set := mkRaw {
  raw_date : string;
  raw_amount : string;
  raw_type : string;
  raw_description : option string
}.

(** One row of a data frame of the script.  The columns are those of the
    canonical table; [cumulative] is the column that exists only in the
    filtered frame (line 72), absent ([None]) elsewhere. *)
Record Transaction : Set := mkTransaction {
  date : Timestamp;
  amount : float64;
  type : string;
  description : option string;
  clean_desc : string;
  Category : string;
  signed_amount : float64;
  cumulative : option float64
}.

(** Lines 28-37: the rule table, in the order the dict literal gives. *)
Definition categories : list (string * list string) :=
  [ ("Groceries", ["tesco"; "sainsbury"; "aldi"; "lidl"; "asda"; "morrisons";
                   "waitrose"; "food"; "supermarket"]);
    ("Transport", ["uber"; "tfl"; "train"; "tube"; "bus"; "petrol"; "fuel";
                   "shell"; "bp"]);
    ("Salary", ["salary"; "payroll"; "income"; "wage"; "payment from"]);
    ("Utilities", ["thames water"; "british gas"; "ee"; "vodafone"; "sky";
                   "virgin"; "council tax"; "rent"]);
    ("Entertainment", ["netflix"; "spotify"; "cinema"; "restaurant"; "pub";
                       "bar"; "cafe"]);
    ("Shopping", ["amazon"; "ebay"; "boots"; "primark"; "online purchase"]);
    ("Health", ["boots"; "pharmacy"; "doctor"; "hospital"; "superdrug"]);
    ("Travel", ["ryanair"; "easyjet"; "booking.com"; "hotel"; "eurostar"]) ].

(** The labels a row can get: 'Other' (line 39) and the eight categories
    of the rule table. *)
Definition labels : list string := "Other" :: map fst categories.

(** Lines 39-42 seen from one row: the label starts as 'Other' and every
    category of the table, taken in order, overwrites it when its pattern is
    found in the description. *)
Definition categorize (table : list (string * list string)) (desc : string) : string :=
  fold_left
    (fun label rule => if Text.contains (snd rule) desc then fst rule else label)
    table "Other".

(** Lines 39-42 as written, on the whole column: one pass over the column
    per category. *)
Definition category_column (table : list (string * list string))
    (descs : list string) : list string :=
  fold_left
    (fun col rule =>
       map (fun cell => if Text.contains (snd rule) (fst cell)
                        then fst rule else snd cell)
           (combine descs col))
    table (map (fun _ => "Other") descs).

(** The categoriser in the words of the specification, to compare
    [categorize] with: the categories are tried in the order of the table and
    the first one whose pattern is found is the answer. *)
Fixpoint first_match (table : list (string * list string)) (desc : string) : string :=
  match table with
  | [] => "Other"
  | rule :: rest =>
      if Text.contains (snd rule) desc then fst rule else first_match rest desc
  end.

(** Line 45, the lambda: only 'debit' is negated. *)
Definition signed (ty : string) (amt : float64) : float64 :=
  if String.eqb ty "debit" then opp amt else amt.

Section WithPandas.
Context {parsers : Parsers} {sorting : Sorting}.

(** Lines 21-22: both columns are parsed; every line of the file keeps its
    other cells. *)
Definition coerce (csv : list RawRow)
  : list (option Timestamp * option float64 * RawRow) :=
  combine
    (combine (to_datetime (map raw_date csv)) (to_numeric (map raw_amount csv)))
    csv.

(** A line whose date and whose amount both parsed. *)
Definition parsed (c : option Timestamp * option float64 * RawRow) : bool :=
  match c with
  | (Some _, Some _, _) => true
  | _ => false
  end.

(** Line 23: the rows in which one of the two is missing are dropped. *)
Definition dropna (cells : list (option Timestamp * option float64 * RawRow))
  : list (Timestamp * float64 * RawRow) :=
  flat_map
    (fun c =>
       match c with
       | (Some d, Some a, r) => [(d, a, r)]
       | _ => []
       end)
    cells.

(** Lines 25-45 on one surviving row. *)
Definition derive (c : Timestamp * float64 * RawRow) : Transaction :=
  let '(d, a, r) := c in
  let desc := Text.normalize (Text.astype_str (raw_description r)) in
  {| date := d;
     amount := a;
     type := raw_type r;
     description := raw_description r;
     clean_desc := desc;
     Category := categorize categories desc;
     signed_amount := signed (raw_type r) a;
     cumulative := None |}.

Definition by_date (a b : Transaction) : bool := ts_leb (date a) (date b).

(** The transactions dated [d]. *)
Definition dated (d : Timestamp) (t : Transaction) : bool :=
  match ts_compare (date t) d with
  | Eq => true
  | _ => false
  end.

(** [load_data]: the canonical table. *)
Definition load_data (csv : list RawRow) : list Transaction :=
  sort_values by_date (map derive (dropna (coerce csv))).

End WithPandas.

End Loader.

(** ** Filter and aggregated views (dashboard.py, lines 64-81, 121, 165,
       189 and 207) *)

Module Engine.
Import Calendar Float64 PandasLib Loader.

(** [Series.isin] *)
Definition isin (x : string) (values : list string) : bool :=
  existsb (String.eqb x) values.

(** Lines 65-67: the boolean mask of the filter, on one row. *)
Definition mask (types : list string) (date_range : Date * Date)
    (t : Transaction) : bool :=
  isin (type t) types
  && date_leb (fst date_range) (ts_date (date t))
  && date_leb (ts_date (date t)) (snd date_range).

(** Lines 64-68: [df[mask]]. *)
Definition filter_frame (types : list string) (date_range : Date * Date)
    (df : list Transaction) : list Transaction :=
  List.filter (mask types date_range) df.

(** The sum of whole numbers, for the counts of rows. *)
Definition sum_Z (l : list Z) : Z := fold_right Z.add 0 l.

(** [Series.cumsum]: the first value, then each value added to the running
    total before it. *)
Fixpoint cumsum_from (acc : float64) (l : list float64) : list float64 :=
  match l with
  | [] => []
  | x :: t => add acc x :: cumsum_from (add acc x) t
  end.

Definition cumsum (l : list float64) : list float64 :=
  match l with
  | [] => []
  | x :: t => x :: cumsum_from x t
  end.

(** Line 76: the column minus its first entry ([iloc[0]]). *)
Definition zero_based (c : list float64) : list float64 :=
  map (fun x => sub x (nth 0 c zero)) c.

(** Lines 72-76 on a frame already sorted: the values of the column
    [cumulative]. *)
Definition cumulative_column (f : list Transaction) : list float64 :=
  let c := cumsum (map signed_amount f) in
  if (0 <? List.length f)%nat then zero_based c else c.

Definition set_cumulative (t : Transaction) (v : option float64) : Transaction :=
  {| date := date t;
     amount := amount t;
     type := type t;
     description := description t;
     clean_desc := clean_desc t;
     Category := Category t;
     signed_amount := signed_amount t;
     cumulative := v |}.

(** [f['cumulative'] = col], row by row. *)
Definition assign_cumulative (f : list Transaction) (col : list float64)
  : list Transaction :=
  map (fun p => set_cumulative (fst p) (Some (snd p))) (combine f col).

(** Group keys as [groupby] lists them: each key once, in ascending order. *)
Fixpoint insert_key {K : Type} (cmp : K -> K -> comparison) (k : K)
    (keys : list K) : list K :=
  match keys with
  | [] => [k]
  | h :: t =>
      match cmp k h with
      | Lt => k :: keys
      | Eq => keys
      | Gt => h :: insert_key cmp k t
      end
  end.

Definition group_keys {K : Type} (cmp : K -> K -> comparison) (keys : list K)
  : list K :=
  fold_right (insert_key cmp) [] keys.

Definition same_key {K : Type} (cmp : K -> K -> comparison) (a b : K) : bool :=
  match cmp a b with
  | Eq => true
  | _ => false
  end.

(** The months from [lo] to [hi], both included. *)
Definition months_between (lo hi : Z) : list Z :=
  map (fun i => lo + Z.of_nat i) (seq 0 (Z.to_nat (hi - lo + 1))).

Definition in_month (k : Z) (t : Transaction) : bool :=
  month_index (date t) =? k.

Definition of_type (ty : string) (f : list Transaction) : list Transaction :=
  List.filter (fun t => String.eqb (type t) ty) f.

(** The order of a column of sums: [a <= b] as numpy sorts floats, which
    is [not (b < a)] with NaN after every number. *)
Definition by_sum (a b : string * float64) : bool := negb (less (snd b) (snd a)).

(** The order of the specification for the sums per category, to compare
    [group_by_category] with: ascending sums, equal sums by category name. *)
Definition by_sum_then_name (a b : string * float64) : bool :=
  less (snd a) (snd b)
  || (negb (less (snd b) (snd a)) && String.leb (fst a) (fst b)).


Definition has_sum (p : string * float64) : bool := negb (is_nan (snd p)).
Definition lacks_sum (p : string * float64) : bool := is_nan (snd p).

Section WithReductions.
Context {reductions : Reductions}.

(** [f.groupby(key)[val].sum()] *)
Definition groupby_sum {K : Type} (cmp : K -> K -> comparison)
    (key : Transaction -> K) (val : Transaction -> float64) (f : list Transaction)
  : list (K * float64) :=
  map (fun k => (k, group_sum (map val (List.filter (fun t => same_key cmp (key t) k) f))))
      (group_keys cmp (map key f)).

(** Line 165: [daily]. *)
Definition daily (f : list Transaction) : list (Timestamp * float64) :=
  groupby_sum ts_compare date signed_amount f.

Definition month_sum (k : Z) (f : list Transaction) : float64 :=
  group_sum (map signed_amount (List.filter (in_month k) f)).

(** Line 121: [monthly].  [resample('MS')] lays out one bin per calendar
    month from the month of the earliest row to the month of the latest one,
    and [sum] gives 0 for a bin without rows; a frame without rows gives no
    bin. *)
Definition monthly (f : list Transaction) : list (Timestamp * float64) :=
  match map (fun t => month_index (date t)) f with
  | [] => []
  | k :: ks =>
      let lo := fold_right Z.min k ks in
      let hi := fold_right Z.max k ks in
      map (fun m => (month_start m, month_sum m f)) (months_between lo hi)
  end.

(** Lines 79-81: the metrics. *)
Definition income (f : list Transaction) : float64 :=
  series_sum (map amount (of_type "credit" f)).
Definition expense (f : list Transaction) : float64 :=
  series_sum (map amount (of_type "debit" f)).
Definition net (f : list Transaction) : float64 := sub (income f) (expense f).

End WithReductions.

Section WithPandas.
Context {sorting : Sorting} {reductions : Reductions}.

(** Line 71: [sort_values('date').reset_index(drop=True)]; the new index
    is the position in the list. *)
Definition sort_by_date (f : list Transaction) : list Transaction :=
  sort_values by_date f.

(** Lines 71-76 and the trace of lines 100-101: the net-worth series of a
    filtered set. *)
Definition cumulative_net_worth (f : list Transaction)
  : list (Timestamp * float64) :=
  let s := sort_by_date f in
  combine (map date s) (cumulative_column s).

(** Lines 64-76: the frame [filtered]. *)
Definition filtered (types : list string) (date_range : Date * Date)
    (df : list Transaction) : list Transaction :=
  let s := sort_by_date (filter_frame types date_range df) in
  assign_cumulative s (cumulative_column s).

(** [Series.sort_values(ascending=True)] on a column of sums: the entries
    whose sum is a number are sorted, and those whose sum is NaN follow them
    in the order they had. *)
Definition sort_sums (l : list (string * float64)) : list (string * float64) :=
  sort_values by_sum (List.filter has_sum l) ++ List.filter lacks_sum l.

(** Lines 189 and 207: the sums of [amount] per category over the rows of
    one type, in ascending order of the sum. *)
Definition group_by_category (ty : string) (f : list Transaction)
  : list (string * float64) :=
  sort_sums (groupby_sum String.compare Category amount (of_type ty f)).

Definition spending (f : list Transaction) : list (string * float64) :=
  group_by_category "debit" f.
Definition income_cat (f : list Transaction) : list (string * float64) :=
  group_by_category "credit" f.

End WithPandas.

End Engine.

(** ** The script as a program over a store of data frames *)

Module Script.
Import Calendar Float64 PandasLib Loader Engine.

(** A data frame is an object on the heap; a variable of the script holds a
    reference to one. *)
Definition ref : Set := nat.
Definition DataFrame : Set := list Transaction.
Definition Heap : Set := list DataFrame.

(** State and failure: a computation reads and writes the heap, or fails
    (a dangling reference, an index out of range). *)
Definition M (A : Type) : Type := Heap -> option (A * Heap).

Definition ret {A : Type} (a : A) : M A := fun h => Some (a, h).

Definition bind {A B : Type} (m : M A) (k : A -> M B) : M B :=
  fun h =>
    match m h with
    | Some (a, h') => k a h'
    | None => None
    end.

Declare Scope script_scope.
Delimit Scope script_scope with script.
Notation "x <- m ;; k" := (bind m (fun x => k))
  (at level 61, m at next level, right associativity) : script_scope.
Notation "m ;; k" := (bind m (fun _ => k))
  (at level 61, right associativity) : script_scope.
Open Scope script_scope.

(** A new object. *)
Definition alloc (f : DataFrame) : M ref :=
  fun h => Some (List.length h, h ++ [f]).

Definition load (r : ref) : M DataFrame :=
  fun h =>
    match nth_error h r with
    | Some f => Some (f, h)
    | None => None
    end.

Fixpoint update (r : ref) (f : DataFrame) (h : Heap) : Heap :=
  match h, r with
  | [], _ => []
  | _ :: t, O => f :: t
  | g :: t, S r' => g :: update r' f t
  end.

(** Overwriting an object in place. *)
Definition store (r : ref) (f : DataFrame) : M unit :=
  fun h =>
    match nth_error h r with
    | Some _ => Some (tt, update r f h)
    | None => None
    end.

(** [df[mask]]: a new frame. *)
Definition getitem_mask (r : ref) (m : Transaction -> bool) : M ref :=
  f <- load r ;; alloc (List.filter m f).

(** [f.copy()]: a new frame with the same rows. *)
Definition copy (r : ref) : M ref :=
  f <- load r ;; alloc f.

Definition len (r : ref) : M nat :=
  f <- load r ;; ret (List.length f).

(** [f['signed_amount'].cumsum()]: a new series, here a value. *)
Definition cumsum_signed (r : ref) : M (list float64) :=
  f <- load r ;; ret (cumsum (map signed_amount f)).

(** [f['cumulative'] = col]: the frame [r] refers to is changed in place. *)
Definition setitem_cumulative (r : ref) (col : list float64) : M unit :=
  f <- load r ;; store r (assign_cumulative f col).

(** [f['cumulative']]: reading the column fails when a row lacks it. *)
Fixpoint column_values (f : DataFrame) : option (list float64) :=
  match f with
  | [] => Some []
  | t :: rest =>
      match cumulative t, column_values rest with
      | Some v, Some vs => Some (v :: vs)
      | _, _ => None
      end
  end.

Definition getitem_cumulative (r : ref) : M (list float64) :=
  fun h =>
    match nth_error h r with
    | Some f =>
        match column_values f with
        | Some c => Some (c, h)
        | None => None
        end
    | None => None
    end.

(** [c.iloc[0]] *)
Definition iloc0 (c : list float64) : M float64 :=
  fun h =>
    match c with
    | x :: _ => Some (x, h)
    | [] => None
    end.

Section WithPandas.
Context {sorting : Sorting} {reductions : Reductions}.

(** [f.sort_values('date')] and [f.reset_index(drop=True)]: new frames. *)
Definition sort_values_date (r : ref) : M ref :=
  f <- load r ;; alloc (sort_values by_date f).

Definition reset_index (r : ref) : M ref :=
  f <- load r ;; alloc f.

(** Lines 64-76, statement by statement; the result is the reference the
    variable [filtered] holds at line 77. *)
Definition apply_filters (df : ref) (types : list string)
    (date_range : Date * Date) : M ref :=
  masked <- getitem_mask df (mask types date_range) ;;
  filtered <- copy masked ;;
  sorted <- sort_values_date filtered ;;
  filtered <- reset_index sorted ;;
  c <- cumsum_signed filtered ;;
  setitem_cumulative filtered c ;;
  n <- len filtered ;;
  (if (0 <? n)%nat
   then c <- getitem_cumulative filtered ;;
        c0 <- iloc0 c ;;
        setitem_cumulative filtered (map (fun x => sub x c0) c)
   else ret tt) ;;
  ret filtered.

(** The views computed from [filtered] (lines 79-81, 121, 165, 189, 207):
    each reads the frame and builds new values. *)
Record Views : Type := mkViews {
  v_income : float64;
  v_expense : float64;
  v_net : float64;
  v_monthly : list (Timestamp * float64);
  v_daily : list (Timestamp * float64);
  v_spending : list (string * float64);
  v_income_cat : list (string * float64)
}.

Definition views_of (f : DataFrame) : Views :=
  {| v_income := income f;
     v_expense := expense f;
     v_net := net f;
     v_monthly := monthly f;
     v_daily := daily f;
     v_spending := spending f;
     v_income_cat := income_cat f |}.

Definition views (filtered : ref) : M Views :=
  f <- load filtered ;; ret (views_of f).

(** One run of the script below line 63 for one choice of the widgets. *)
Definition rerun (df : ref) (types : list string) (date_range : Date * Date)
  : M (ref * Views) :=
  filtered <- apply_filters df types date_range ;;
  v <- views filtered ;;
  ret (filtered, v).

End WithPandas.

End Script.

(** ** Widgets, counts and the display table (dashboard.py, lines 50,
       55-61, 87, 144 and 227-230) *)

Module Dashboard.
Import Calendar PandasLib Loader Engine.

(** [Series.unique]: every value once, in the order of first appearance. *)
Fixpoint unique_from (seen : list string) (l : list string) : list string :=
  match l with
  | [] => []
  | x :: t =>
      if isin x seen then unique_from seen t
      else x :: unique_from (x :: seen) t
  end.

Definition unique (l : list string) : list string := unique_from [] l.

(** Line 55: the options of the multiselect. *)
Definition type_options (df : list Transaction) : list string :=
  unique (map type df).

(** [Series.min] and [Series.max] on a column of timestamps: NaT, here
    [None], on a column without entries. *)
Definition ts_min (a b : Timestamp) : Timestamp := if ts_leb a b then a else b.
Definition ts_max (a b : Timestamp) : Timestamp := if ts_leb a b then b else a.

Definition column_min (col : list Timestamp) : option Timestamp :=
  match col with
  | [] => None
  | x :: t => Some (fold_left ts_min t x)
  end.

Definition column_max (col : list Timestamp) : option Timestamp :=
  match col with
  | [] => None
  | x :: t => Some (fold_left ts_max t x)
  end.

(** Lines 58-60: the default value of the date input, which also bounds
    it: the calendar dates of the earliest and of the latest row. *)
Definition default_range (df : list Transaction) : option (Date * Date) :=
  match column_min (map date df), column_max (map date df) with
  | Some lo, Some hi => Some (ts_date lo, ts_date hi)
  | _, _ => None
  end.

(** The format [{n:,}] of lines 50 and 87: the decimal digits of a count
    with a comma before every group of three digits, counted from the right.
    [group k] works on the digits from the right, [k] of which have been
    written since the last comma. *)
Fixpoint group (k : nat) (digits : list ascii) : list ascii :=
  match digits with
  | [] => []
  | d :: t =>
      match k with
      | 3%nat => "," :: d :: group 1 t
      | _ => d :: group (S k) t
      end
  end%char.

Definition decimal (n : nat) : string := NilEmpty.string_of_uint (Nat.to_uint n).

Definition format_count (n : nat) : string :=
  string_of_list_ascii (rev (group 0 (rev (list_ascii_of_string (decimal n))))).

(** Reading a count back: the commas are dropped and the digits read. *)
Definition drop_commas (l : list ascii) : list ascii :=
  List.filter (fun c => negb (Ascii.eqb c ",")) l.

Definition read_count (s : string) : option nat :=
  option_map Nat.of_uint
    (NilEmpty.uint_of_string
       (string_of_list_ascii (drop_commas (list_ascii_of_string s)))).

(** [strftime('%Y-%m-%d')] of line 227, for the four-digit years of a
    timestamp: year, month and day in decimal, padded with zeros to four, two
    and two digits. *)
Definition digit_char (d : Z) : ascii := ascii_of_N (48 + Z.to_N d).

Definition two_digits (n : Z) : string :=
  String (digit_char (n / 10)) (String (digit_char (n mod 10)) EmptyString).

Definition four_digits (n : Z) : string :=
  (two_digits (n / 100) ++ two_digits (n mod 100))%string.

Definition strftime (d : Date) : string :=
  (four_digits (year d) ++ "-" ++ two_digits (month d) ++ "-"
   ++ two_digits (day d))%string.

(** The dates a timestamp can hold, as far as the format is concerned. *)
Definition printable (d : Date) : Prop :=
  1000 <= year d <= 9999 /\ 1 <= month d <= 12 /\ 1 <= day d <= 31.

(** Descending order of calendar dates. *)
Definition by_day_desc (a b : Date) : bool := date_leb b a.

(** Descending order of the formatted dates, the key of line 230. *)
Definition by_text_desc (a b : string) : bool := String.leb b a.

Definition count_of (x : string) (l : list string) : nat :=
  List.length (List.filter (String.eqb x) l).

Definition by_count_desc (a b : string * nat) : bool := (snd b <=? snd a)%nat.

Section WithPandas.
Context {sorting : Sorting}.

(** Line 144: [filtered['type'].value_counts()], the number of rows per
    type, largest first. *)
Definition value_counts (col : list string) : list (string * nat) :=
  sort_values by_count_desc (map (fun x => (x, count_of x col)) (unique col)).

Definition pie_data (f : list Transaction) : list (string * nat) :=
  value_counts (map type f).

(** Lines 227 and 230: the column [date] of the display table, formatted
    and sorted in descending order of the text. *)
Definition display_dates (f : list Transaction) : list string :=
  sort_values by_text_desc (map (fun t => strftime (ts_date (date t))) f).

End WithPandas.

End Dashboard.

(** ** Sample data *)

Module Samples.
Import Calendar Float64 PandasLib Loader.

Definition digit (c : ascii) : option Z :=
  if Text.between 48 57 c then Some (Z.of_N (Text.code c) - 48) else None.

Fixpoint digits_from (acc : Z) (s : string) : option Z :=
  match s with
  | EmptyString => Some acc
  | String c t =>
      match digit c with
      | Some d => digits_from (acc * 10 + d) t
      | None => None
      end
  end.

Definition number (s : string) : option Z :=
  match s with
  | EmptyString => None
  | _ => digits_from 0 s
  end.

(** A date parser that reads [YYYY-MM-DD] and nothing else, and an amount
    parser that reads unsigned whole numbers and 'inf'; a value that is not
    a number is a missing one. *)
Definition iso_date (s : string) : option Timestamp :=
  match number (substring 0 4 s), number (substring 5 2 s),
        number (substring 8 2 s) with
  | Some y, Some m, Some d =>
      if (String.eqb (substring 4 1 s) "-" && String.eqb (substring 7 1 s) "-"
          && (String.length s =? 10)%nat
          && (1 <=? m) && (m <=? 12) && (1 <=? d) && (d <=? 31))%bool
      then Some (mkTimestamp (mkDate y m d) 0)
      else None
  | _, _, _ => None
  end.

Definition amount_of (s : string) : option float64 :=
  if String.eqb s "inf" then Some infinity
  else match number s with
       | Some n => if is_nan (of_Z n) then None else Some (of_Z n)
       | None => None
       end.

Lemma amount_of_value (col : list string) (a : float64) :
  In (Some a) (map amount_of col) -> is_nan a = false.
Proof.
  intros H. apply in_map_iff in H as [s [E _]]. unfold amount_of in E.
  destruct (String.eqb s "inf"); [inversion E; reflexivity|].
  destruct (number s) as [n|]; [|discriminate].
  destruct (is_nan (of_Z n)) eqn:N; [discriminate|].
  inversion E; subst. exact N.
Qed.

Definition sample_parsers : Parsers :=
  {| to_datetime := map iso_date;
     to_numeric := map amount_of;
     to_datetime_length := length_map iso_date;
     to_numeric_length := length_map amount_of;
     to_numeric_value := amount_of_value |}.

(** Sums taken from the left, starting from 0: on the whole numbers of the
    samples, whose partial sums are exact, every way of adding up gives the
    same value. *)
Definition sample_sum (l : list float64) : float64 := fold_left add l zero.

Definition sample_reductions : Reductions :=
  {| series_sum := sample_sum;
     group_sum := sample_sum;
     series_sum_nil := eq_refl;
     group_sum_nil := eq_refl |}.

Definition day_of (y m d : Z) : Timestamp := mkTimestamp (mkDate y m d) 0.

(** A row of a canonical table, built as [load_data] builds it. *)
Definition row (when : Timestamp) (amt : float64) (ty desc : string) : Transaction :=
  let clean := Text.normalize desc in
  {| date := when;
     amount := amt;
     type := ty;
     description := Some desc;
     clean_desc := clean;
     Category := categorize categories clean;
     signed_amount := signed ty amt;
     cumulative := None |}.

(** The scenario of the specification. *)
Definition scenario_csv : list RawRow :=
  [ mkRaw "2024-01-01" "100" "credit" (Some "Salary payment from ACME");
    mkRaw "2024-01-05" "20" "debit" (Some "Tesco groceries");
    mkRaw "2024-02-01" "100" "credit" (Some "Salary") ].

(** The same file with two lines that do not parse. *)
Definition dirty_csv : list RawRow :=
  [ mkRaw "2024-01-01" "100" "credit" (Some "Salary payment from ACME");
    mkRaw "yesterday" "15" "debit" (Some "Pub");
    mkRaw "2024-01-05" "20" "debit" (Some "Tesco groceries");
    mkRaw "2024-01-09" "a lot" "debit" None;
    mkRaw "2024-02-01" "100" "credit" (Some "Salary") ].

(** Two transactions of the same day. *)
Definition same_day : list Transaction :=
  [ row (day_of 2024 1 1) (of_Z 100) "credit" "Salary";
    row (day_of 2024 1 1) (of_Z 30) "debit" "Tesco" ].



(** A month without transactions between two months that have some. *)
Definition with_gap : list Transaction :=
  [ row (day_of 2024 1 15) (of_Z 100) "credit" "Salary";
    row (day_of 2024 3 10) (of_Z 20) "debit" "Tesco" ].

(** Three categories with the same total. *)
Definition equal_totals : list Transaction :=
  [ row (day_of 2024 1 2) (of_Z 10) "debit" "Tesco";
    row (day_of 2024 1 3) (of_Z 10) "debit" "Netflix";
    row (day_of 2024 1 4) (of_Z 10) "debit" "Uber" ].



(** The canonical table of the scenario, with the dates already parsed. *)
Definition scenario_table : list Transaction :=
  [ row (day_of 2024 1 1) (of_Z 100) "credit" "Salary payment from ACME";
    row (day_of 2024 1 5) (of_Z 20) "debit" "Tesco groceries";
    row (day_of 2024 2 1) (of_Z 100) "credit" "Salary" ].

End Samples.

(* ================================================================== *)
(** * Part II: supporting lemmas *)
(* ================================================================== *)

(** ** Text *)

Section TextFacts.
Import Text.

(** Case analysis over all 256 code points. *)
Ltac each_char c :=
  destruct c as [[] [] [] [] [] [] [] []]; vm_compute; try reflexivity; try congruence.

Lemma lower_char_idem (c : ascii) : lower_char (lower_char c) = lower_char c.
Proof. each_char c. Qed.

Lemma isalnum_lower_char (c : ascii) : isalnum (lower_char c) = isalnum c.
Proof. each_char c. Qed.

Lemma tidy_weaken (b : bool) (s : string) : tidy b s = true -> tidy false s = true.
Proof.
  destruct s as [|c t]; simpl; auto.
  destruct (Ascii.eqb c " "); auto.
  destruct b; simpl; auto. discriminate.
Qed.

Lemma tidy_replace_noise (b : bool) (s : string) :
  tidy b (replace_noise b (lower s)) = true.
Proof.
  revert b; induction s as [|c t IH]; intros b; simpl; auto.
  unfold is_noise. rewrite isalnum_lower_char.
  destruct (isalnum c) eqn:E; simpl.
  - destruct (Ascii.eqb_spec (lower_char c) " ") as [e|_].
    + rewrite <- isalnum_lower_char, e in E. discriminate E.
    + rewrite isalnum_lower_char, E, lower_char_idem, Ascii.eqb_refl, IH.
      reflexivity.
  - destruct b; simpl; auto.
Qed.

Lemma tidy_lower (b : bool) (s : string) : tidy b s = true -> lower s = s.
Proof.
  revert b; induction s as [|c t IH]; intros b; simpl; auto.
  destruct (Ascii.eqb_spec c " ") as [->|_]; intros H.
  - apply andb_prop in H as [_ H]. rewrite (IH _ H). reflexivity.
  - apply andb_prop in H as [H1 H]. apply andb_prop in H1 as [_ H1].
    apply Ascii.eqb_eq in H1. rewrite H1, (IH _ H). reflexivity.
Qed.

Lemma tidy_replace_fixed (b : bool) (s : string) :
  tidy b s = true -> replace_noise b s = s.
Proof.
  revert b; induction s as [|c t IH]; intros b; simpl; auto.
  destruct (Ascii.eqb_spec c " ") as [->|_]; intros H.
  - apply andb_prop in H as [Hb H]. destruct b; [discriminate|].
    change (is_noise " ") with true. cbv iota. rewrite (IH _ H). reflexivity.
  - apply andb_prop in H as [H1 H]. apply andb_prop in H1 as [H1 _].
    unfold is_noise. rewrite H1. simpl. rewrite (IH _ H). reflexivity.
Qed.

Lemma tidy_lstrip (b : bool) (s : string) :
  tidy b s = true -> tidy false (lstrip s) = true.
Proof.
  revert b; induction s as [|c t IH]; intros b H; simpl; auto.
  destruct (isspace c).
  - simpl in H. destruct (Ascii.eqb c " ").
    + apply andb_prop in H as [_ H]. eauto.
    + apply andb_prop in H as [_ H]. eauto.
  - eapply tidy_weaken; eauto.
Qed.

Lemma tidy_rstrip (b : bool) (s : string) :
  tidy b s = true -> tidy b (rstrip s) = true.
Proof.
  revert b; induction s as [|c t IH]; intros b H; simpl; auto.
  simpl in H.
  destruct (Ascii.eqb c " ") eqn:E.
  - apply andb_prop in H as [Hb H]. specialize (IH _ H).
    destruct (rstrip t) as [|c' r].
    + destruct (isspace c); simpl; auto. rewrite E, Hb. reflexivity.
    + simpl. rewrite E, Hb. exact IH.
  - apply andb_prop in H as [H1 H]. specialize (IH _ H).
    destruct (rstrip t) as [|c' r].
    + destruct (isspace c); simpl; auto. rewrite E, H1. reflexivity.
    + simpl. rewrite E, H1. exact IH.
Qed.

Lemma lstrip_idem (s : string) : lstrip (lstrip s) = lstrip s.
Proof.
  induction s as [|c t IH]; simpl; auto.
  destruct (isspace c) eqn:E; auto. simpl. rewrite E. reflexivity.
Qed.

Lemma rstrip_idem (s : string) : rstrip (rstrip s) = rstrip s.
Proof.
  induction s as [|c t IH]; simpl; auto.
  destruct (rstrip t) as [|c' r] eqn:E.
  - destruct (isspace c) eqn:Ec; simpl; auto. rewrite Ec. reflexivity.
  - change (rstrip (String c (String c' r))) with
      (match rstrip (String c' r) with
       | EmptyString => if isspace c then EmptyString else String c EmptyString
       | r0 => String c r0
       end).
    rewrite IH. reflexivity.
Qed.

(** Stripping on the right leaves a text alone on the left when it does not
    start with white space. *)
Lemma lstrip_rstrip (s : string) : lstrip s = s -> lstrip (rstrip s) = rstrip s.
Proof.
  destruct s as [|c t]; simpl; auto.
  destruct (isspace c) eqn:E.
  - intros H. exfalso.
    assert (L : forall u, (String.length (lstrip u) <= String.length u)%nat).
    { induction u as [|d u IHu]; simpl; auto. destruct (isspace d); simpl; lia. }
    specialize (L t). rewrite H in L. simpl in L. lia.
  - intros _. destruct (rstrip t); simpl; rewrite E; reflexivity.
Qed.

Lemma strip_idem (s : string) : strip (strip s) = strip s.
Proof.
  unfold strip.
  rewrite (lstrip_rstrip (lstrip s) (lstrip_idem s)).
  apply rstrip_idem.
Qed.

Lemma tidy_normalize (s : string) : tidy false (normalize s) = true.
Proof.
  unfold normalize, strip.
  apply tidy_rstrip. eapply tidy_lstrip. apply tidy_replace_noise.
Qed.

End TextFacts.

(** ** The categoriser *)

Section CategorizerFacts.
Import Loader.

Lemma existsb_rev {A : Type} (f : A -> bool) (l : list A) :
  existsb f (rev l) = existsb f l.
Proof.
  induction l as [|a l IH]; simpl; auto.
  rewrite existsb_app, IH. simpl. rewrite orb_false_r. apply orb_comm.
Qed.

Lemma categorize_from (table : list (string * list string)) (desc label : string) :
  fold_left
    (fun label rule => if Text.contains (snd rule) desc then fst rule else label)
    table label
  = match first_match (rev table) desc,
          existsb (fun rule => Text.contains (snd rule) desc) table with
    | found, true => found
    | _, false => label
    end.
Proof.
  revert label; induction table as [|rule rest IH] using rev_ind; intros label.
  - reflexivity.
  - rewrite fold_left_app, rev_app_distr, existsb_app. simpl.
    destruct (Text.contains (snd rule) desc) eqn:E.
    + rewrite orb_true_r. reflexivity.
    + rewrite orb_false_r. apply IH.
Qed.

Lemma first_match_none (table : list (string * list string)) (desc : string) :
  existsb (fun rule => Text.contains (snd rule) desc) table = false ->
  first_match table desc = "Other".
Proof.
  induction table as [|rule rest IH]; simpl; auto.
  destruct (Text.contains (snd rule) desc); simpl; auto. discriminate.
Qed.

(** The loop over the column and the fold over one row agree. *)
Lemma category_column_rowwise (table : list (string * list string)) (descs : list string) :
  category_column table descs = map (categorize table) descs.
Proof.
  unfold category_column, categorize.
  generalize "Other" as label.
  assert (G : forall (labels : list string),
             List.length labels = List.length descs ->
             fold_left
               (fun col rule =>
                  map (fun cell => if Text.contains (snd rule) (fst cell)
                                   then fst rule else snd cell)
                      (combine descs col))
               table labels
             = map (fun cell =>
                      fold_left
                        (fun label rule =>
                           if Text.contains (snd rule) (fst cell) then fst rule else label)
                        table (snd cell))
                   (combine descs labels)).
  { induction table as [|rule rest IH]; intros labels L; simpl.
    - revert labels L. induction descs as [|d ds IHd]; intros [|l ls] L;
        simpl in *; try discriminate; auto.
      f_equal. apply IHd. congruence.
    - rewrite IH.
      + clear IH. revert labels L.
        induction descs as [|d ds IHd]; intros [|l ls] L;
          simpl in *; try discriminate; auto.
        f_equal. apply IHd. congruence.
      + rewrite length_map, length_combine, L. apply Nat.min_id. }
  intros label. rewrite G by (rewrite length_map; reflexivity).
  clear G. induction descs as [|d ds IHd]; simpl; auto.
  f_equal. exact IHd.
Qed.

Lemma fold_label_in (table : list (string * list string)) (desc label : string) :
  In (fold_left
        (fun label rule => if Text.contains (snd rule) desc then fst rule else label)
        table label)
     (label :: map fst table).
Proof.
  revert label; induction table as [|rule rest IH]; intros label; simpl.
  - left. reflexivity.
  - destruct (IH (if Text.contains (snd rule) desc then fst rule else label)) as [E|H].
    + destruct (Text.contains (snd rule) desc); [right; left | left]; exact E.
    + right. right. exact H.
Qed.

End CategorizerFacts.

(** ** Order on dates and timestamps *)

Section CalendarFacts.
Import Calendar PandasLib.

Lemma date_compare_spec (a b : Date) :
  CompareSpec (a = b) (date_lt a b) (date_lt b a) (date_compare a b).
Proof.
  destruct a as [ya ma da], b as [yb mb db].
  unfold date_compare, date_lt; simpl.
  destruct (Z.compare_spec ya yb); simpl;
    [destruct (Z.compare_spec ma mb); simpl;
       [destruct (Z.compare_spec da db); simpl|..]|..];
    constructor; subst; auto; lia.
Qed.

Lemma ts_compare_spec (a b : Timestamp) :
  CompareSpec (a = b) (ts_lt a b) (ts_lt b a) (ts_compare a b).
Proof.
  destruct a as [da ta], b as [db tb].
  unfold ts_compare, ts_lt; simpl.
  destruct (date_compare_spec da db); simpl;
    [destruct (Z.compare_spec ta tb); simpl|..];
    constructor; subst; auto.
Qed.

Lemma date_lt_irrefl (a : Date) : ~ date_lt a a.
Proof. unfold date_lt. lia. Qed.

Lemma date_lt_trans (a b c : Date) : date_lt a b -> date_lt b c -> date_lt a c.
Proof. unfold date_lt. lia. Qed.

Lemma ts_lt_irrefl (a : Timestamp) : ~ ts_lt a a.
Proof.
  unfold ts_lt. intros [H|[_ H]]; [eapply date_lt_irrefl; eauto | lia].
Qed.

Lemma ts_lt_trans (a b c : Timestamp) : ts_lt a b -> ts_lt b c -> ts_lt a c.
Proof.
  unfold ts_lt. intros [H1|[E1 H1]] [H2|[E2 H2]].
  - left. eapply date_lt_trans; eauto.
  - left. rewrite <- E2. exact H1.
  - left. rewrite E1. exact H2.
  - right. split; [congruence | lia].
Qed.

Lemma date_leb_iff (a b : Date) : date_leb a b = true <-> a = b \/ date_lt a b.
Proof.
  unfold date_leb.
  destruct (date_compare_spec a b) as [E|L|G]; simpl; split; auto.
  - discriminate.
  - intros [E|L]; [subst; exfalso; eapply date_lt_irrefl; eauto |].
    exfalso. eapply date_lt_irrefl. eapply date_lt_trans; eauto.
Qed.

Lemma date_leb_false (a b : Date) : date_leb a b = false <-> date_lt b a.
Proof.
  unfold date_leb.
  destruct (date_compare_spec a b) as [E|L|G]; simpl; split; auto; try discriminate.
  - subst. intros H. exfalso. eapply date_lt_irrefl; eauto.
  - intros H. exfalso. eapply date_lt_irrefl. eapply date_lt_trans; eauto.
Qed.

Lemma ts_leb_iff (a b : Timestamp) : ts_leb a b = true <-> a = b \/ ts_lt a b.
Proof.
  unfold ts_leb.
  destruct (ts_compare_spec a b) as [E|L|G]; simpl; split; auto.
  - discriminate.
  - intros [E|L]; [subst; exfalso; eapply ts_lt_irrefl; eauto |].
    exfalso. eapply ts_lt_irrefl. eapply ts_lt_trans; eauto.
Qed.

Lemma ts_leb_false (a b : Timestamp) : ts_leb a b = false <-> ts_lt b a.
Proof.
  unfold ts_leb.
  destruct (ts_compare_spec a b) as [E|L|G]; simpl; split; auto; try discriminate.
  - subst. intros H. exfalso. eapply ts_lt_irrefl; eauto.
  - intros H. exfalso. eapply ts_lt_irrefl. eapply ts_lt_trans; eauto.
Qed.

Lemma ts_leb_total : total ts_leb.
Proof.
  intros a b. destruct (ts_leb a b) eqn:E; auto.
  right. apply ts_leb_iff. right. apply ts_leb_false. exact E.
Qed.

Lemma ts_leb_trans : transitive ts_leb.
Proof.
  intros a b c H1 H2. apply ts_leb_iff in H1, H2. apply ts_leb_iff.
  destruct H1 as [->|H1]; auto. destruct H2 as [<-|H2]; auto.
  right. eapply ts_lt_trans; eauto.
Qed.

Lemma by_date_total : total Loader.by_date.
Proof. intros a b. apply ts_leb_total. Qed.

Lemma by_date_trans : transitive Loader.by_date.
Proof. intros a b c. apply ts_leb_trans. Qed.

End CalendarFacts.

(** ** Order and subtraction of floats *)

Section FloatFacts.
Import Float64 PandasLib.

Lemma less_key (x y : float64) : less x y = true <-> lex (key x) (key y).
Proof.
  unfold less, ltb, SFltb, lex.
  destruct x as [sx|sx| |sx mx ex], y as [sy|sy| |sy my ey];
    try destruct sx; try destruct sy; simpl;
    try (split; [discriminate | lia]);
    try (split; [lia | reflexivity]).
  - rewrite orb_false_r.
    destruct (Z.compare_spec ex ey); simpl.
    + rewrite Pos.compare_cont_spec. simpl.
      destruct (Pos.compare_spec mx my); simpl;
        (split; [try discriminate; lia | try reflexivity; lia]).
    + split; [discriminate | lia].
    + split; [lia | reflexivity].
  - rewrite orb_false_r.
    destruct (Z.compare_spec ex ey); simpl.
    + rewrite Pos.compare_cont_spec. simpl.
      destruct (Pos.compare_spec mx my); simpl;
        (split; [try discriminate; lia | try reflexivity; lia]).
    + split; [lia | reflexivity].
    + split; [discriminate | lia].
Qed.

Lemma less_asym (x y : float64) : less x y = true -> less y x = false.
Proof.
  intros H. destruct (less y x) eqn:E; [|reflexivity].
  apply less_key in H, E. unfold lex in *. lia.
Qed.

Lemma less_cotrans (x y z : float64) :
  less x y = false -> less y z = false -> less x z = false.
Proof.
  intros H1 H2. destruct (less x z) eqn:E; [|reflexivity].
  apply less_key in E.
  assert (N1 : ~ lex (key x) (key y)) by (rewrite <- less_key; congruence).
  assert (N2 : ~ lex (key y) (key z)) by (rewrite <- less_key; congruence).
  unfold lex in *. lia.
Qed.

Lemma less_nan (x : float64) : is_nan x = false -> less x nan = true.
Proof. destruct x as [[]|[]| |[] m e]; simpl; try discriminate; reflexivity. Qed.

Lemma nan_not_less (x y : float64) : is_nan x = true -> less x y = false.
Proof. destruct x; try discriminate. intros _. destruct y; reflexivity. Qed.

Lemma is_nan_eq (x : float64) : is_nan x = true -> x = nan.
Proof. destruct x; try discriminate. reflexivity. Qed.

(** A finite float minus itself is +0. *)
Lemma sub_diag (x : float64) : is_finite x = true -> sub x x = zero.
Proof.
  destruct x as [[]|[]| |s m e]; simpl; try discriminate; intros _; try reflexivity.
  unfold sub, SFsub. rewrite Z.sub_diag. reflexivity.
Qed.






End FloatFacts.

(** ** The stable sort kinds *)

Section SortingFacts.
Import PandasLib.
Context {A : Type} (leb : A -> A -> bool).

Lemma insert_perm (x : A) (l : list A) : Permutation (x :: l) (insert leb x l).
Proof.
  induction l as [|y t IH]; simpl; auto.
  destruct (leb x y); auto.
  eapply perm_trans; [apply perm_swap|]. auto.
Qed.

Lemma insertion_sort_perm (l : list A) : Permutation l (insertion_sort leb l).
Proof.
  induction l as [|x t IH]; simpl; auto.
  eapply perm_trans; [|apply insert_perm]. auto.
Qed.

Lemma insert_sorted (x : A) (l : list A) :
  total leb -> transitive leb ->
  StronglySorted (fun a b => leb a b = true) l ->
  StronglySorted (fun a b => leb a b = true) (insert leb x l).
Proof.
  intros T Tr. induction 1 as [|y t S IH F]; simpl.
  - repeat constructor.
  - destruct (leb x y) eqn:E.
    + constructor; [constructor; auto|].
      constructor; auto.
      eapply Forall_impl; [|exact F]. intros z Hz. eapply Tr; eauto.
    + constructor; auto.
      eapply Permutation_Forall; [apply insert_perm|].
      constructor; auto.
      destruct (T x y) as [H|H]; [congruence | exact H].
Qed.

Lemma insertion_sort_sorted (l : list A) :
  total leb -> transitive leb ->
  StronglySorted (fun a b => leb a b = true) (insertion_sort leb l).
Proof.
  intros T Tr. induction l as [|x t IH]; simpl.
  - constructor.
  - apply insert_sorted; auto.
Qed.

(** Insertion keeps the elements a predicate selects in their order, when
    the selected elements are equivalent for the order. *)
Lemma filter_insert (p : A -> bool) (x : A) (l : list A) :
  (forall y, p x = true -> p y = true -> leb x y = true) ->
  List.filter p (insert leb x l) = List.filter p (x :: l).
Proof.
  intros H. induction l as [|y t IH]; simpl; auto.
  destruct (leb x y) eqn:E; simpl; auto.
  simpl in IH. rewrite IH.
  destruct (p x) eqn:Px, (p y) eqn:Py; auto.
  rewrite (H y eq_refl Py) in E. discriminate.
Qed.

(** The insertion sort is stable: the elements a predicate selects keep
    their input order. *)
Lemma insertion_sort_stable (p : A -> bool) (l : list A) :
  (forall x y, p x = true -> p y = true -> leb x y = true) ->
  List.filter p (insertion_sort leb l) = List.filter p l.
Proof.
  intros H. induction l as [|x t IH]; simpl; auto.
  rewrite filter_insert by (intros y; apply H).
  simpl. rewrite IH. reflexivity.
Qed.

End SortingFacts.

(** [sort_values] with [kind='stable']: equal keys keep their input
    order. *)
Definition stable_sorting : PandasLib.Sorting :=
  {| PandasLib.sort_values := @PandasLib.insertion_sort;
     PandasLib.sort_values_perm := @insertion_sort_perm;
     PandasLib.sort_values_sorted := @insertion_sort_sorted |}.

(** ** numpy's quicksort is a sort

    The embedded algorithm returns the rows it is given, in ascending order
    of the column, whatever the length of the column and the depth it reaches:
    it meets what pandas documents of [sort_values]. *)

Section InsertionFacts.
Local Open Scope nat_scope.
Context {A : Type} (less : A -> A -> bool).



Lemma sorted_app (R : A -> A -> Prop) (l1 l2 : list A) :
  StronglySorted R l1 -> StronglySorted R l2 ->
  (forall x y, In x l1 -> In y l2 -> R x y) ->
  StronglySorted R (l1 ++ l2).
Proof.
  induction 1 as [|x l1 S IH F]; simpl; intros S2 H; [exact S2|].
  constructor.
  - apply IH; [exact S2|]. intros a b Ha Hb. apply H; [right; exact Ha | exact Hb].
  - apply Forall_app. split; [exact F|].
    apply Forall_forall. intros y Hy. apply H; [left; reflexivity | exact Hy].
Qed.

Lemma sorted_rev (R : A -> A -> Prop) (l : list A) :
  StronglySorted R l -> StronglySorted (fun a b => R b a) (rev l).
Proof.
  induction 1 as [|x l S IH F]; simpl; [constructor|].
  apply sorted_app; auto.
  - repeat constructor.
  - intros a b Ha [<-|[]]. rewrite Forall_forall in F. apply F.
    apply in_rev. exact Ha.
Qed.

Lemma place_perm (x : A) (r : list A) : Permutation (x :: r) (Numpy.place less x r).
Proof.
  induction r as [|y r IH]; simpl; auto.
  destruct (less x y); auto.
  eapply perm_trans; [apply perm_swap|]. auto.
Qed.

Lemma fold_place_perm (seg r : list A) :
  Permutation (rev seg ++ r) (fold_left (fun r x => Numpy.place less x r) seg r).
Proof.
  revert r; induction seg as [|x seg IH]; intros r; simpl; auto.
  rewrite <- app_assoc. simpl.
  eapply perm_trans; [|apply IH].
  apply Permutation_app_head. apply place_perm.
Qed.

Lemma insertion_perm (seg : list A) : Permutation seg (Numpy.insertion less seg).
Proof.
  unfold Numpy.insertion.
  eapply perm_trans; [|apply Permutation_rev].
  eapply perm_trans; [|apply fold_place_perm].
  rewrite app_nil_r. apply Permutation_rev.
Qed.

Lemma place_sorted (x : A) (r : list A) :
  (forall a b, less a b = true -> less b a = false) ->
  (forall a b c, less a b = false -> less b c = false -> less a c = false) ->
  StronglySorted (fun a b => less a b = false) r -> StronglySorted (fun a b => less a b = false) (Numpy.place less x r).
Proof.
  intros As Co. induction 1 as [|y r S IH F]; simpl.
  - repeat constructor.
  - destruct (less x y) eqn:E.
    + constructor; [exact IH|].
      eapply Permutation_Forall; [apply place_perm|].
      constructor; [apply As; exact E | exact F].
    + constructor; [constructor; assumption|].
      constructor; [exact E|].
      eapply Forall_impl; [|exact F]. intros z Hz.
      exact (Co _ _ _ E Hz).
Qed.

Lemma insertion_sorted (seg : list A) :
  (forall a b, less a b = true -> less b a = false) ->
  (forall a b c, less a b = false -> less b c = false -> less a c = false) ->
  StronglySorted (fun a b => less b a = false) (Numpy.insertion less seg).
Proof.
  intros As Co. unfold Numpy.insertion.
  apply (sorted_rev (fun a b => less a b = false)).
  assert (G : forall r, StronglySorted (fun a b => less a b = false) r ->
                StronglySorted (fun a b => less a b = false) (fold_left (fun r x => Numpy.place less x r) seg r)).
  { induction seg as [|x seg IH]; intros r S; simpl; auto.
    apply IH. apply place_sorted; auto. }
  apply G. constructor.
Qed.



End InsertionFacts.

Section PartitionFacts.
Local Open Scope nat_scope.
Context {A : Type} (less : A -> A -> bool).

Lemma span_app (f : A -> bool) (l a b : list A) :
  Numpy.span f l = (a, b) -> l = a ++ b.
Proof.
  revert a b; induction l as [|x l IH]; simpl; intros a b H.
  - inversion H. reflexivity.
  - destruct (f x).
    + destruct (Numpy.span f l) as [a' b'] eqn:E. inversion H; subst.
      simpl. f_equal. apply IH. reflexivity.
    + inversion H. reflexivity.
Qed.

Lemma span_all (f : A -> bool) (l a b : list A) :
  Numpy.span f l = (a, b) -> Forall (fun x => f x = true) a.
Proof.
  revert a b; induction l as [|x l IH]; simpl; intros a b H.
  - inversion H. constructor.
  - destruct (f x) eqn:Fx.
    + destruct (Numpy.span f l) as [a' b'] eqn:E. inversion H; subst.
      constructor; eauto.
    + inversion H. constructor.
Qed.

Lemma span_stop (f : A -> bool) (l a b : list A) (x : A) :
  Numpy.span f l = (a, x :: b) -> f x = false.
Proof.
  revert a; induction l as [|y l IH]; simpl; intros a H.
  - inversion H.
  - destruct (f y) eqn:Fy.
    + destruct (Numpy.span f l) as [a' b'] eqn:E. inversion H; subst. eauto.
    + inversion H; subst. exact Fy.
Qed.

Lemma hoare_perm (fuel : nat) (p : A) (M lower upper : list A) :
  Numpy.hoare less fuel p M = (lower, upper) -> Permutation M (lower ++ upper).
Proof.
  revert M lower upper; induction fuel as [|fuel IH]; intros M lower upper; simpl.
  - intros H. inversion H. rewrite app_nil_r. reflexivity.
  - destruct (Numpy.span (fun x => less x p) M) as [lo rest] eqn:E1.
    apply span_app in E1. subst M.
    destruct rest as [|f rest1].
    + intros H. inversion H. reflexivity.
    + destruct (Numpy.span (fun x => less p x) (rev rest1)) as [hi_r mid_r] eqn:E2.
      apply span_app in E2.
      destruct mid_r as [|g inner_r].
      * intros H. inversion H. reflexivity.
      * destruct (Numpy.hoare less fuel p (rev inner_r)) as [l' r'] eqn:E3.
        intros H. inversion H; subst. clear H.
        apply IH in E3.
        assert (R : rest1 = rev inner_r ++ g :: rev hi_r).
        { rewrite <- (rev_involutive rest1), E2, rev_app_distr. simpl.
          rewrite <- app_assoc. reflexivity. }
        rewrite R, <- app_assoc. apply Permutation_app_head.
        transitivity (g :: f :: (l' ++ r') ++ rev hi_r).
        -- eapply perm_trans; [|apply perm_swap]. apply perm_skip.
           eapply perm_trans; [apply Permutation_sym, Permutation_middle|].
           apply perm_skip. apply Permutation_app_tail. exact E3.
        -- simpl. apply perm_skip.
           rewrite (app_assoc l' r' (f :: rev hi_r)).
           apply Permutation_middle.
Qed.

Hypothesis asym : forall a b, less a b = true -> less b a = false.

(** What the scan leaves on either side of the place of the pivot. *)
Lemma hoare_sides (fuel : nat) (p : A) (M lower upper : list A) :
  (List.length M <= fuel)%nat ->
  Numpy.hoare less fuel p M = (lower, upper) ->
  Forall (fun x => less p x = false) lower
  /\ Forall (fun x => less x p = false) upper.
Proof.
  revert M lower upper; induction fuel as [|fuel IH]; intros M lower upper L; simpl.
  - destruct M; [|simpl in L; lia]. intros H. inversion H. split; constructor.
  - destruct (Numpy.span (fun x => less x p) M) as [lo rest] eqn:E1.
    pose proof (span_all _ _ _ _ E1) as Flo.
    assert (Flo' : Forall (fun x => less p x = false) lo).
    { eapply Forall_impl; [|exact Flo]. intros x Hx. apply asym. exact Hx. }
    pose proof (span_app _ _ _ _ E1) as EM.
    destruct rest as [|f rest1].
    + intros H. inversion H; subst. split; [exact Flo' | constructor].
    + pose proof (span_stop _ _ _ _ _ E1) as Ff.
      destruct (Numpy.span (fun x => less p x) (rev rest1)) as [hi_r mid_r] eqn:E2.
      pose proof (span_all _ _ _ _ E2) as Fhi.
      assert (Fhi' : Forall (fun x => less x p = false) (rev hi_r)).
      { apply Forall_rev. eapply Forall_impl; [|exact Fhi].
        intros x Hx. apply asym. exact Hx. }
      pose proof (span_app _ _ _ _ E2) as ER.
      destruct mid_r as [|g inner_r].
      * intros H. inversion H; subst. split; [exact Flo'|].
        constructor; [exact Ff|].
        rewrite app_nil_r in ER. rewrite <- (rev_involutive rest1), ER. exact Fhi'.
      * pose proof (span_stop _ _ _ _ _ E2) as Fg.
        destruct (Numpy.hoare less fuel p (rev inner_r)) as [l' r'] eqn:E3.
        intros H. inversion H; subst. clear H.
        apply IH in E3.
        -- destruct E3 as [F1 F2]. split.
           ++ apply Forall_app. split; [exact Flo'|]. constructor; assumption.
           ++ apply Forall_app. split; [exact F2|]. constructor; assumption.
        -- rewrite length_rev.
           assert (L1 : List.length rest1 = List.length (hi_r ++ g :: inner_r))
             by (rewrite <- ER, length_rev; reflexivity).
           rewrite length_app in L, L1. simpl in L, L1. lia.
Qed.

End PartitionFacts.

Section PivotFacts.
Local Open Scope nat_scope.
Context {A : Type} (less : A -> A -> bool).

Lemma median3_perm (a b c x0 xm xl : A) :
  Numpy.median3 less a b c = (x0, xm, xl) -> Permutation [a; b; c] [x0; xm; xl].
Proof.
  unfold Numpy.median3.
  assert (P1 : Permutation [a; b; c] [b; a; c]) by apply perm_swap.
  assert (P2 : Permutation [a; b; c] [a; c; b]) by apply perm_skip, perm_swap.
  assert (P3 : Permutation [a; b; c] [c; a; b]).
  { eapply perm_trans; [exact P2|]. apply perm_swap. }
  assert (P4 : Permutation [a; b; c] [b; c; a]).
  { eapply perm_trans; [exact P1|]. apply perm_skip, perm_swap. }
  assert (P5 : Permutation [a; b; c] [c; b; a]).
  { eapply perm_trans; [exact P4|]. apply perm_swap. }
  destruct (less b a).
  - destruct (less c a).
    + destruct (less c b); intros H; inversion H; subst; assumption.
    + destruct (less a b); intros H; inversion H; subst;
        [reflexivity | assumption].
  - destruct (less c b).
    + destruct (less c a); intros H; inversion H; subst; assumption.
    + destruct (less b a); intros H; inversion H; subst;
        [assumption | reflexivity].
Qed.

Lemma skipn_split (i k : nat) (l : list A) :
  skipn i l = firstn k (skipn i l) ++ skipn (i + k) l.
Proof.
  rewrite <- (firstn_skipn k (skipn i l)) at 1.
  rewrite skipn_skipn. do 2 f_equal. apply Nat.add_comm.
Qed.

Lemma skipn_tail (i : nat) (l t : list A) (x : A) :
  skipn i l = x :: t -> skipn (S i) l = t.
Proof.
  intros H. change (S i) with (1 + i)%nat. rewrite <- skipn_skipn, H. reflexivity.
Qed.

(** What [partition] computes, spelled out on the parts of the segment. *)
Lemma partition_inv (seg l r : list A) (p : A) :
  (5 <= List.length seg)%nat ->
  Numpy.partition less seg = Some (l, p, r) ->
  exists a0 am alast z b1 b2 x0 xl lower upper,
    seg = a0 :: b1 ++ am :: b2 ++ [z; alast]
    /\ Numpy.median3 less a0 am alast = (x0, p, xl)
    /\ Numpy.hoare less (List.length seg) p (b1 ++ z :: b2) = (lower, upper)
    /\ l = x0 :: lower
    /\ r = match upper with
           | [] => [xl]
           | g :: upper' => upper' ++ [g; xl]
           end.
Proof.
  intros L. unfold Numpy.partition.
  remember (List.length seg) as n eqn:En.
  set (pm := ((n - 1) / 2)%nat).
  assert (Hpm : (2 <= pm /\ pm + 3 <= n)%nat).
  { unfold pm. pose proof (Nat.div_mod_eq (n - 1) 2) as D.
    pose proof (Nat.mod_upper_bound (n - 1) 2 ltac:(lia)) as U. lia. }
  destruct seg as [|a0 t] eqn:Es; [discriminate|]. rewrite <- Es in *.
  destruct (skipn pm seg) as [|am tm] eqn:Em; [discriminate|].
  destruct (skipn (n - 2) seg) as [|z [|alast [|? ?]]] eqn:El; try discriminate.
  set (b1 := firstn (pm - 1) (skipn 1 seg)).
  set (b2 := firstn (n - 3 - pm) (skipn (pm + 1) seg)).
  assert (D : seg = a0 :: b1 ++ am :: b2 ++ [z; alast]).
  { rewrite <- (firstn_skipn 1 seg) at 1.
    rewrite (skipn_split 1 (pm - 1) seg).
    replace (1 + (pm - 1))%nat with pm by lia. rewrite Em.
    apply skipn_tail in Em.
    replace (S pm) with (pm + 1)%nat in Em by lia.
    rewrite <- Em, (skipn_split (pm + 1) (n - 3 - pm) seg).
    replace (pm + 1 + (n - 3 - pm))%nat with (n - 2)%nat by lia.
    rewrite El. rewrite Es at 1. reflexivity. }
  destruct (Numpy.median3 less a0 am alast) as [[x0 xm] xl] eqn:E3.
  destruct (Numpy.hoare less n xm (b1 ++ z :: b2)) as [lower upper] eqn:Eh.
  intros H. inversion H; subst l p r. clear H.
  exists a0, am, alast, z, b1, b2, x0, xl, lower, upper.
  repeat split; assumption.
Qed.

Lemma upper_perm (xl : A) (upper : list A) :
  Permutation (xl :: upper)
    match upper with
    | [] => [xl]
    | g :: upper' => upper' ++ [g; xl]
    end.
Proof.
  destruct upper as [|g upper']; [reflexivity|].
  eapply perm_trans; [apply perm_swap|].
  change (g :: xl :: upper') with ([g; xl] ++ upper').
  apply Permutation_app_comm.
Qed.

Lemma partition_perm (seg l r : list A) (p : A) :
  (5 <= List.length seg)%nat ->
  Numpy.partition less seg = Some (l, p, r) ->
  Permutation seg (l ++ p :: r).
Proof.
  intros L H.
  destruct (partition_inv seg l r p L H)
    as (a0 & am & alast & z & b1 & b2 & x0 & xl & lower & upper
        & D & E3 & Eh & -> & ->).
  pose proof (median3_perm _ _ _ _ _ _ E3) as P3.
  pose proof (hoare_perm _ _ _ _ _ _ Eh) as Ph.
  rewrite D at 1.
  transitivity ([a0; am; alast] ++ (b1 ++ z :: b2)).
  { simpl. apply perm_skip.
    eapply perm_trans; [apply Permutation_sym, Permutation_middle|].
    apply perm_skip.
    rewrite (app_assoc b1 b2 [z; alast]).
    eapply perm_trans; [apply Permutation_app_comm|]. simpl.
    eapply perm_trans; [apply perm_swap|]. apply perm_skip.
    apply Permutation_middle. }
  transitivity ([x0; p; xl] ++ (lower ++ upper)).
  { apply Permutation_app; assumption. }
  simpl. apply perm_skip.
  eapply perm_trans; [|apply Permutation_middle]. apply perm_skip.
  eapply perm_trans; [apply Permutation_middle|].
  apply Permutation_app_head. apply upper_perm.
Qed.

Hypothesis asym : forall a b, less a b = true -> less b a = false.
Hypothesis cotrans :
  forall a b c, less a b = false -> less b c = false -> less a c = false.

Lemma median3_ordered (a b c x0 xm xl : A) :
  Numpy.median3 less a b c = (x0, xm, xl) ->
  less xm x0 = false /\ less xl xm = false.
Proof.
  unfold Numpy.median3.
  destruct (less b a) eqn:E1.
  - pose proof (asym _ _ E1) as E1'.
    destruct (less c a) eqn:E2.
    + pose proof (asym _ _ E2) as E2'.
      destruct (less c b) eqn:E3; intros H; inversion H; subst.
      * split; [apply asym; assumption | assumption].
      * split; assumption.
    + rewrite E1'. intros H; inversion H; subst. split; assumption.
  - destruct (less c b) eqn:E2.
    + pose proof (asym _ _ E2) as E2'.
      destruct (less c a) eqn:E3; intros H; inversion H; subst.
      * split; [apply asym; assumption | assumption].
      * split; assumption.
    + rewrite E1. intros H; inversion H; subst. split; assumption.
Qed.

Lemma partition_sides (seg l r : list A) (p : A) :
  (5 <= List.length seg)%nat ->
  Numpy.partition less seg = Some (l, p, r) ->
  Forall (fun x => less p x = false) l
  /\ Forall (fun x => less x p = false) r.
Proof.
  intros L H.
  destruct (partition_inv seg l r p L H)
    as (a0 & am & alast & z & b1 & b2 & x0 & xl & lower & upper
        & D & E3 & Eh & -> & ->).
  destruct (median3_ordered _ _ _ _ _ _ E3) as [O1 O2].
  assert (Lh : (List.length (b1 ++ z :: b2) <= List.length seg)%nat).
  { rewrite D. cbn [List.length]. rewrite !length_app. cbn [List.length].
    rewrite length_app. cbn [List.length]. lia. }
  destruct (hoare_sides less asym _ _ _ _ _ Lh Eh) as [F1 F2].
  split.
  - constructor; assumption.
  - eapply Permutation_Forall; [apply upper_perm|]. constructor; assumption.
Qed.

End PivotFacts.

Section ArrayFacts.
Local Open Scope nat_scope.
Context {A : Type}.

Lemma length_set_nth (i : nat) (x : A) (a : list A) :
  List.length (Numpy.set_nth i x a) = List.length a.
Proof.
  revert i; induction a as [|y a IH]; intros [|i]; simpl; auto.
Qed.

Lemma nth_error_set_nth_eq (i : nat) (x : A) (a : list A) :
  (i < List.length a)%nat -> nth_error (Numpy.set_nth i x a) i = Some x.
Proof.
  revert i; induction a as [|y a IH]; intros [|i] H; simpl in *; try lia; auto.
  apply IH. lia.
Qed.

Lemma nth_error_set_nth_neq (i k : nat) (x : A) (a : list A) :
  k <> i -> nth_error (Numpy.set_nth i x a) k = nth_error a k.
Proof.
  revert i k; induction a as [|y a IH]; intros [|i] [|k] H; simpl; auto.
  contradiction.
Qed.

Lemma set_nth_perm (i : nat) (x y : A) (a : list A) :
  nth_error a i = Some x -> Permutation (y :: a) (x :: Numpy.set_nth i y a).
Proof.
  revert i; induction a as [|z a IH]; intros [|i] H; simpl in *; try discriminate.
  - inversion H; subst. apply perm_swap.
  - eapply perm_trans; [apply perm_swap|].
    eapply perm_trans; [apply perm_skip, IH; exact H|]. apply perm_swap.
Qed.

Lemma get_some (a : list A) (i : nat) :
  (1 <= i <= List.length a)%nat -> exists x, Numpy.get a i = Some x.
Proof.
  intros H. destruct i as [|i]; [lia|]. simpl.
  destruct (nth_error a i) eqn:E; eauto.
  apply nth_error_None in E. lia.
Qed.

Lemma get_valid (a : list A) (i : nat) (x : A) :
  Numpy.get a i = Some x -> (1 <= i <= List.length a)%nat.
Proof.
  destruct i as [|i]; simpl; [discriminate|]. intros H.
  assert (nth_error a i <> None) by congruence.
  apply nth_error_Some in H0. lia.
Qed.

Lemma length_exchange (a : list A) (i j : nat) :
  List.length (Numpy.exchange a i j) = List.length a.
Proof.
  unfold Numpy.exchange.
  destruct (Numpy.get a i), (Numpy.get a j); auto.
  destruct i as [|i], j as [|j]; simpl; rewrite ?length_set_nth; auto.
Qed.

Lemma get_exchange (a : list A) (i j k : nat) (x y : A) :
  Numpy.get a i = Some x -> Numpy.get a j = Some y ->
  Numpy.get (Numpy.exchange a i j) k
  = if (k =? j)%nat then Some x else if (k =? i)%nat then Some y else Numpy.get a k.
Proof.
  intros Hi Hj. unfold Numpy.exchange. rewrite Hi, Hj.
  pose proof (get_valid _ _ _ Hi) as Vi. pose proof (get_valid _ _ _ Hj) as Vj.
  destruct i as [|i]; [lia|]. destruct j as [|j]; [lia|].
  destruct k as [|k]; [reflexivity|]. simpl.
  destruct (Nat.eqb_spec k j) as [->|Nj].
  - apply nth_error_set_nth_eq. rewrite length_set_nth. lia.
  - rewrite nth_error_set_nth_neq by exact Nj.
    destruct (Nat.eqb_spec k i) as [->|Ni].
    + apply nth_error_set_nth_eq. lia.
    + apply nth_error_set_nth_neq. exact Ni.
Qed.

Lemma exchange_perm (a : list A) (i j : nat) : Permutation a (Numpy.exchange a i j).
Proof.
  unfold Numpy.exchange.
  destruct (Numpy.get a i) as [x|] eqn:Hi; [|reflexivity].
  destruct (Numpy.get a j) as [y|] eqn:Hj; [|reflexivity].
  pose proof (get_valid _ _ _ Hi) as Vi. pose proof (get_valid _ _ _ Hj) as Vj.
  destruct i as [|i]; [lia|]. destruct j as [|j]; [lia|]. simpl in *.
  apply (Permutation_cons_inv (a := y)).
  eapply perm_trans; [apply (set_nth_perm i x y a Hi)|].
  assert (Hj' : nth_error (Numpy.set_nth i y a) j = Some y).
  { destruct (Nat.eq_dec j i) as [->|N].
    - apply nth_error_set_nth_eq. lia.
    - rewrite nth_error_set_nth_neq by exact N. exact Hj. }
  apply (set_nth_perm j y x _ Hj').
Qed.

End ArrayFacts.

Section HeapsortFacts.
Local Open Scope nat_scope.
Context {A : Type} (less : A -> A -> bool).

Lemma sift_perm (fuel : nat) (a : list A) (j n : nat) :
  Permutation a (Numpy.sift less fuel a j n).
Proof.
  revert a j; induction fuel as [|fuel IH]; intros a j; cbn [Numpy.sift];
    [reflexivity|].
  destruct (2 * j <=? n)%nat; [|reflexivity]. cbv zeta.
  destruct (Numpy.less_at less a j (Numpy.larger_child less a j n)); [|reflexivity].
  eapply perm_trans; [apply exchange_perm | apply IH].
Qed.

Lemma build_perm (i : nat) (a : list A) (n : nat) :
  Permutation a (Numpy.build less i a n).
Proof.
  revert a; induction i as [|i IH]; intros a; cbn [Numpy.build]; [reflexivity|].
  eapply perm_trans; [apply sift_perm | apply IH].
Qed.

Lemma extract_perm (n : nat) (a : list A) :
  Permutation a (Numpy.extract less n a).
Proof.
  revert a; induction n as [|n IH]; intros a; [reflexivity|].
  destruct n as [|n]; [reflexivity|]. cbn [Numpy.extract].
  eapply perm_trans; [apply (exchange_perm a 1 (S (S n)))|].
  eapply perm_trans; [apply sift_perm | apply IH].
Qed.

Lemma heapsort_perm (a : list A) : Permutation a (Numpy.heapsort less a).
Proof.
  unfold Numpy.heapsort.
  eapply perm_trans; [apply build_perm | apply extract_perm].
Qed.

End HeapsortFacts.

Section HeapFacts.
Local Open Scope nat_scope.
Context {A : Type} (less : A -> A -> bool).
Hypothesis asym : forall a b, less a b = true -> less b a = false.
Hypothesis cotrans :
  forall a b c, less a b = false -> less b c = false -> less a c = false.

Lemma less_irrefl (x : A) : less x x = false.
Proof.
  destruct (less x x) eqn:E; [|reflexivity].
  pose proof (asym _ _ E). congruence.
Qed.

Lemma ge_at_refl (a : list A) (i : nat) : Numpy.ge_at less a i i.
Proof.
  intros x y Hx Hy. rewrite Hx in Hy. inversion Hy; subst. apply less_irrefl.
Qed.

Lemma less_at_true (a : list A) (i j : nat) :
  Numpy.less_at less a i j = true -> Numpy.ge_at less a j i.
Proof.
  unfold Numpy.less_at. intros H x y Hx Hy. rewrite Hy, Hx in H.
  apply asym. exact H.
Qed.

Lemma less_at_false (a : list A) (i j : nat) :
  Numpy.less_at less a i j = false -> Numpy.ge_at less a i j.
Proof.
  unfold Numpy.less_at. intros H x y Hx Hy. rewrite Hx, Hy in H. exact H.
Qed.

Lemma ge_at_trans (a : list A) (i j k : nat) :
  (1 <= j <= List.length a)%nat -> Numpy.ge_at less a i j -> Numpy.ge_at less a j k -> Numpy.ge_at less a i k.
Proof.
  intros V H1 H2 x z Hx Hz. destruct (get_some a j V) as [y Hy].
  eapply cotrans; [apply (H1 x y) | apply (H2 y z)]; assumption.
Qed.

Lemma larger_child_spec (a : list A) (j n : nat) :
  (2 * j <= n)%nat ->
  (Numpy.larger_child less a j n = 2 * j
   \/ Numpy.larger_child less a j n = 2 * j + 1)%nat
  /\ (Numpy.larger_child less a j n <= n)%nat
  /\ forall c, (c = 2 * j \/ c = 2 * j + 1)%nat -> (c <= n)%nat ->
       Numpy.ge_at less a (Numpy.larger_child less a j n) c.
Proof.
  intros H. unfold Numpy.larger_child. cbv zeta.
  destruct (Nat.ltb_spec (2 * j) n) as [L|L]; cbn [andb].
  - destruct (Numpy.less_at less a (2 * j) (S (2 * j))) eqn:E.
    + split; [right; lia|]. split; [lia|].
      intros c [-> | ->] Hc.
      * apply less_at_true. exact E.
      * replace (2 * j + 1)%nat with (S (2 * j)) by lia. apply ge_at_refl.
    + split; [left; reflexivity|]. split; [lia|].
      intros c [-> | ->] Hc.
      * apply ge_at_refl.
      * replace (2 * j + 1)%nat with (S (2 * j)) by lia. apply less_at_false. exact E.
  - split; [left; reflexivity|]. split; [lia|].
    intros c [-> | ->] Hc; [apply ge_at_refl | lia].
Qed.

Lemma sift_heap (lo n fuel : nat) :
  forall (a : list A) (j : nat),
    (n <= List.length a)%nat -> (1 <= lo <= j)%nat -> (j <= n)%nat ->
    (n < fuel + j)%nat ->
    (forall i, (lo <= i <= n)%nat -> i <> j -> Numpy.heap_at less a n i) ->
    (forall q c, (lo <= q)%nat -> (j = 2 * q \/ j = 2 * q + 1)%nat ->
                 (c = 2 * j \/ c = 2 * j + 1)%nat -> (c <= n)%nat -> Numpy.ge_at less a q c) ->
    (forall i, (lo <= i <= n)%nat -> Numpy.heap_at less (Numpy.sift less fuel a j n) n i)
    /\ List.length (Numpy.sift less fuel a j n) = List.length a
    /\ (forall i, (i < j \/ n < i)%nat ->
          Numpy.get (Numpy.sift less fuel a j n) i = Numpy.get a i)
    /\ (forall i x, (j <= i <= n)%nat ->
          Numpy.get (Numpy.sift less fuel a j n) i = Some x ->
          exists i', (j <= i' <= n)%nat /\ Numpy.get a i' = Some x).
Proof.
  induction fuel as [|fuel IH]; intros a j La Lo Jn F H P; [lia|].
  cbn [Numpy.sift].
  destruct (Nat.leb_spec (2 * j) n) as [K|K].
  - cbv zeta.
    destruct (larger_child_spec a j n K) as [Cc [Cn Cmax]].
    set (c := Numpy.larger_child less a j n) in *.
    destruct (Numpy.less_at less a j c) eqn:E.
    + destruct (get_some a j ltac:(lia)) as [x Hx].
      destruct (get_some a c ltac:(lia)) as [y Hy].
      assert (Lxy : less x y = true).
      { unfold Numpy.less_at in E. rewrite Hx, Hy in E. exact E. }
      pose proof (fun k => get_exchange a j c k x y Hx Hy) as G.
      set (a1 := Numpy.exchange a j c) in *.
      assert (L1 : List.length a1 = List.length a) by apply length_exchange.
      destruct (IH a1 c) as [R1 [R2 [R3 R4]]]; try lia.
      * (* the heap but for the child *)
        intros i Hi Nc. intros ch Hch Hn u v Hu Hv.
        rewrite G in Hu, Hv.
        destruct (Nat.eq_dec i j) as [->|Nj].
        -- (* the node that got the child's value *)
           replace (j =? c)%nat with false in Hu
             by (symmetry; apply Nat.eqb_neq; lia).
           rewrite Nat.eqb_refl in Hu. inversion Hu; subst u.
           destruct (Nat.eqb_spec ch c) as [->|Nch].
           ++ inversion Hv; subst v. apply asym. exact Lxy.
           ++ replace (ch =? j)%nat with false in Hv
                by (symmetry; apply Nat.eqb_neq; lia).
              apply (Cmax ch Hch Hn y v Hy Hv).
        -- replace (i =? c)%nat with false in Hu
             by (symmetry; apply Nat.eqb_neq; lia).
           replace (i =? j)%nat with false in Hu
             by (symmetry; apply Nat.eqb_neq; lia).
           replace (ch =? c)%nat with false in Hv
             by (symmetry; apply Nat.eqb_neq; lia).
           destruct (Nat.eqb_spec ch j) as [->|Nchj].
           ++ inversion Hv; subst v.
              apply (P i c ltac:(lia) ltac:(lia) Cc Cn u y Hu Hy).
           ++ apply (H i Hi Nj ch Hch Hn u v Hu Hv).
      * (* the parent of the child is the node *)
        intros q ch Hq Hc Hch Hn u v Hu Hv.
        assert (q = j) by lia. subst q.
        rewrite G in Hu, Hv.
        replace (j =? c)%nat with false in Hu
          by (symmetry; apply Nat.eqb_neq; lia).
        rewrite Nat.eqb_refl in Hu. inversion Hu; subst u.
        replace (ch =? c)%nat with false in Hv
          by (symmetry; apply Nat.eqb_neq; lia).
        replace (ch =? j)%nat with false in Hv
          by (symmetry; apply Nat.eqb_neq; lia).
        apply (H c ltac:(lia) ltac:(lia) ch Hch Hn y v Hy Hv).
      * split; [exact R1|]. split; [lia|]. split.
        -- intros i Hi. rewrite R3 by lia. rewrite G.
           replace (i =? c)%nat with false by (symmetry; apply Nat.eqb_neq; lia).
           replace (i =? j)%nat with false by (symmetry; apply Nat.eqb_neq; lia).
           reflexivity.
        -- intros i v Hi Hv.
           destruct (Nat.lt_ge_cases i c) as [Lt|Ge].
           ++ rewrite R3 in Hv by lia. rewrite G in Hv.
              replace (i =? c)%nat with false in Hv
                by (symmetry; apply Nat.eqb_neq; lia).
              destruct (Nat.eqb_spec i j) as [->|Nij].
              ** inversion Hv; subst v. exists c. split; [lia | exact Hy].
              ** exists i. split; [lia | exact Hv].
           ++ destruct (R4 i v ltac:(lia) Hv) as [i' [Hi' Hv']].
              rewrite G in Hv'.
              destruct (Nat.eqb_spec i' c) as [->|Nic].
              ** inversion Hv'; subst v. exists j. split; [lia | exact Hx].
              ** replace (i' =? j)%nat with false in Hv'
                   by (symmetry; apply Nat.eqb_neq; lia).
                 exists i'. split; [lia | exact Hv'].
    + split; [|split; [reflexivity|split; [reflexivity|]]].
      * intros i Hi. destruct (Nat.eq_dec i j) as [->|Nj]; [|apply H; assumption].
        intros ch Hch Hn.
        apply (ge_at_trans a j c ch); [lia | apply less_at_false; exact E|].
        apply Cmax; assumption.
      * intros i x Hi Hx. exists i. split; assumption.
  - split; [|split; [reflexivity|split; [reflexivity|]]].
    + intros i Hi. destruct (Nat.eq_dec i j) as [->|Nj]; [|apply H; assumption].
      intros ch Hch Hn. lia.
    + intros i x Hi Hx. exists i. split; assumption.
Qed.

Lemma build_heap (n : nat) :
  forall (i : nat) (a : list A),
    (n <= List.length a)%nat -> (i <= n)%nat ->
    (forall k, (i + 1 <= k <= n)%nat -> Numpy.heap_at less a n k) ->
    (forall k, (1 <= k <= n)%nat -> Numpy.heap_at less (Numpy.build less i a n) n k)
    /\ List.length (Numpy.build less i a n) = List.length a
    /\ (forall k, (n < k)%nat ->
          Numpy.get (Numpy.build less i a n) k = Numpy.get a k).
Proof.
  induction i as [|i IH]; intros a La Li H; cbn [Numpy.build].
  - split; [|split; reflexivity]. intros k Hk. apply H. lia.
  - destruct (sift_heap (S i) n n a (S i)) as [R1 [R2 [R3 _]]]; try lia.
    + intros k Hk Nk. apply H. lia.
    + destruct (IH (Numpy.sift less n a (S i) n)) as [Q1 [Q2 Q3]]; try lia.
      * intros k Hk. apply R1. lia.
      * split; [exact Q1|]. split; [lia|].
        intros k Hk. rewrite Q3 by exact Hk. apply R3. lia.
Qed.

(** The root of a heap is not less than any of its nodes. *)
Lemma heap_root_max (a : list A) (m : nat) :
  (m <= List.length a)%nat ->
  (forall k, (1 <= k <= m)%nat -> Numpy.heap_at less a m k) ->
  forall k, (1 <= k <= m)%nat -> Numpy.ge_at less a 1 k.
Proof.
  intros La H k. induction k as [k IH] using (well_founded_induction lt_wf).
  intros Hk. destruct (Nat.eq_dec k 1) as [->|N]; [apply ge_at_refl|].
  pose proof (Nat.div_mod_eq k 2) as D.
  pose proof (Nat.mod_upper_bound k 2 ltac:(lia)) as U.
  apply (ge_at_trans a 1 (k / 2) k); [lia | apply IH; lia|].
  apply (H (k / 2)); lia.
Qed.

Lemma extract_sorted :
  forall (m : nat) (a : list A),
    (m <= List.length a)%nat ->
    (forall k, (1 <= k <= m)%nat -> Numpy.heap_at less a m k) ->
    (forall i j, (m < i <= j)%nat -> Numpy.ge_at less a j i) ->
    (forall i j, (1 <= i <= m)%nat -> (m < j)%nat -> Numpy.ge_at less a j i) ->
    forall i j, (1 <= i <= j)%nat -> Numpy.ge_at less (Numpy.extract less m a) j i.
Proof.
  induction m as [|m IH]; intros a La H T C i j Hij.
  - cbn [Numpy.extract]. apply T. lia.
  - destruct m as [|m].
    + cbn [Numpy.extract].
      destruct (Nat.eq_dec i 1) as [->|N]; [|apply T; lia].
      destruct (Nat.eq_dec j 1) as [->|N']; [apply ge_at_refl | apply C; lia].
    + cbn [Numpy.extract].
      set (n := S (S m)) in *.
      pose proof (heap_root_max a n La H) as Max.
      destruct (get_some a 1 ltac:(lia)) as [x Hx].
      destruct (get_some a n ltac:(lia)) as [y Hy].
      pose proof (fun k => get_exchange a 1 n k x y Hx Hy) as G.
      set (a1 := Numpy.exchange a 1 n) in *.
      assert (L1 : List.length a1 = List.length a) by apply length_exchange.
      destruct (sift_heap 1 (S m) (S m) a1 1) as [R1 [R2 [R3 R4]]]; try lia.
      * intros k Hk Nk c Hc Hn u v Hu Hv. rewrite G in Hu, Hv.
        replace (k =? n)%nat with false in Hu by (symmetry; apply Nat.eqb_neq; lia).
        replace (k =? 1)%nat with false in Hu by (symmetry; apply Nat.eqb_neq; lia).
        replace (c =? n)%nat with false in Hv by (symmetry; apply Nat.eqb_neq; lia).
        replace (c =? 1)%nat with false in Hv by (symmetry; apply Nat.eqb_neq; lia).
        apply (H k ltac:(lia) c Hc ltac:(lia) u v Hu Hv).
      * set (a2 := Numpy.sift less (S m) a1 1 (S m)) in *.
        assert (From : forall k v, (1 <= k <= S m)%nat -> Numpy.get a2 k = Some v ->
                  exists k', (1 <= k' <= n)%nat /\ Numpy.get a k' = Some v).
        { intros k v Hk Hv. destruct (R4 k v Hk Hv) as [k' [Hk' Hv']].
          rewrite G in Hv'.
          replace (k' =? n)%nat with false in Hv'
            by (symmetry; apply Nat.eqb_neq; lia).
          destruct (Nat.eqb_spec k' 1) as [->|N1].
          - inversion Hv'; subst v. exists n. split; [lia | exact Hy].
          - exists k'. split; [lia | exact Hv']. }
        assert (Tail : forall k, (S m < k)%nat ->
                  Numpy.get a2 k = if (k =? n)%nat then Some x else Numpy.get a k).
        { intros k Hk. rewrite R3 by lia. rewrite G.
          destruct (Nat.eqb_spec k n); [reflexivity|].
          replace (k =? 1)%nat with false by (symmetry; apply Nat.eqb_neq; lia).
          reflexivity. }
        apply (IH a2); try lia.
        -- exact R1.
        -- intros i' j' Hij' u v Hu Hv. rewrite Tail in Hu, Hv by lia.
           destruct (Nat.eqb_spec i' n) as [->|Ni].
           ++ inversion Hv; subst v.
              destruct (Nat.eqb_spec j' n) as [->|Nj].
              ** inversion Hu; subst u. apply less_irrefl.
              ** apply (C 1 j' ltac:(lia) ltac:(lia) u x Hu Hx).
           ++ replace (j' =? n)%nat with false in Hu
                by (symmetry; apply Nat.eqb_neq; lia).
              apply (T i' j' ltac:(lia) u v Hu Hv).
        -- intros i' j' Hi' Hj' u v Hu Hv. rewrite Tail in Hu by lia.
           destruct (From i' v Hi' Hv) as [k' [Hk' Hv']].
           destruct (Nat.eqb_spec j' n) as [->|Nj].
           ++ inversion Hu; subst u. apply (Max k' Hk' x v Hx Hv').
           ++ apply (C k' j' Hk' ltac:(lia) u v Hu Hv').
Qed.

Lemma sorted_by_index (l : list A) :
  (forall i j, (1 <= i <= j)%nat -> Numpy.ge_at less l j i) ->
  StronglySorted (fun a b => less b a = false) l.
Proof.
  induction l as [|x l IH]; intros H; constructor.
  - apply IH. intros i j Hij u v Hu Hv.
    apply (H (S i) (S j) ltac:(lia) u v).
    + destruct j; [lia | exact Hu].
    + destruct i; [lia | exact Hv].
  - apply Forall_forall. intros y Hy. apply In_nth_error in Hy as [k Hk].
    apply (H 1%nat (S (S k)) ltac:(lia) y x); [exact Hk | reflexivity].
Qed.

Lemma heapsort_sorted (a : list A) :
  StronglySorted (fun x y => less y x = false) (Numpy.heapsort less a).
Proof.
  unfold Numpy.heapsort. set (n := List.length a).
  pose proof (Nat.div_mod_eq n 2) as D.
  pose proof (Nat.mod_upper_bound n 2 ltac:(lia)) as U.
  destruct (build_heap n (n / 2) a) as [R1 [R2 R3]]; try lia.
  - intros k Hk c Hc Hn. lia.
  - apply sorted_by_index. apply extract_sorted; try lia.
    + exact R1.
    + intros i j Hij u v Hu Hv. apply get_valid in Hu. lia.
    + intros i j Hi Hj u v Hu Hv. apply get_valid in Hu. lia.
Qed.

End HeapFacts.

Section QuicksortFacts.
Local Open Scope nat_scope.
Context {A : Type} (less : A -> A -> bool).

Lemma qsort_perm (fuel : nat) :
  forall (popped : bool) (depth : Z) (seg : list A),
    Permutation seg (Numpy.qsort less fuel popped depth seg).
Proof.
  induction fuel as [|fuel IH]; intros popped depth seg; cbn [Numpy.qsort];
    [reflexivity|].
  destruct (popped && (depth <? 0)%Z); [apply heapsort_perm|].
  destruct (Nat.ltb_spec 17 (List.length seg)) as [L|L]; [|apply insertion_perm].
  destruct (Numpy.partition less seg) as [[[l p] r]|] eqn:E; [|apply insertion_perm].
  eapply perm_trans; [apply (partition_perm less seg l r p); [lia | exact E]|].
  destruct (List.length l <? List.length r)%nat;
    (apply Permutation_app; [apply IH | apply perm_skip, IH]).
Qed.

Lemma quicksort_perm (l : list A) : Permutation l (Numpy.quicksort less l).
Proof. apply qsort_perm. Qed.


Hypothesis asym : forall a b, less a b = true -> less b a = false.
Hypothesis cotrans :
  forall a b c, less a b = false -> less b c = false -> less a c = false.

Lemma qsort_sorted (fuel : nat) :
  forall (popped : bool) (depth : Z) (seg : list A),
    (List.length seg < fuel)%nat ->
    StronglySorted (fun a b => less b a = false)
      (Numpy.qsort less fuel popped depth seg).
Proof.
  induction fuel as [|fuel IH]; intros popped depth seg F; [lia|].
  cbn [Numpy.qsort].
  destruct (popped && (depth <? 0)%Z); [apply heapsort_sorted; assumption|].
  destruct (Nat.ltb_spec 17 (List.length seg)) as [L|L];
    [|apply insertion_sorted; assumption].
  destruct (Numpy.partition less seg) as [[[l p] r]|] eqn:E;
    [|apply insertion_sorted; assumption].
  pose proof (partition_perm less seg l r p ltac:(lia) E) as P.
  destruct (partition_sides less asym seg l r p ltac:(lia) E) as [Fl Fr].
  apply Permutation_length in P. rewrite length_app in P. cbn [List.length] in P.
  assert (G : forall b1 b2,
             StronglySorted (fun a b => less b a = false)
               (Numpy.qsort less fuel b1 (depth - 1)%Z l
                ++ p :: Numpy.qsort less fuel b2 (depth - 1)%Z r)).
  { intros b1 b2.
    assert (Fl' : Forall (fun x => less p x = false)
                    (Numpy.qsort less fuel b1 (depth - 1)%Z l))
      by (eapply Permutation_Forall; [apply qsort_perm | exact Fl]).
    assert (Fr' : Forall (fun x => less x p = false)
                    (Numpy.qsort less fuel b2 (depth - 1)%Z r))
      by (eapply Permutation_Forall; [apply qsort_perm | exact Fr]).
    apply sorted_app.
    - apply IH. lia.
    - constructor; [apply IH; lia | exact Fr'].
    - intros x y Hx [<-|Hy].
      + rewrite Forall_forall in Fl'. apply Fl'. exact Hx.
      + rewrite Forall_forall in Fl', Fr'.
        apply (cotrans y p x); [apply Fr'; exact Hy | apply Fl'; exact Hx]. }
  destruct (List.length l <? List.length r)%nat; apply G.
Qed.

Lemma quicksort_sorted (l : list A) :
  StronglySorted (fun a b => less b a = false) (Numpy.quicksort less l).
Proof. apply qsort_sorted. lia. Qed.

End QuicksortFacts.

Section DefaultKind.
Import PandasLib.
Context {A : Type} (leb : A -> A -> bool).

Lemma numpy_sort_perm (l : list A) : Permutation l (Numpy.sort_values leb l).
Proof. apply quicksort_perm. Qed.

Lemma numpy_sort_sorted (l : list A) :
  total leb -> transitive leb ->
  StronglySorted (fun a b => leb a b = true) (Numpy.sort_values leb l).
Proof.
  intros T Tr. unfold Numpy.sort_values.
  assert (S : StronglySorted (fun a b => negb (leb a b) = false)
                (Numpy.quicksort (fun a b => negb (leb b a)) l)).
  { apply (quicksort_sorted (fun a b => negb (leb b a))).
    - intros a b H. apply negb_true_iff in H. apply negb_false_iff.
      destruct (T a b) as [E|E]; [exact E | congruence].
    - intros a b c H1 H2. apply negb_false_iff in H1, H2. apply negb_false_iff.
      eapply Tr; eauto. }
  revert S. generalize (Numpy.quicksort (fun a b => negb (leb b a)) l) as s.
  induction 1 as [|x s S IH F]; constructor; auto.
  eapply Forall_impl; [|exact F]. intros y Hy. apply negb_false_iff. exact Hy.
Qed.


End DefaultKind.

(** [sort_values] with the default sort kind. *)
Definition numpy_sorting : PandasLib.Sorting :=
  {| PandasLib.sort_values := @Numpy.sort_values;
     PandasLib.sort_values_perm := @numpy_sort_perm;
     PandasLib.sort_values_sorted := @numpy_sort_sorted |}.

(** ** The loader *)

Section LoaderFacts.
Import Calendar Float64 PandasLib Loader.
Context {parsers : Parsers} {sorting : Sorting}.

Lemma nth_error_combine {A B : Type} (l : list A) (m : list B) (i : nat)
    (x : A) (y : B) :
  nth_error (combine l m) i = Some (x, y) <->
  nth_error l i = Some x /\ nth_error m i = Some y.
Proof.
  revert m i; induction l as [|a l IH]; intros [|b m] [|i]; simpl;
    try (split; [discriminate | intros [H1 H2]; discriminate]).
  - split; [intros H; inversion H; auto | intros [H1 H2]; congruence].
  - apply IH.
Qed.

Lemma in_coerce (od : option Timestamp) (oa : option float64) (r : RawRow)
    (csv : list RawRow) :
  In (od, oa, r) (coerce csv) <->
  exists i, nth_error csv i = Some r
            /\ nth_error (to_datetime (map raw_date csv)) i = Some od
            /\ nth_error (to_numeric (map raw_amount csv)) i = Some oa.
Proof.
  unfold coerce. split.
  - intros H. apply In_nth_error in H as [i H].
    apply nth_error_combine in H as [H Hr].
    apply nth_error_combine in H as [Hd Ha]. eauto.
  - intros [i [Hr [Hd Ha]]]. apply (nth_error_In _ i).
    apply nth_error_combine. split; [|exact Hr].
    apply nth_error_combine. auto.
Qed.

Lemma length_coerce (csv : list RawRow) :
  List.length (coerce csv) = List.length csv.
Proof.
  unfold coerce.
  rewrite !length_combine, to_datetime_length, to_numeric_length, !length_map.
  lia.
Qed.

Lemma in_dropna (d : Timestamp) (a : float64) (r : RawRow)
    (cells : list (option Timestamp * option float64 * RawRow)) :
  In (d, a, r) (dropna cells) <-> In (Some d, Some a, r) cells.
Proof.
  unfold dropna. rewrite in_flat_map. split.
  - intros [[[[d'|] [a'|]] r'] [Hc Hin]]; simpl in Hin; try contradiction.
    destruct Hin as [Hin|[]]. inversion Hin; subst. exact Hc.
  - intros H. exists (Some d, Some a, r). split; [exact H | left; reflexivity].
Qed.

Lemma length_dropna (cells : list (option Timestamp * option float64 * RawRow)) :
  List.length (dropna cells) = List.length (List.filter parsed cells).
Proof.
  induction cells as [|[[[d|] [a|]] r] cells IH]; simpl; auto.
Qed.

Lemma in_load_data (t : Transaction) (csv : list RawRow) :
  In t (load_data csv) <-> In t (map derive (dropna (coerce csv))).
Proof.
  unfold load_data. split; intros H.
  - eapply Permutation_in; [apply Permutation_sym, sort_values_perm | exact H].
  - eapply Permutation_in; [apply sort_values_perm | exact H].
Qed.

End LoaderFacts.

(** ** The filter *)

Section FilterFacts.
Import Calendar PandasLib Loader Engine.

Lemma isin_iff (x : string) (values : list string) :
  isin x values = true <-> In x values.
Proof.
  unfold isin. rewrite existsb_exists. split.
  - intros [y [Hy E]]. apply String.eqb_eq in E. subst. exact Hy.
  - intros H. exists x. split; auto. apply String.eqb_refl.
Qed.

Lemma mask_iff (types : list string) (range : Date * Date) (t : Transaction) :
  mask types range t = true <->
  In (type t) types
  /\ date_leb (fst range) (ts_date (date t)) = true
  /\ date_leb (ts_date (date t)) (snd range) = true.
Proof.
  unfold mask. rewrite !andb_true_iff, isin_iff. tauto.
Qed.

Lemma date_leb_trans (a b c : Date) :
  date_leb a b = true -> date_leb b c = true -> date_leb a c = true.
Proof.
  rewrite !date_leb_iff. intros [->|H1] [<-|H2]; auto.
  right. eapply date_lt_trans; eauto.
Qed.

Lemma mask_empty_range (types : list string) (date_from date_to : Date)
    (t : Transaction) :
  date_leb date_from date_to = false -> mask types (date_from, date_to) t = false.
Proof.
  intros H. destruct (mask types (date_from, date_to) t) eqn:E; auto.
  apply mask_iff in E as [_ [H1 H2]]. simpl in *.
  rewrite (date_leb_trans _ _ _ H1 H2) in H. discriminate.
Qed.

Lemma sort_values_nil {sorting : Sorting} {A : Type} (leb : A -> A -> bool) :
  sort_values leb [] = [].
Proof.
  apply Permutation_nil. apply sort_values_perm.
Qed.

End FilterFacts.

(** ** Sorting by date and the cumulative column *)

Section CumulativeFacts.
Import Calendar Float64 PandasLib Loader Engine.

(** Two sorted arrangements of the same elements coincide when the order
    never ties two different elements. *)
Lemma sorted_perm_unique {A : Type} (R : A -> A -> Prop) (l1 l2 : list A) :
  (forall a b, In a l1 -> In b l1 -> R a b -> R b a -> a = b) ->
  StronglySorted R l1 -> StronglySorted R l2 -> Permutation l1 l2 -> l1 = l2.
Proof.
  revert l2. induction l1 as [|a t IH]; intros l2 Anti S1 S2 P.
  - apply Permutation_nil in P. congruence.
  - destruct l2 as [|b u].
    + apply Permutation_sym, Permutation_nil in P. discriminate.
    + assert (E : a = b).
      { inversion S1 as [|? ? _ Fa]; inversion S2 as [|? ? _ Fb]; subst.
        assert (Ia : In a (b :: u))
          by (eapply Permutation_in; [exact P | left; reflexivity]).
        assert (Ib : In b (a :: t))
          by (eapply Permutation_in;
              [apply Permutation_sym; exact P | left; reflexivity]).
        destruct Ia as [->|Ia]; auto. destruct Ib as [->|Ib]; auto.
        rewrite Forall_forall in Fa, Fb.
        apply Anti; auto; [left; reflexivity | right; exact Ib]. }
      subst b. f_equal. apply IH.
      * intros x y Hx Hy. apply Anti; right; auto.
      * inversion S1; auto.
      * inversion S2; auto.
      * eapply Permutation_cons_inv; eauto.
Qed.

Lemma NoDup_map_eq {A B : Type} (g : A -> B) (l : list A) (a b : A) :
  NoDup (map g l) -> In a l -> In b l -> g a = g b -> a = b.
Proof.
  induction l as [|x t IH]; simpl; intros N Ha Hb E; [contradiction|].
  inversion N as [|? ? Nx Nt]; subst.
  destruct Ha as [->|Ha], Hb as [->|Hb]; auto.
  - exfalso. apply Nx. rewrite E. apply in_map. exact Hb.
  - exfalso. apply Nx. rewrite <- E. apply in_map. exact Ha.
Qed.

Lemma ts_leb_antisym (a b : Timestamp) :
  ts_leb a b = true -> ts_leb b a = true -> a = b.
Proof.
  rewrite !ts_leb_iff. intros [E|L1] [E'|L2]; auto.
  exfalso. eapply ts_lt_irrefl. eapply ts_lt_trans; eauto.
Qed.

Lemma length_cumsum_from (acc : float64) (l : list float64) :
  List.length (cumsum_from acc l) = List.length l.
Proof.
  revert acc; induction l as [|x t IH]; intros acc; simpl; auto.
Qed.

Lemma length_cumsum (l : list float64) : List.length (cumsum l) = List.length l.
Proof.
  destruct l as [|x t]; simpl; [reflexivity|].
  rewrite length_cumsum_from. reflexivity.
Qed.

Lemma length_cumulative_column (f : list Transaction) :
  List.length (cumulative_column f) = List.length f.
Proof.
  unfold cumulative_column, zero_based.
  destruct (0 <? List.length f)%nat;
    rewrite ?length_map, length_cumsum, length_map; reflexivity.
Qed.



Context {sorting : Sorting}.

Lemma sort_by_date_perm (f : list Transaction) : Permutation f (sort_by_date f).
Proof. apply sort_values_perm. Qed.

Lemma sort_by_date_sorted (f : list Transaction) :
  StronglySorted (fun a b => by_date a b = true) (sort_by_date f).
Proof. apply sort_values_sorted; [apply by_date_total | apply by_date_trans]. Qed.



End CumulativeFacts.

(** ** The monthly view *)

Section MonthlyFacts.
Import Calendar PandasLib Loader Engine.

Lemma in_months_between (lo hi k : Z) :
  In k (months_between lo hi) <-> lo <= k <= hi.
Proof.
  unfold months_between. rewrite in_map_iff. split.
  - intros [i [<- Hi]]. apply in_seq in Hi. lia.
  - intros H. exists (Z.to_nat (k - lo)). split; [lia|].
    apply in_seq. lia.
Qed.

Lemma months_between_sorted (lo hi : Z) :
  StronglySorted Z.lt (months_between lo hi).
Proof.
  unfold months_between.
  generalize (Z.to_nat (hi - lo + 1)) as n. generalize 0%nat as s.
  intros s n; revert s. induction n as [|n IH]; intros s; simpl.
  - constructor.
  - constructor; [apply IH|].
    apply Forall_forall. intros k Hk.
    apply in_map_iff in Hk as [i [<- Hi]]. apply in_seq in Hi. lia.
Qed.

Lemma fold_min_spec (k : Z) (ks : list Z) :
  In (fold_right Z.min k ks) (k :: ks)
  /\ forall x, In x (k :: ks) -> fold_right Z.min k ks <= x.
Proof.
  induction ks as [|y ks [IH1 IH2]]; simpl.
  - split; [auto|]. intros x [<-|[]]. lia.
  - split.
    + destruct (Z.min_spec y (fold_right Z.min k ks)) as [[_ ->]|[_ ->]]; auto.
      destruct IH1 as [IH1|IH1]; auto.
    + intros x [<-|[<-|Hx]].
      * specialize (IH2 k (or_introl eq_refl)). lia.
      * lia.
      * specialize (IH2 x (or_intror Hx)). lia.
Qed.

Lemma fold_max_spec (k : Z) (ks : list Z) :
  In (fold_right Z.max k ks) (k :: ks)
  /\ forall x, In x (k :: ks) -> x <= fold_right Z.max k ks.
Proof.
  induction ks as [|y ks [IH1 IH2]]; simpl.
  - split; [auto|]. intros x [<-|[]]. lia.
  - split.
    + destruct (Z.max_spec y (fold_right Z.max k ks)) as [[_ ->]|[_ ->]]; auto.
      destruct IH1 as [IH1|IH1]; auto.
    + intros x [<-|[<-|Hx]].
      * specialize (IH2 k (or_introl eq_refl)). lia.
      * lia.
      * specialize (IH2 x (or_intror Hx)). lia.
Qed.

Lemma month_start_lt (j k : Z) : j < k -> ts_lt (month_start j) (month_start k).
Proof.
  intros H. unfold ts_lt, date_lt, month_start; simpl. left.
  pose proof (Z.div_mod j 12 ltac:(lia)).
  pose proof (Z.div_mod k 12 ltac:(lia)).
  pose proof (Z.mod_pos_bound j 12 ltac:(lia)).
  pose proof (Z.mod_pos_bound k 12 ltac:(lia)).
  lia.
Qed.

Lemma month_start_of_index (t : Timestamp) :
  1 <= month (ts_date t) <= 12 ->
  month_start (month_index t)
  = mkTimestamp (mkDate (year (ts_date t)) (month (ts_date t)) 1) 0.
Proof.
  intros H. unfold month_start, month_index.
  replace (year (ts_date t) * 12 + (month (ts_date t) - 1))
    with ((month (ts_date t) - 1) + year (ts_date t) * 12) by lia.
  rewrite Z.div_add, Z.mod_add by lia.
  rewrite Z.div_small, Z.mod_small by lia.
  f_equal. f_equal; lia.
Qed.

Lemma month_sum_empty {reductions : Reductions} (k : Z) (f : list Transaction) :
  (forall t, In t f -> month_index (date t) <> k) ->
  month_sum k f = Float64.zero.
Proof.
  intros H. unfold month_sum.
  assert (E : List.filter (in_month k) f = []).
  { induction f as [|t f IH]; simpl; auto.
    unfold in_month at 1.
    destruct (Z.eqb_spec (month_index (date t)) k) as [E|_].
    - exfalso. apply (H t); [left; reflexivity | exact E].
    - apply IH. intros u Hu. apply H. right. exact Hu. }
  rewrite E. apply group_sum_nil.
Qed.

End MonthlyFacts.

(** ** Sums per category *)

Section GroupFacts.
Import Engine.
Context {K : Type} (cmp : K -> K -> comparison).
Hypothesis cmp_eq : forall a b, cmp a b = Eq <-> a = b.
Hypothesis cmp_lt_trans :
  forall a b c, cmp a b = Lt -> cmp b c = Lt -> cmp a c = Lt.
Hypothesis cmp_antisym : forall a b, cmp b a = CompOpp (cmp a b).

Lemma in_insert_key (k x : K) (keys : list K) :
  In x (insert_key cmp k keys) <-> x = k \/ In x keys.
Proof.
  induction keys as [|h t IH]; simpl.
  - intuition.
  - destruct (cmp k h) eqn:E; simpl.
    + apply cmp_eq in E. subst h. intuition.
    + intuition.
    + rewrite IH. intuition.
Qed.

Lemma insert_key_sorted (k : K) (keys : list K) :
  StronglySorted (fun a b => cmp a b = Lt) keys ->
  StronglySorted (fun a b => cmp a b = Lt) (insert_key cmp k keys).
Proof.
  induction 1 as [|h t S IH F]; simpl.
  - repeat constructor.
  - destruct (cmp k h) eqn:E.
    + constructor; auto.
    + constructor; [constructor; auto|].
      constructor; auto.
      eapply Forall_impl; [|exact F]. intros z Hz. eapply cmp_lt_trans; eauto.
    + constructor; auto.
      apply Forall_forall. intros z Hz. apply in_insert_key in Hz as [->|Hz].
      * rewrite cmp_antisym, E. reflexivity.
      * rewrite Forall_forall in F. auto.
Qed.

Lemma in_group_keys (x : K) (keys : list K) :
  In x (group_keys cmp keys) <-> In x keys.
Proof.
  unfold group_keys. induction keys as [|k t IH]; simpl.
  - tauto.
  - rewrite in_insert_key, IH. intuition.
Qed.

Lemma group_keys_sorted (keys : list K) :
  StronglySorted (fun a b => cmp a b = Lt) (group_keys cmp keys).
Proof.
  unfold group_keys. induction keys as [|k t IH]; simpl.
  - constructor.
  - apply insert_key_sorted. exact IH.
Qed.



End GroupFacts.

Section CategoryFacts.
Import Calendar PandasLib Loader Engine.

Lemma string_compare_refl (s : string) : String.compare s s = Eq.
Proof.
  induction s as [|c s IH]; simpl; auto.
  unfold Ascii.compare. rewrite N.compare_refl. exact IH.
Qed.

Lemma string_compare_eq (a b : string) : String.compare a b = Eq <-> a = b.
Proof.
  split; [apply String.compare_eq_iff | intros ->; apply string_compare_refl].
Qed.

Lemma string_compare_lt_trans (a b c : string) :
  String.compare a b = Lt -> String.compare b c = Lt -> String.compare a c = Lt.
Proof.
  revert b c; induction a as [|x a IH]; intros [|y b] [|z c]; simpl;
    try discriminate; auto.
  unfold Ascii.compare.
  destruct (N.compare_spec (N_of_ascii x) (N_of_ascii y));
    destruct (N.compare_spec (N_of_ascii y) (N_of_ascii z));
    destruct (N.compare_spec (N_of_ascii x) (N_of_ascii z));
    try discriminate; try lia; eauto.
Qed.

Lemma string_compare_antisym (a b : string) :
  String.compare b a = CompOpp (String.compare a b).
Proof. apply String.compare_antisym. Qed.



Lemma StronglySorted_weaken {A : Type} (R Q : A -> A -> Prop) (l : list A) :
  (forall a b, R a b -> Q a b) -> StronglySorted R l -> StronglySorted Q l.
Proof.
  intros W. induction 1 as [|h t S IH F]; constructor; auto.
  eapply Forall_impl; [|exact F]. auto.
Qed.

Lemma groupby_keys {reductions : Reductions} {K : Type}
    (cmp : K -> K -> comparison)
    (key : Transaction -> K) (val : Transaction -> Float64.float64)
    (f : list Transaction) :
  map fst (groupby_sum cmp key val f) = group_keys cmp (map key f).
Proof.
  unfold groupby_sum. rewrite map_map. simpl. apply map_id.
Qed.

End CategoryFacts.

(** ** The script on the store *)

Section ScriptFacts.
Import Calendar Float64 PandasLib Loader Engine Script.

Lemma nth_error_snoc {A : Type} (h : list A) (f : A) :
  nth_error (h ++ [f]) (List.length h) = Some f.
Proof.
  rewrite nth_error_app2 by lia. rewrite Nat.sub_diag. reflexivity.
Qed.

Lemma nth_error_keep {A : Type} (h l : list A) (r : nat) (f : A) :
  nth_error h r = Some f -> nth_error (h ++ l) r = Some f.
Proof.
  intros H. rewrite nth_error_app1; auto.
  apply nth_error_Some. congruence.
Qed.

Lemma nth_error_fourth {A : Type} (h : list A) (a b c d : A) :
  nth_error (h ++ [a; b; c; d]) (S (S (S (List.length h)))) = Some d.
Proof.
  rewrite nth_error_app2 by lia.
  replace (S (S (S (List.length h))) - List.length h)%nat with 3%nat by lia.
  reflexivity.
Qed.

Lemma update_snoc (h : Heap) (f g : DataFrame) :
  update (List.length h) g (h ++ [f]) = h ++ [g].
Proof.
  induction h as [|x h IH]; simpl; auto. rewrite IH. reflexivity.
Qed.

Lemma length_assign_cumulative (f : DataFrame) (c : list float64) :
  List.length c = List.length f ->
  List.length (assign_cumulative f c) = List.length f.
Proof.
  intros H. unfold assign_cumulative.
  rewrite length_map, length_combine, H. apply Nat.min_id.
Qed.

Lemma column_values_assign (f : DataFrame) (c : list float64) :
  List.length c = List.length f ->
  column_values (assign_cumulative f c) = Some c.
Proof.
  revert c; induction f as [|t f IH]; intros [|x c] H; simpl in *;
    try discriminate; auto.
  unfold assign_cumulative in IH. rewrite IH by congruence. reflexivity.
Qed.

Lemma assign_cumulative_twice (f : DataFrame) (c c' : list float64) :
  List.length c = List.length f ->
  assign_cumulative (assign_cumulative f c) c' = assign_cumulative f c'.
Proof.
  revert c c'; induction f as [|t f IH]; intros [|x c] [|y c'] H; simpl in *;
    try discriminate; auto.
  unfold assign_cumulative in *. simpl. f_equal. apply IH. congruence.
Qed.

Context {sorting : Sorting} {reductions : Reductions}.

(** What one run does to the heap: four new frames after the objects that
    were there, the last of them the frame [filtered]. *)
Lemma apply_filters_run (h : Heap) (df : ref) (table : DataFrame)
    (types : list string) (range : Date * Date) :
  nth_error h df = Some table ->
  apply_filters df types range h
  = Some (S (S (S (List.length h))),
          h ++ [filter_frame types range table;
                filter_frame types range table;
                sort_by_date (filter_frame types range table);
                filtered types range table]).
Proof.
  intros H.
  set (F := filter_frame types range table).
  set (s := sort_by_date F).
  set (c := cumsum (map signed_amount s)).
  assert (Lc : List.length c = List.length s).
  { unfold c. rewrite length_cumsum, length_map. reflexivity. }
  assert (R : forall k : ref -> M ref,
            (masked <- getitem_mask df (mask types range) ;;
             filtered <- copy masked ;;
             sorted <- sort_values_date filtered ;;
             filtered <- reset_index sorted ;;
             k filtered) h
            = k (S (S (S (List.length h)))) (h ++ [F; F; s; s])).
  { intros k. unfold bind, getitem_mask, copy, sort_values_date, reset_index,
      load, alloc, bind.
    rewrite H. fold (filter_frame types range table). fold F.
    rewrite nth_error_snoc. rewrite nth_error_snoc.
    fold (sort_by_date F). fold s. rewrite nth_error_snoc.
    rewrite !length_app. simpl. rewrite <- !app_assoc. simpl.
    replace (List.length h + 1 + 1 + 1)%nat with (S (S (S (List.length h)))) by lia.
    reflexivity. }
  unfold apply_filters. rewrite R. clear R.
  assert (N : forall g, nth_error (h ++ [F; F; s; g]) (S (S (S (List.length h)))) = Some g).
  { intros g. apply nth_error_fourth. }
  assert (U : forall g g',
            update (S (S (S (List.length h)))) g' (h ++ [F; F; s; g])
            = h ++ [F; F; s; g']).
  { intros g g'.
    change (h ++ [F; F; s; g]) with (h ++ [F; F; s] ++ [g]).
    change (h ++ [F; F; s; g']) with (h ++ [F; F; s] ++ [g']).
    rewrite !app_assoc.
    replace (S (S (S (List.length h)))) with (List.length (h ++ [F; F; s]))
      by (rewrite length_app; simpl; lia).
    apply update_snoc. }
  unfold bind, cumsum_signed, setitem_cumulative, len, load, store, ret, bind.
  rewrite N. fold c.
  repeat first [rewrite N | rewrite U | progress cbv beta iota].
  rewrite length_assign_cumulative by exact Lc.
  unfold filtered. fold F. fold s. unfold cumulative_column. fold c.
  destruct (0 <? List.length s)%nat eqn:E.
  - unfold getitem_cumulative, iloc0. rewrite N.
    rewrite column_values_assign by exact Lc.
    destruct c as [|c0 c'] eqn:Ec.
    + apply Nat.ltb_lt in E. simpl in Lc. lia.
    + repeat first [rewrite N | rewrite U | progress cbv beta iota].
      rewrite assign_cumulative_twice by exact Lc.
      reflexivity.
  - reflexivity.
Qed.

Lemma rerun_run (h : Heap) (df : ref) (table : DataFrame)
    (types : list string) (range : Date * Date) :
  nth_error h df = Some table ->
  rerun df types range h
  = Some ((S (S (S (List.length h))), views_of (filtered types range table)),
          h ++ [filter_frame types range table;
                filter_frame types range table;
                sort_by_date (filter_frame types range table);
                filtered types range table]).
Proof.
  intros H. unfold rerun, bind. rewrite (apply_filters_run _ _ _ _ _ H).
  unfold views, bind, load, ret.
  rewrite nth_error_fourth. reflexivity.
Qed.

End ScriptFacts.

(** ** Rows with equal keys *)

Section EqualKeys.
Import Calendar Float64 PandasLib Loader Engine.

Lemma filter_sorted {A : Type} (R : A -> A -> Prop) (p : A -> bool) (l : list A) :
  StronglySorted R l -> StronglySorted R (List.filter p l).
Proof.
  induction 1 as [|x l S IH F]; simpl; [constructor|].
  destruct (p x); auto. constructor; auto.
  apply Forall_forall. intros y Hy. apply filter_In in Hy as [Hy _].
  rewrite Forall_forall in F. auto.
Qed.


Lemma sorted_by_fst {A B : Type} (R : A -> A -> Prop) (l : list (A * B)) :
  StronglySorted R (map fst l) ->
  StronglySorted (fun a b => R (fst a) (fst b)) l.
Proof.
  induction l as [|x l IH]; simpl; intros H; constructor;
    inversion H as [|? ? S F]; subst; auto.
  apply Forall_forall. intros y Hy. rewrite Forall_forall in F.
  apply F. apply in_map. exact Hy.
Qed.

Lemma dated_same (d : Timestamp) (x y : Transaction) :
  dated d x = true -> dated d y = true -> by_date x y = true.
Proof.
  unfold dated, by_date. intros Hx Hy.
  destruct (ts_compare_spec (date x) d) as [Ex|_|_]; try discriminate.
  destruct (ts_compare_spec (date y) d) as [Ey|_|_]; try discriminate.
  apply ts_leb_iff. left. congruence.
Qed.

(** With a stable sort the transactions of one date keep their input order. *)
Lemma stable_kind_keeps_equal_dates (d : Timestamp) (f : list Transaction) :
  List.filter (dated d) (@sort_by_date stable_sorting f) = List.filter (dated d) f.
Proof.
  unfold sort_by_date. simpl. apply insertion_sort_stable.
  intros x y. apply dated_same.
Qed.



Lemma by_sum_then_name_not_less (a b : string * float64) :
  by_sum_then_name a b = true -> less (snd b) (snd a) = false.
Proof.
  unfold by_sum_then_name. intros H.
  apply orb_true_iff in H as [H|H]; [apply less_asym; exact H|].
  apply andb_true_iff in H as [H _]. apply negb_true_iff. exact H.
Qed.

Lemma by_sum_then_name_tie (a b : string * float64) :
  less (snd b) (snd a) = false -> String.compare (fst a) (fst b) = Lt ->
  by_sum_then_name a b = true.
Proof.
  intros H L. unfold by_sum_then_name, String.leb. rewrite H, L. simpl.
  apply orb_true_r.
Qed.



Context {reductions : Reductions}.

Lemma groupby_sorted_keys (ty : string) (f : list Transaction) :
  StronglySorted (fun a b => String.compare (fst a) (fst b) = Lt)
    (groupby_sum String.compare Category amount (of_type ty f)).
Proof.
  apply (sorted_by_fst (fun a b => String.compare a b = Lt)).
  rewrite groupby_keys.
  apply (group_keys_sorted String.compare string_compare_eq
           string_compare_lt_trans string_compare_antisym).
Qed.

(** The entries without a sum follow the others, in the order of their
    names. *)
Lemma sort_sums_tail (ordered l : list (string * float64)) :
  StronglySorted (fun a b => String.compare (fst a) (fst b) = Lt) l ->
  Permutation (List.filter has_sum l) ordered ->
  StronglySorted (fun a b => by_sum_then_name a b = true) ordered ->
  StronglySorted (fun a b => by_sum_then_name a b = true)
    (ordered ++ List.filter lacks_sum l).
Proof.
  intros S P So. apply sorted_app; [exact So| |].
  - generalize (filter_sorted _ lacks_sum l S).
    assert (N : Forall (fun x => lacks_sum x = true) (List.filter lacks_sum l)).
    { apply Forall_forall. intros x Hx. apply filter_In in Hx as [_ Hx]. exact Hx. }
    revert N. generalize (List.filter lacks_sum l) as m.
    induction m as [|a m IH]; intros N Sm; constructor.
    + inversion N; inversion Sm; subst. apply IH; assumption.
    + inversion N as [|? ? Na Nm]; inversion Sm as [|? ? Sm' Fm]; subst.
      rewrite Forall_forall in *. intros b Hb.
      apply by_sum_then_name_tie; [|apply Fm; exact Hb].
      apply nan_not_less. apply Nm. exact Hb.
  - intros x y Hx Hy.
    apply (Permutation_in _ (Permutation_sym P)) in Hx.
    apply filter_In in Hx as [_ Hx]. apply filter_In in Hy as [_ Hy].
    unfold has_sum in Hx. unfold lacks_sum in Hy.
    apply negb_true_iff in Hx.
    unfold by_sum_then_name. rewrite (is_nan_eq _ Hy), (less_nan _ Hx).
    reflexivity.
Qed.


(** With a stable sort they come in that order whatever their number. *)
Lemma stable_kind_orders_equal_sums_by_name (ty : string) (f : list Transaction) :
  StronglySorted (fun a b => by_sum_then_name a b = true)
    (@group_by_category stable_sorting reductions ty f).
Proof.
  unfold group_by_category, sort_sums. cbn [sort_values stable_sorting].
  set (g := groupby_sum String.compare Category amount (of_type ty f)).
  pose proof (groupby_sorted_keys ty f) as S. fold g in S.
  apply (sort_sums_tail _ g S); [apply insertion_sort_perm|].
  generalize (filter_sorted _ has_sum g S).
  generalize (List.filter has_sum g) as l.
  induction l as [|x l IH]; intros Sl; simpl; [constructor|].
  inversion Sl as [|? ? Sl' F]; subst.
  assert (N : Forall (fun y => String.compare (fst x) (fst y) = Lt)
                (insertion_sort by_sum l))
    by (eapply Permutation_Forall; [apply insertion_sort_perm | exact F]).
  specialize (IH Sl'). revert N IH.
  generalize (insertion_sort by_sum l) as u.
  induction u as [|y u IHu]; intros N Su; simpl.
  - repeat constructor.
  - inversion N as [|? ? Ny Nu]; inversion Su as [|? ? Su' Fu]; subst.
    unfold by_sum at 1. destruct (less (snd y) (snd x)) eqn:E; simpl.
    + constructor; [apply IHu; assumption|].
      eapply Permutation_Forall; [apply insert_perm|].
      constructor; [|exact Fu].
      unfold by_sum_then_name. rewrite E. reflexivity.
    + constructor; [constructor; assumption|].
      constructor; [apply by_sum_then_name_tie; assumption|].
      rewrite Forall_forall in *. intros b Hb.
      apply by_sum_then_name_tie; [|apply Nu; exact Hb].
      apply (less_cotrans _ (snd y)); [|exact E].
      apply by_sum_then_name_not_less. apply Fu. exact Hb.
Qed.

End EqualKeys.

(** ** The sums per category of a loaded table *)

Section CategoryOrder.
Import Calendar Float64 PandasLib Loader Engine.
Context {reductions : Reductions}.

Lemma has_or_lacks_sum (l : list (string * float64)) :
  Permutation l (List.filter has_sum l ++ List.filter lacks_sum l).
Proof.
  induction l as [|x l IH]; simpl; [constructor|].
  unfold has_sum at 1, lacks_sum at 1. destruct (is_nan (snd x)); simpl.
  - apply Permutation_cons_app. exact IH.
  - constructor. exact IH.
Qed.

Lemma sort_sums_perm {sorting : Sorting} (l : list (string * float64)) :
  Permutation l (sort_sums l).
Proof.
  unfold sort_sums. eapply perm_trans; [apply has_or_lacks_sum|].
  apply Permutation_app_tail. apply sort_values_perm.
Qed.







End CategoryOrder.

(** ** The scenario of the specification, computed *)

Section Scenario.
Import Calendar Float64 PandasLib Loader Engine Samples.

Example normalize_shop_line :
  Text.normalize "  TESCO_Stores--London  #42 " = "tesco stores london 42".
Proof. vm_compute. reflexivity. Qed.

Example normalize_missing_cell :
  Text.normalize (Text.astype_str None) = "nan".
Proof. vm_compute. reflexivity. Qed.

(** The dot of 'booking.com' is a wildcard of the pattern: the normalised
    description, in which a space has replaced the dot, is found. *)
Example categorize_booking :
  categorize categories (Text.normalize "BOOKING.COM Amsterdam") = "Travel".
Proof. vm_compute. reflexivity. Qed.

Example load_scenario :
  @load_data sample_parsers numpy_sorting scenario_csv = scenario_table.
Proof. vm_compute. reflexivity. Qed.

Example load_dirty :
  @load_data sample_parsers numpy_sorting dirty_csv = scenario_table.
Proof. vm_compute. reflexivity. Qed.

Example scenario_categories :
  map Category scenario_table = ["Salary"; "Groceries"; "Salary"].
Proof. vm_compute. reflexivity. Qed.

Example scenario_totals :
  @income sample_reductions scenario_table = of_Z 200
  /\ @expense sample_reductions scenario_table = of_Z 20
  /\ @net sample_reductions scenario_table = of_Z 180
  /\ List.length scenario_table = 3%nat.
Proof. repeat split; vm_compute; reflexivity. Qed.

Example scenario_cumulative :
  @cumulative_net_worth numpy_sorting scenario_table
  = [(day_of 2024 1 1, zero); (day_of 2024 1 5, of_Z (-20));
     (day_of 2024 2 1, of_Z 80)].
Proof. vm_compute. reflexivity. Qed.

Example scenario_monthly :
  @monthly sample_reductions scenario_table
  = [(day_of 2024 1 1, of_Z 80); (day_of 2024 2 1, of_Z 100)].
Proof. vm_compute. reflexivity. Qed.

Example scenario_spending :
  @spending numpy_sorting sample_reductions scenario_table
  = [("Groceries", of_Z 20)]
  /\ @income_cat numpy_sorting sample_reductions scenario_table
     = [("Salary", of_Z 200)].
Proof. split; vm_compute; reflexivity. Qed.

(** The default kind on two and on three rows with equal keys: the rows
    stay in place. *)
Example same_day_in_place :
  @sort_by_date numpy_sorting same_day = same_day.
Proof. vm_compute. reflexivity. Qed.

Example equal_totals_by_name :
  @spending numpy_sorting sample_reductions equal_totals
  = [("Entertainment", of_Z 10); ("Groceries", of_Z 10); ("Transport", of_Z 10)].
Proof. vm_compute. reflexivity. Qed.

(** Sums of floats are rounded: 0.1 + 0.2 + 0.3 taken from the left is not
    0.1 + (0.2 + 0.3). *)
Example float_sums_are_rounded :
  let tenth := SFdiv prec emax (of_Z 1) (of_Z 10) in
  let fifth := SFdiv prec emax (of_Z 2) (of_Z 10) in
  let third := SFdiv prec emax (of_Z 3) (of_Z 10) in
  add (add tenth fifth) third <> add tenth (add fifth third).
Proof. vm_compute. discriminate. Qed.

End Scenario.

(* ================================================================== *)
(** * Part III: the properties of the specification *)
(* ================================================================== *)

(** C1, as the code has it.  The categoriser tries every category of the
    table in the order of its declaration and never stops early: the label is
    the one of the last category whose pattern is found in the description,
    and 'Other' when none is found.  With the configured table a description
    that only says 'boots' is labelled Health, the later of the two categories
    that list 'boots'. *)
Theorem categorize_last_match (table : list (string * list string)) (desc : string) :
  Loader.categorize table desc = Loader.first_match (rev table) desc
  /\ (forall before rule after,
        table = before ++ rule :: after ->
        Text.contains (snd rule) desc = true ->
        existsb (fun r => Text.contains (snd r) desc) after = false ->
        Loader.categorize table desc = fst rule)
  /\ (existsb (fun r => Text.contains (snd r) desc) table = false ->
      Loader.categorize table desc = "Other")
  /\ Loader.categorize Loader.categories "boots" = "Health".
Proof.
  assert (E : Loader.categorize table desc = Loader.first_match (rev table) desc).
  { unfold Loader.categorize. rewrite categorize_from.
    destruct (existsb _ table) eqn:X; auto.
    symmetry. apply first_match_none.
    rewrite existsb_rev. exact X. }
  split; [exact E|]. split; [|split].
  - intros before rule after -> Hm Ha. rewrite E, rev_app_distr. simpl.
    rewrite <- app_assoc. simpl.
    assert (G : forall l rest,
               existsb (fun r => Text.contains (snd r) desc) l = false ->
               Loader.first_match (l ++ rest) desc = Loader.first_match rest desc).
    { induction l as [|r l IH]; intros rest H; simpl in *; auto.
      apply orb_false_elim in H as [H1 H2]. rewrite H1. auto. }
    rewrite G by (rewrite existsb_rev; exact Ha).
    simpl. rewrite Hm. reflexivity.
  - intros H. rewrite E. apply first_match_none. rewrite existsb_rev. exact H.
  - vm_compute. reflexivity.
Qed.

(** C1 as stated fails: on the description 'boots' the first category of the
    table that lists the keyword is Shopping, and the code answers Health. *)
Lemma categorize_not_first_match :
  Loader.first_match Loader.categories "boots" = "Shopping"
  /\ Loader.categorize Loader.categories "boots" = "Health"
  /\ Loader.categorize Loader.categories "boots"
     <> Loader.first_match Loader.categories "boots".
Proof.
  repeat split; vm_compute; congruence.
Qed.

(** C2, as the code has it.  The monthly view has one entry for every
    calendar month from the month of the earliest transaction of the filtered
    set to the month of the latest one, in ascending order, labelled with the
    first day of the month and holding the sum of the signed amounts of the
    transactions of that month: a month of that span without any transaction
    is emitted too, with the sum 0.  The empty set gives no entry. *)
Theorem monthly_covers_every_month_of_the_span
    {reductions : PandasLib.Reductions} (f : list Loader.Transaction) :
  (forall d v, In (d, v) (Engine.monthly f) <->
     exists k a b,
       In a f /\ In b f
       /\ Calendar.month_index (Loader.date a) <= k <= Calendar.month_index (Loader.date b)
       /\ d = Calendar.month_start k /\ v = Engine.month_sum k f)
  /\ StronglySorted (fun x y => Calendar.ts_lt (fst x) (fst y)) (Engine.monthly f)
  /\ (forall k, (forall t, In t f -> Calendar.month_index (Loader.date t) <> k) ->
        Engine.month_sum k f = Float64.zero)
  /\ (forall t, In t f ->
        1 <= Calendar.month (Calendar.ts_date (Loader.date t)) <= 12 ->
        In (Calendar.mkTimestamp
              (Calendar.mkDate (Calendar.year (Calendar.ts_date (Loader.date t)))
                 (Calendar.month (Calendar.ts_date (Loader.date t))) 1) 0,
            Engine.month_sum (Calendar.month_index (Loader.date t)) f)
           (Engine.monthly f))
  /\ Engine.monthly [] = [].
Proof.
  assert (M : forall d v, In (d, v) (Engine.monthly f) <->
     exists k a b,
       In a f /\ In b f
       /\ Calendar.month_index (Loader.date a) <= k <= Calendar.month_index (Loader.date b)
       /\ d = Calendar.month_start k /\ v = Engine.month_sum k f).
  { intros d v. unfold Engine.monthly.
    destruct f as [|t0 f0].
    - simpl. split; [contradiction|]. intros [k [a [b [[] _]]]].
    - cbn [map].
      set (k0 := Calendar.month_index (Loader.date t0)).
      set (ks := map (fun t => Calendar.month_index (Loader.date t)) f0).
      destruct (fold_min_spec k0 ks) as [Imin Lmin].
      destruct (fold_max_spec k0 ks) as [Imax Lmax].
      assert (K : forall x, In x (k0 :: ks) <->
                    exists t, In t (t0 :: f0)
                              /\ Calendar.month_index (Loader.date t) = x).
      { intros x.
        change (k0 :: ks)
          with (map (fun t => Calendar.month_index (Loader.date t)) (t0 :: f0)).
        rewrite in_map_iff. split; intros [t [H1 H2]]; exists t; auto. }
      rewrite in_map_iff. split.
      + intros [k [E Hk]]. inversion E; subst d v. clear E.
        apply in_months_between in Hk.
        apply K in Imin as [a [Ha Ea]]. apply K in Imax as [b [Hb Eb]].
        exists k, a, b. rewrite Ea, Eb. auto.
      + intros [k [a [b [Ha [Hb [Hk [-> ->]]]]]]].
        exists k. split; [reflexivity|]. apply in_months_between.
        assert (In (Calendar.month_index (Loader.date a)) (k0 :: ks))
          by (apply K; eauto).
        assert (In (Calendar.month_index (Loader.date b)) (k0 :: ks))
          by (apply K; eauto).
        specialize (Lmin _ H). specialize (Lmax _ H0). lia. }
  split; [exact M|]. split; [|split; [|split]].
  - unfold Engine.monthly.
    destruct (map (fun t => Calendar.month_index (Loader.date t)) f) as [|k ks];
      [constructor|].
    generalize (months_between_sorted (fold_right Z.min k ks) (fold_right Z.max k ks)).
    generalize (Engine.months_between (fold_right Z.min k ks) (fold_right Z.max k ks)).
    induction 1 as [|m ms S IH F]; simpl; constructor; auto.
    apply Forall_forall. intros x Hx.
    apply in_map_iff in Hx as [j [<- Hj]]. simpl.
    apply month_start_lt. rewrite Forall_forall in F. auto.
  - intros k H. apply month_sum_empty. exact H.
  - intros t Ht Hm. rewrite <- month_start_of_index by exact Hm.
    apply M. exists (Calendar.month_index (Loader.date t)), t, t.
    repeat split; auto; lia.
  - reflexivity.
Qed.

(** C2 as stated fails: [Samples.with_gap] has a transaction in January
    and one in March 2024 and none in February, and the monthly view holds an
    entry for February, with the sum 0, however pandas adds the amounts of a
    month up. *)
Lemma monthly_synthesizes_gap_months :
  (forall reductions : PandasLib.Reductions,
     @Engine.monthly reductions Samples.with_gap
     = [ (Samples.day_of 2024 1 1, PandasLib.group_sum [Float64.of_Z 100]);
         (Samples.day_of 2024 2 1, Float64.zero);
         (Samples.day_of 2024 3 1,
          PandasLib.group_sum [Float64.opp (Float64.of_Z 20)]) ])
  /\ @Engine.monthly Samples.sample_reductions Samples.with_gap
     = [ (Samples.day_of 2024 1 1, Float64.of_Z 100);
         (Samples.day_of 2024 2 1, Float64.zero);
         (Samples.day_of 2024 3 1, Float64.of_Z (-20)) ]
  /\ (forall reductions : PandasLib.Reductions,
        In (Samples.day_of 2024 2 1, Float64.zero)
           (@Engine.monthly reductions Samples.with_gap))
  /\ Forall
       (fun t => Calendar.month_index (Loader.date t)
                 <> Calendar.month_index (Samples.day_of 2024 2 1))
       Samples.with_gap.
Proof.
  assert (E : forall reductions : PandasLib.Reductions,
     @Engine.monthly reductions Samples.with_gap
     = [ (Samples.day_of 2024 1 1, PandasLib.group_sum [Float64.of_Z 100]);
         (Samples.day_of 2024 2 1, Float64.zero);
         (Samples.day_of 2024 3 1,
          PandasLib.group_sum [Float64.opp (Float64.of_Z 20)]) ]).
  { intros reductions.
    rewrite <- (@PandasLib.group_sum_nil reductions). reflexivity. }
  split; [exact E|]. split; [vm_compute; reflexivity|]. split.
  - intros reductions. rewrite E. right. left. reflexivity.
  - repeat constructor; vm_compute; congruence.
Qed.









(** C6. Whatever the lines of the file, a line whose date or whose amount
    does not parse is dropped: every transaction of the canonical table comes
    from a line both of whose cells parsed, and carries the parsed date and the
    parsed amount; every line both of whose cells parse is kept; the table has
    as many rows as the file has such lines, so a file without any gives the
    empty table. *)
Theorem load_data_keeps_parsed_rows
    {parsers : PandasLib.Parsers} {sorting : PandasLib.Sorting}
    (csv : list Loader.RawRow) :
  (forall t, In t (Loader.load_data csv) ->
     exists i r,
       nth_error csv i = Some r
       /\ nth_error (PandasLib.to_datetime (map Loader.raw_date csv)) i
          = Some (Some (Loader.date t))
       /\ nth_error (PandasLib.to_numeric (map Loader.raw_amount csv)) i
          = Some (Some (Loader.amount t))
       /\ t = Loader.derive (Loader.date t, Loader.amount t, r))
  /\ (forall i r d a,
        nth_error csv i = Some r ->
        nth_error (PandasLib.to_datetime (map Loader.raw_date csv)) i
        = Some (Some d) ->
        nth_error (PandasLib.to_numeric (map Loader.raw_amount csv)) i
        = Some (Some a) ->
        In (Loader.derive (d, a, r)) (Loader.load_data csv))
  /\ List.length (Loader.load_data csv)
     = List.length (List.filter Loader.parsed (Loader.coerce csv))
  /\ (List.length (Loader.load_data csv) <= List.length csv)%nat
  /\ ((forall c, In c (Loader.coerce csv) -> Loader.parsed c = false) ->
      Loader.load_data csv = []).
Proof.
  assert (L : List.length (Loader.load_data csv)
              = List.length (List.filter Loader.parsed (Loader.coerce csv))).
  { unfold Loader.load_data.
    rewrite <- (Permutation_length (PandasLib.sort_values_perm _ _ _)).
    rewrite length_map. apply length_dropna. }
  split; [|split; [|split; [exact L|split]]].
  - intros t H. apply in_load_data, in_map_iff in H as [[[d a] r] [<- H]].
    apply in_dropna, in_coerce in H as [i [Hr [Hd Ha]]].
    exists i, r. simpl. auto.
  - intros i r d a Hr Hd Ha.
    apply in_load_data, in_map, in_dropna, in_coerce. eauto.
  - rewrite L, <- (length_coerce csv). apply filter_length_le.
  - intros H.
    assert (E : List.filter Loader.parsed (Loader.coerce csv) = []).
    { revert H. generalize (Loader.coerce csv) as cells.
      induction cells as [|c cells IH]; intros H; simpl; auto.
      rewrite (H c) by (left; reflexivity). apply IH.
      intros c' Hc'. apply H. right. exact Hc'. }
    apply length_zero_iff_nil. rewrite L, E. reflexivity.
Qed.

(** The theorem on a file two of whose five lines do not parse. *)
Lemma load_data_keeps_parsed_rows_sample :
  List.length (@Loader.load_data Samples.sample_parsers numpy_sorting
                 Samples.dirty_csv)
  = List.length
      (List.filter Loader.parsed
         (@Loader.coerce Samples.sample_parsers Samples.dirty_csv))
  /\ List.length
       (List.filter Loader.parsed
          (@Loader.coerce Samples.sample_parsers Samples.dirty_csv))
     = 3%nat.
Proof.
  destruct (@load_data_keeps_parsed_rows Samples.sample_parsers numpy_sorting
              Samples.dirty_csv) as [_ [_ [L _]]].
  split; [exact L | reflexivity].
Defined.

(** C7. Description normalisation (lower-casing, every maximal run of
    characters that are not alphanumeric, the underscore included, replaced
    by one space, then trimming) is idempotent: normalising a normalised text
    gives it back, for every text. *)
Theorem normalize_idempotent (s : string) :
  Text.normalize (Text.normalize s) = Text.normalize s.
Proof.
  pose proof (tidy_normalize s) as T.
  unfold Text.normalize at 1.
  rewrite (tidy_lower _ _ T), (tidy_replace_fixed _ _ T).
  unfold Text.normalize. apply strip_idem.
Qed.

(** C8. The signed amount of a transaction is the negated amount when its
    type is 'debit' and the amount itself otherwise; a type that is neither
    'credit' nor 'debit' is handled as a credit.  The derivation is a total
    function, and every row of the canonical table carries its value. *)
Theorem signed_amount_by_type
    {parsers : PandasLib.Parsers} {sorting : PandasLib.Sorting}
    (csv : list Loader.RawRow) :
  (forall amt, Loader.signed "debit" amt = Float64.opp amt)
  /\ (forall amt, Loader.signed "credit" amt = amt)
  /\ (forall ty amt, ty <> "debit" -> Loader.signed ty amt = amt)
  /\ (forall t, In t (Loader.load_data csv) ->
        Loader.signed_amount t = Loader.signed (Loader.type t) (Loader.amount t)
        /\ (Loader.type t = "debit" ->
            Loader.signed_amount t = Float64.opp (Loader.amount t))
        /\ (Loader.type t <> "debit" -> Loader.signed_amount t = Loader.amount t)).
Proof.
  assert (N : forall ty amt, ty <> "debit" -> Loader.signed ty amt = amt).
  { intros ty amt H. unfold Loader.signed.
    destruct (String.eqb_spec ty "debit"); [contradiction | reflexivity]. }
  split; [reflexivity|]. split; [reflexivity|]. split; [exact N|].
  intros t H. apply in_load_data, in_map_iff in H as [[[d a] r] [<- _]].
  simpl. split; [reflexivity|]. split.
  - intros ->. reflexivity.
  - apply N.
Qed.

(** The theorem on the file of the scenario. *)
Lemma signed_amount_by_type_scenario :
  Forall
    (fun t => Loader.signed_amount t
              = Loader.signed (Loader.type t) (Loader.amount t))
    (@Loader.load_data Samples.sample_parsers numpy_sorting
       Samples.scenario_csv).
Proof.
  apply Forall_forall. intros t H.
  destruct (@signed_amount_by_type Samples.sample_parsers numpy_sorting
              Samples.scenario_csv) as [_ [_ [_ G]]].
  exact (proj1 (G t H)).
Defined.

(** C9. When the first date of the range is later than the second one the
    filter gives the empty set and raises nothing (the script runs to its end
    and the frame [filtered] has no row); otherwise it keeps exactly
    the transactions whose type is one of the given types and whose calendar
    date lies between the two dates, both included, in the order of the table
    and with nothing else changed. *)
Theorem filter_frame_range
    {sorting : PandasLib.Sorting}
    (types : list string) (date_from date_to : Calendar.Date)
    (df : list Loader.Transaction) :
  (Calendar.date_lt date_to date_from ->
     Engine.filter_frame types (date_from, date_to) df = []
     /\ Engine.filtered types (date_from, date_to) df = []
     /\ forall h r, nth_error h r = Some df ->
          exists r' h',
            Script.apply_filters r types (date_from, date_to) h = Some (r', h')
            /\ nth_error h' r' = Some [])
  /\ (Calendar.date_leb date_from date_to = true ->
      (forall t, In t (Engine.filter_frame types (date_from, date_to) df) <->
         In t df /\ In (Loader.type t) types
         /\ Calendar.date_leb date_from (Calendar.ts_date (Loader.date t)) = true
         /\ Calendar.date_leb (Calendar.ts_date (Loader.date t)) date_to = true)
      /\ Engine.filter_frame types (date_from, date_to)
           (Engine.filter_frame types (date_from, date_to) df)
         = Engine.filter_frame types (date_from, date_to) df).
Proof.
  split.
  - intros H. apply date_leb_false in H.
    assert (E : Engine.filter_frame types (date_from, date_to) df = []).
    { unfold Engine.filter_frame. induction df as [|t df IH]; simpl; auto.
      rewrite (mask_empty_range _ _ _ _ H). exact IH. }
    assert (E' : Engine.filtered types (date_from, date_to) df = []).
    { unfold Engine.filtered, Engine.sort_by_date. rewrite E, sort_values_nil.
      reflexivity. }
    split; [exact E|]. split; [exact E'|].
    intros h r Hr. eexists _, _.
    split; [apply apply_filters_run; exact Hr|].
    rewrite nth_error_fourth, E'. reflexivity.
  - intros _. split.
    + intros t. unfold Engine.filter_frame. rewrite filter_In, mask_iff.
      simpl. tauto.
    + unfold Engine.filter_frame. induction df as [|t df IH]; simpl; auto.
      destruct (Engine.mask types (date_from, date_to) t) eqn:E; simpl; auto.
      rewrite E, IH. reflexivity.
Qed.

(** The theorem on the scenario with the dates of the range exchanged. *)
Lemma filter_frame_range_reversed :
  Engine.filter_frame ["debit"; "credit"]
    (Calendar.mkDate 2024 2 1, Calendar.mkDate 2024 1 1) Samples.scenario_table
  = []
  /\ @Engine.filtered numpy_sorting ["debit"; "credit"]
       (Calendar.mkDate 2024 2 1, Calendar.mkDate 2024 1 1)
       Samples.scenario_table
     = [].
Proof.
  destruct (@filter_frame_range numpy_sorting ["debit"; "credit"]
              (Calendar.mkDate 2024 2 1) (Calendar.mkDate 2024 1 1)
              Samples.scenario_table) as [E _].
  destruct E as [E1 [E2 _]].
  - unfold Calendar.date_lt. simpl. lia.
  - split; [exact E1 | exact E2].
Defined.

(** C10. Running the filter and the views never changes the canonical
    table.  Whatever the heap, when the variable [df] refers to the table, one
    run of the script for a filter request succeeds; afterwards [df] still
    refers to the same rows with the same columns, as does every other object
    that existed before; the frame [filtered] is a new object, the only one
    the column [cumulative] is written to; and a later run for any request
    reads the same table again and gives the frame and the views that the
    table alone determines. *)
Theorem canonical_table_not_mutated
    {sorting : PandasLib.Sorting} {reductions : PandasLib.Reductions}
    (h : Script.Heap) (df : Script.ref) (table : Script.DataFrame)
    (types : list string) (range : Calendar.Date * Calendar.Date) :
  nth_error h df = Some table ->
  exists filtered v h',
    Script.rerun df types range h = Some ((filtered, v), h')
    /\ nth_error h' df = Some table
    /\ (forall r g, nth_error h r = Some g -> nth_error h' r = Some g)
    /\ nth_error h filtered = None
    /\ nth_error h' filtered = Some (Engine.filtered types range table)
    /\ v = Script.views_of (Engine.filtered types range table)
    /\ (forall types' range',
          exists filtered' v' h'',
            Script.rerun df types' range' h' = Some ((filtered', v'), h'')
            /\ nth_error h'' filtered'
               = Some (Engine.filtered types' range' table)
            /\ v' = Script.views_of (Engine.filtered types' range' table)
            /\ nth_error h'' df = Some table
            /\ nth_error h'' filtered
               = Some (Engine.filtered types range table)).
Proof.
  intros H.
  eexists _, _, _. split; [apply rerun_run; exact H|].
  split; [apply nth_error_keep; exact H|].
  split; [intros r g Hr; apply nth_error_keep; exact Hr|].
  split; [apply nth_error_None; lia|].
  split; [apply nth_error_fourth|]. split; [reflexivity|].
  intros types' range'.
  pose proof (nth_error_keep h
                [Engine.filter_frame types range table;
                 Engine.filter_frame types range table;
                 Engine.sort_by_date (Engine.filter_frame types range table);
                 Engine.filtered types range table] df table H) as H'.
  eexists _, _, _. split; [apply rerun_run; exact H'|].
  split; [apply nth_error_fourth|]. split; [reflexivity|].
  split; [apply nth_error_keep; exact H'|].
  apply nth_error_keep. apply nth_error_fourth.
Qed.

(** The theorem at the scenario of the specification: the heap holds the
    canonical table alone and the request asks for both types over 2024. *)
Lemma canonical_table_not_mutated_scenario :
  exists filtered v h',
    @Script.rerun numpy_sorting Samples.sample_reductions 0%nat ["debit"; "credit"]
      (Calendar.mkDate 2024 1 1, Calendar.mkDate 2024 12 31)
      [Samples.scenario_table]
    = Some ((filtered, v), h')
    /\ nth_error h' 0%nat = Some Samples.scenario_table
    /\ (forall r g, nth_error [Samples.scenario_table] r = Some g ->
                    nth_error h' r = Some g)
    /\ nth_error [Samples.scenario_table] filtered = None
    /\ nth_error h' filtered
       = Some (@Engine.filtered numpy_sorting ["debit"; "credit"]
                 (Calendar.mkDate 2024 1 1, Calendar.mkDate 2024 12 31)
                 Samples.scenario_table)
    /\ v = @Script.views_of numpy_sorting Samples.sample_reductions
             (@Engine.filtered numpy_sorting ["debit"; "credit"]
                (Calendar.mkDate 2024 1 1, Calendar.mkDate 2024 12 31)
                Samples.scenario_table)
    /\ (forall types' range',
          exists filtered' v' h'',
            @Script.rerun numpy_sorting Samples.sample_reductions 0%nat types' range' h'
            = Some ((filtered', v'), h'')
            /\ nth_error h'' filtered'
               = Some (@Engine.filtered numpy_sorting types' range'
                         Samples.scenario_table)
            /\ v' = @Script.views_of numpy_sorting Samples.sample_reductions
                      (@Engine.filtered numpy_sorting types' range'
                         Samples.scenario_table)
            /\ nth_error h'' 0%nat = Some Samples.scenario_table
            /\ nth_error h'' filtered
               = Some (@Engine.filtered numpy_sorting ["debit"; "credit"]
                         (Calendar.mkDate 2024 1 1, Calendar.mkDate 2024 12 31)
                         Samples.scenario_table)).
Proof.
  apply (@canonical_table_not_mutated numpy_sorting Samples.sample_reductions
           [Samples.scenario_table] 0%nat Samples.scenario_table
           ["debit"; "credit"]
           (Calendar.mkDate 2024 1 1, Calendar.mkDate 2024 12 31)).
  reflexivity.
Defined.

(* ================================================================== *)
(** * Part IV: further properties of the code *)
(* ================================================================== *)

(** ** Labels and normalised text *)

Section LabelFacts.
Import Loader Text.

Lemma tidy_chars (b : bool) (s : string) (c : ascii) :
  tidy b s = true -> In c (list_ascii_of_string s) ->
  c = " "%char \/ (isalnum c = true /\ lower_char c = c).
Proof.
  revert b; induction s as [|x t IH]; intros b T H; simpl in *; [contradiction|].
  destruct (Ascii.eqb_spec x " ") as [->|_].
  - apply andb_prop in T as [_ T]. destruct H as [<-|H]; eauto.
  - apply andb_prop in T as [T1 T]. apply andb_prop in T1 as [A L].
    apply Ascii.eqb_eq in L. destruct H as [<-|H]; eauto.
Qed.

Lemma tidy_no_double_space (b : bool) (s : string) (i : nat) :
  tidy b s = true ->
  String.get i s = Some " "%char -> String.get (S i) s <> Some " "%char.
Proof.
  revert b i; induction s as [|x t IH]; intros b i T H; simpl in *; [discriminate|].
  destruct i as [|i].
  - inversion H; subst x. change (Ascii.eqb " " " ") with true in T.
    apply andb_prop in T as [_ T].
    destruct t as [|y u]; simpl; [discriminate|].
    simpl in T. destruct (Ascii.eqb_spec y " ") as [->|n].
    + simpl in T. discriminate.
    + congruence.
  - destruct (Ascii.eqb x " ").
    + apply andb_prop in T as [_ T]. eapply IH; eauto.
    + apply andb_prop in T as [_ T]. eapply IH; eauto.
Qed.

End LabelFacts.

(** X1. Every row gets one label of the closed set: whatever the rule
    table and the description, the categoriser answers 'Other' or the name of
    a category of the table, and every row of the canonical table carries
    'Other' or one of the eight configured names. *)
Theorem category_in_closed_set
    {parsers : PandasLib.Parsers} {sorting : PandasLib.Sorting}
    (csv : list Loader.RawRow) :
  (forall table desc,
     In (Loader.categorize table desc) ("Other" :: map fst table))
  /\ (forall t, In t (Loader.load_data csv) ->
        In (Loader.Category t)
           ["Other"; "Groceries"; "Transport"; "Salary"; "Utilities";
            "Entertainment"; "Shopping"; "Health"; "Travel"]).
Proof.
  split.
  - intros table desc. apply fold_label_in.
  - intros t H. apply in_load_data, in_map_iff in H as [[[d a] r] [<- _]].
    simpl. apply (fold_label_in Loader.categories).
Qed.

(** X2. A normalised description holds nothing but lower-case
    alphanumeric characters and single spaces, and is trimmed: no character of
    it is anything else, no two spaces follow each other, and stripping it
    again on either side changes nothing. *)
Theorem normalize_shape (s : string) :
  (forall c, In c (list_ascii_of_string (Text.normalize s)) ->
     c = " "%char \/ (Text.isalnum c = true /\ Text.lower_char c = c))
  /\ (forall i, String.get i (Text.normalize s) = Some " "%char ->
        String.get (S i) (Text.normalize s) <> Some " "%char)
  /\ Text.lstrip (Text.normalize s) = Text.normalize s
  /\ Text.rstrip (Text.normalize s) = Text.normalize s.
Proof.
  pose proof (tidy_normalize s) as T.
  split; [|split; [|split]].
  - intros c H. eapply tidy_chars; eauto.
  - intros i H. eapply tidy_no_double_space; eauto.
  - unfold Text.normalize, Text.strip. apply lstrip_rstrip, lstrip_idem.
  - unfold Text.normalize, Text.strip. apply rstrip_idem.
Qed.

(** X3. The loop of lines 39-42 labels each row from its own description
    only: the column it leaves has one label per row, and the label of a row
    is the one the categoriser gives the description of that row, whatever the
    other rows hold. *)
Theorem category_column_per_row
    (table : list (string * list string)) (descs : list string) :
  List.length (Loader.category_column table descs) = List.length descs
  /\ (forall i d, nth_error descs i = Some d ->
        nth_error (Loader.category_column table descs) i
        = Some (Loader.categorize table d)).
Proof.
  rewrite category_column_rowwise. split.
  - apply length_map.
  - intros i d H. rewrite nth_error_map, H. reflexivity.
Qed.

(** ** Keywords as substrings *)

Section SearchFacts.
Import Text.

Lemma char_matches_literal (p c : ascii) :
  ~ In p metachars ->
  (char_matches p c = true <-> lower_char c = lower_char p).
Proof.
  intros H. unfold char_matches.
  destruct (Ascii.eqb_spec p ".") as [e|_].
  - exfalso. apply H. left. symmetry. exact e.
  - rewrite Ascii.eqb_eq. split; congruence.
Qed.

Lemma matches_here_iff (kw s : string) :
  literal kw ->
  (matches_here kw s = true <-> exists suf, lower s = (lower kw ++ suf)%string).
Proof.
  unfold literal. revert s; induction kw as [|p kw IH]; intros s L; simpl.
  - split; eauto.
  - inversion L as [|? ? Hp L']; subst.
    destruct s as [|c s]; simpl.
    + split; [discriminate | intros [suf H]; discriminate].
    + rewrite andb_true_iff, (char_matches_literal p c Hp), (IH s L').
      split.
      * intros [E [suf H]]. exists suf. congruence.
      * intros [suf H]. inversion H. eauto.
Qed.

Lemma search_iff (kw s : string) :
  literal kw ->
  (search kw s = true <->
   exists pre suf, lower s = (pre ++ lower kw ++ suf)%string).
Proof.
  intros L. induction s as [|c s IH].
  - simpl. rewrite orb_false_r, (matches_here_iff kw "" L). split.
    + intros [suf H]. exists "", suf. exact H.
    + intros [[|x pre] [suf H]]; [eauto | discriminate].
  - simpl search. rewrite orb_true_iff, (matches_here_iff kw (String c s) L), IH.
    split.
    + intros [[suf H]|[pre [suf H]]].
      * exists "", suf. exact H.
      * exists (String (lower_char c) pre), suf. simpl. rewrite H. reflexivity.
    + intros [[|x pre] [suf H]].
      * left. eauto.
      * right. simpl in H. inversion H. eauto.
Qed.

End SearchFacts.

(** X4. For keywords that hold no operator of regular expressions (no
    dot, no bar, no bracket and the like) the pattern test of line 42 is a
    substring test that ignores letter case and word boundaries: the pattern
    of a category is found in a description exactly when the category has no
    keyword at all or one of its keywords, lower-cased, occurs somewhere in the
    lower-cased description. *)
Theorem contains_is_substring_test (keywords : list string) (s : string) :
  Forall Text.literal keywords ->
  (Text.contains keywords s = true <->
   keywords = []
   \/ exists kw pre suf,
        In kw keywords
        /\ Text.lower s = (pre ++ Text.lower kw ++ suf)%string).
Proof.
  intros L. destruct keywords as [|k ks].
  - simpl. split; auto.
  - unfold Text.contains. rewrite existsb_exists. split.
    + intros [kw [Hin H]]. right.
      apply search_iff in H; [|rewrite Forall_forall in L; auto].
      destruct H as [pre [suf H]]. eauto.
    + intros [E|[kw [pre [suf [Hin H]]]]]; [discriminate|].
      exists kw. split; auto. apply search_iff; eauto.
      rewrite Forall_forall in L. auto.
Qed.

(** The keywords of Groceries are literal, and 'tesco' occurs in the
    description. *)
Lemma contains_is_substring_test_groceries :
  Text.contains
    ["tesco"; "sainsbury"; "aldi"; "lidl"; "asda"; "morrisons"; "waitrose";
     "food"; "supermarket"] "tesco groceries" = true <->
  ["tesco"; "sainsbury"; "aldi"; "lidl"; "asda"; "morrisons"; "waitrose";
   "food"; "supermarket"] = []
  \/ exists kw pre suf,
       In kw ["tesco"; "sainsbury"; "aldi"; "lidl"; "asda"; "morrisons";
              "waitrose"; "food"; "supermarket"]
       /\ Text.lower "tesco groceries" = (pre ++ Text.lower kw ++ suf)%string.
Proof.
  apply contains_is_substring_test.
  repeat constructor; intros H; vm_compute in H;
    repeat (destruct H as [H|H]; [discriminate H|]); exact H.
Defined.

(** ** Sums of counts *)

Section SumFacts.
Import Calendar PandasLib Loader Engine.

Lemma sum_Z_perm (l l' : list Z) : Permutation l l' -> sum_Z l = sum_Z l'.
Proof.
  unfold sum_Z. induction 1; simpl; lia.
Qed.

Lemma sum_map_perm {A : Type} (g : A -> Z) (l l' : list A) :
  Permutation l l' -> sum_Z (map g l) = sum_Z (map g l').
Proof.
  intros P. apply sum_Z_perm, Permutation_map, P.
Qed.

Lemma sum_map_add {A : Type} (g h : A -> Z) (l : list A) :
  sum_Z (map (fun x => g x + h x) l) = sum_Z (map g l) + sum_Z (map h l).
Proof.
  unfold sum_Z. induction l as [|x l IH]; simpl; lia.
Qed.

Lemma sum_map_zero {A : Type} (l : list A) : sum_Z (map (fun _ => 0) l) = 0.
Proof.
  unfold sum_Z. induction l as [|x l IH]; simpl; lia.
Qed.

(** The sum of a value taken once, at the key it belongs to. *)
Lemma sum_at_key {K : Type} (eqb : K -> K -> bool) (m : K) (v : Z) (ks : list K) :
  (forall a b, eqb a b = true <-> a = b) ->
  NoDup ks -> In m ks ->
  sum_Z (map (fun k => if eqb m k then v else 0) ks) = v.
Proof.
  intros E N. induction N as [|k ks Hk N IH]; intros H; [contradiction|].
  unfold sum_Z in *. simpl. destruct H as [->|H].
  - rewrite (proj2 (E m m) eq_refl).
    assert (Z0 : fold_right Z.add 0 (map (fun k => if eqb m k then v else 0) ks) = 0).
    { clear IH N. induction ks as [|x ks IHk]; simpl; auto.
      destruct (eqb m x) eqn:X.
      - apply E in X. subst x. exfalso. apply Hk. left. reflexivity.
      - rewrite IHk; auto. intros H. apply Hk. right. exact H. }
    lia.
  - destruct (eqb m k) eqn:X.
    + apply E in X. subst k. contradiction.
    + rewrite IH; auto.
Qed.

(** Summing group by group gives the sum over all rows, when every row
    belongs to one of the groups and no group is listed twice. *)
Lemma sum_by_groups {A K : Type} (eqb : K -> K -> bool) (key : A -> K)
    (val : A -> Z) (ks : list K) (l : list A) :
  (forall a b, eqb a b = true <-> a = b) ->
  NoDup ks -> (forall t, In t l -> In (key t) ks) ->
  sum_Z (map (fun k => sum_Z (map val (List.filter (fun t => eqb (key t) k) l))) ks)
  = sum_Z (map val l).
Proof.
  intros E N. induction l as [|t l IH]; intros H.
  - simpl. apply sum_map_zero.
  - transitivity
      (sum_Z (map (fun k => (if eqb (key t) k then val t else 0)
                            + sum_Z (map val (List.filter (fun u => eqb (key u) k) l)))
                  ks)).
    + f_equal. apply map_ext. intros k. simpl.
      destruct (eqb (key t) k); reflexivity.
    + rewrite sum_map_add, IH by (intros u Hu; apply H; right; exact Hu).
      rewrite (sum_at_key eqb (key t) (val t) ks E N) by (apply H; left; reflexivity).
      reflexivity.
Qed.

End SumFacts.

(** ** The rows the metrics read *)

Section MetricFacts.
Import Calendar PandasLib Loader Engine.

Lemma filter_perm {A : Type} (p : A -> bool) (l l' : list A) :
  Permutation l l' -> Permutation (List.filter p l) (List.filter p l').
Proof.
  induction 1 as [|x l l' P IH|x y l|l l' l'' P1 IH1 P2 IH2]; simpl.
  - constructor.
  - destruct (p x); [constructor|]; exact IH.
  - destruct (p x), (p y); try apply Permutation_refl. apply perm_swap.
  - eapply perm_trans; eauto.
Qed.

(** The column [cumulative] is read by no metric. *)
Lemma of_type_assign_cumulative (ty : string) (f : list Transaction)
    (c : list Float64.float64) :
  List.length c = List.length f ->
  map amount (of_type ty (assign_cumulative f c)) = map amount (of_type ty f).
Proof.
  unfold of_type, assign_cumulative.
  revert c; induction f as [|t f IH]; intros [|x c] L; simpl in *;
    try discriminate; auto.
  destruct (String.eqb (type t) ty); simpl; [f_equal|]; apply IH; congruence.
Qed.

Context {sorting : Sorting}.

Lemma length_filtered (types : list string) (range : Date * Date)
    (df : list Transaction) :
  List.length (filtered types range df)
  = List.length (filter_frame types range df).
Proof.
  unfold filtered.
  rewrite length_assign_cumulative by apply length_cumulative_column.
  symmetry. apply Permutation_length, sort_by_date_perm.
Qed.

Lemma amounts_of_filtered (ty : string) (types : list string)
    (range : Date * Date) (df : list Transaction) :
  map amount (of_type ty (filtered types range df))
  = map amount (of_type ty (sort_by_date (filter_frame types range df))).
Proof.
  unfold filtered. apply of_type_assign_cumulative, length_cumulative_column.
Qed.

(** Rows that are in ascending order of their dates already, no two of
    one timestamp, are left as they are by every sort. *)
Lemma sort_by_date_fixed (f : list Transaction) :
  StronglySorted (fun a b => by_date a b = true) f ->
  NoDup (map date f) ->
  sort_by_date f = f.
Proof.
  intros S N. symmetry.
  apply (sorted_perm_unique (fun a b => by_date a b = true)).
  - intros a b Ha Hb H1 H2. apply (NoDup_map_eq date f); auto.
    apply ts_leb_antisym; assumption.
  - exact S.
  - apply sort_by_date_sorted.
  - apply sort_by_date_perm.
Qed.

End MetricFacts.

(** X5. The metrics are computed on the frame [filtered], which has been
    sorted again and given its column [cumulative].  It has as many rows as
    the mask of lines 65-67 selects, and the amounts of each type that the
    metrics add up are those of the selected rows, taken in the order of the
    sorted frame.  When the table is in ascending order of its dates and no
    two selected rows have the same timestamp that order is the order of the
    selected rows, and income, expenses and net flow are those of the
    selected rows. *)
Theorem metrics_of_selected_rows
    {sorting : PandasLib.Sorting} {reductions : PandasLib.Reductions}
    (types : list string) (range : Calendar.Date * Calendar.Date)
    (df : list Loader.Transaction) :
  List.length (Engine.filtered types range df)
  = List.length (Engine.filter_frame types range df)
  /\ (forall ty,
        Permutation
          (map Loader.amount
             (Engine.of_type ty (Engine.filter_frame types range df)))
          (map Loader.amount
             (Engine.of_type ty (Engine.filtered types range df))))
  /\ (StronglySorted (fun a b => Loader.by_date a b = true) df ->
      NoDup (map Loader.date (Engine.filter_frame types range df)) ->
      Engine.income (Engine.filtered types range df)
      = Engine.income (Engine.filter_frame types range df)
      /\ Engine.expense (Engine.filtered types range df)
         = Engine.expense (Engine.filter_frame types range df)
      /\ Engine.net (Engine.filtered types range df)
         = Engine.net (Engine.filter_frame types range df)).
Proof.
  split; [apply length_filtered|]. split.
  - intros ty. rewrite amounts_of_filtered.
    apply Permutation_map. unfold Engine.of_type.
    apply filter_perm, sort_by_date_perm.
  - intros S N.
    assert (E : forall ty,
               map Loader.amount
                 (Engine.of_type ty (Engine.filtered types range df))
               = map Loader.amount
                   (Engine.of_type ty (Engine.filter_frame types range df))).
    { intros ty. rewrite amounts_of_filtered, sort_by_date_fixed; auto.
      unfold Engine.filter_frame. apply filter_sorted. exact S. }
    unfold Engine.net, Engine.income, Engine.expense. rewrite !E. auto.
Qed.

(** The theorem on the canonical table of the scenario, whose three rows
    have three dates. *)
Lemma metrics_of_selected_rows_scenario :
  @Engine.income Samples.sample_reductions
    (@Engine.filtered numpy_sorting ["credit"; "debit"]
       (Calendar.mkDate 2024 1 1, Calendar.mkDate 2024 12 31)
       Samples.scenario_table)
  = Float64.of_Z 200.
Proof.
  destruct (@metrics_of_selected_rows numpy_sorting Samples.sample_reductions
              ["credit"; "debit"]
              (Calendar.mkDate 2024 1 1, Calendar.mkDate 2024 12 31)
              Samples.scenario_table) as [_ [_ H]].
  destruct H as [I _].
  - repeat constructor.
  - repeat constructor; simpl; intros H;
      repeat (destruct H as [H|H]; [discriminate H|]); exact H.
  - rewrite I. vm_compute. reflexivity.
Defined.

(** ** Grouped views *)

Section GroupedFacts.
Import Calendar PandasLib Loader Engine Dashboard.

Lemma ts_compare_lt (a b : Timestamp) : ts_compare a b = Lt <-> ts_lt a b.
Proof.
  destruct (ts_compare_spec a b) as [E|L|G]; split; auto; try discriminate.
  - subst. intros H. exfalso. eapply ts_lt_irrefl; eauto.
  - intros H. exfalso. eapply ts_lt_irrefl, ts_lt_trans; eauto.
Qed.

Lemma ts_compare_eq (a b : Timestamp) : ts_compare a b = Eq <-> a = b.
Proof.
  destruct (ts_compare_spec a b) as [E|L|G]; split; auto; try discriminate.
  - intros ->. exfalso. eapply ts_lt_irrefl; eauto.
  - intros ->. exfalso. eapply ts_lt_irrefl; eauto.
Qed.

Lemma ts_compare_lt_trans (a b c : Timestamp) :
  ts_compare a b = Lt -> ts_compare b c = Lt -> ts_compare a c = Lt.
Proof.
  rewrite !ts_compare_lt. apply ts_lt_trans.
Qed.

Lemma ts_compare_antisym (a b : Timestamp) :
  ts_compare b a = CompOpp (ts_compare a b).
Proof.
  destruct (ts_compare_spec a b) as [E|L|G]; simpl.
  - apply ts_compare_eq. auto.
  - destruct (ts_compare_spec b a) as [E'|L'|G']; auto.
    + subst. exfalso. eapply ts_lt_irrefl; eauto.
    + exfalso. eapply ts_lt_irrefl, ts_lt_trans; eauto.
  - apply ts_compare_lt. exact G.
Qed.

Section Generic.
Context {K : Type} (cmp : K -> K -> comparison).
Hypothesis cmp_eq : forall a b, cmp a b = Eq <-> a = b.
Hypothesis cmp_lt_trans :
  forall a b c, cmp a b = Lt -> cmp b c = Lt -> cmp a c = Lt.
Hypothesis cmp_antisym : forall a b, cmp b a = CompOpp (cmp a b).

Lemma in_groupby {reductions : Reductions} (key : Transaction -> K)
    (val : Transaction -> Float64.float64)
    (f : list Transaction) (k : K) (v : Float64.float64) :
  In (k, v) (groupby_sum cmp key val f) <->
  (exists t, In t f /\ key t = k)
  /\ v = group_sum (map val (List.filter (fun t => same_key cmp (key t) k) f)).
Proof.
  unfold groupby_sum. rewrite in_map_iff. split.
  - intros [k' [E H]]. inversion E; subst. clear E.
    apply (proj1 (in_group_keys cmp cmp_eq _ _)) in H.
    apply in_map_iff in H as [t [E H]].
    split; eauto.
  - intros [[t [H E]] ->]. exists k. split; auto.
    apply (proj2 (in_group_keys cmp cmp_eq _ _)). subst k. apply in_map. exact H.
Qed.

Lemma groupby_nil {reductions : Reductions} (key : Transaction -> K)
    (val : Transaction -> Float64.float64) (f : list Transaction) :
  groupby_sum cmp key val f = [] <-> f = [].
Proof.
  split; [|intros ->; reflexivity].
  destruct f as [|t f]; auto. intros H. exfalso.
  assert (I : In (key t) (group_keys cmp (map key (t :: f))))
    by (apply (proj2 (in_group_keys cmp cmp_eq _ _)); left; reflexivity).
  unfold groupby_sum in H. apply map_eq_nil in H. rewrite H in I. exact I.
Qed.

End Generic.

Lemma in_unique_from (seen l : list string) (x : string) :
  In x (unique_from seen l) <-> In x l /\ ~ In x seen.
Proof.
  revert seen; induction l as [|y l IH]; intros seen; simpl.
  - tauto.
  - destruct (isin y seen) eqn:E.
    + apply isin_iff in E. rewrite IH. split.
      * intros [H N]. auto.
      * intros [[->|H] N]; [contradiction | auto].
    + assert (N : ~ In y seen)
        by (intros H; apply isin_iff in H; congruence).
      simpl. rewrite IH. simpl. split.
      * intros [->|[H M]]; [auto|]. split; auto.
      * intros [[->|H] M]; [auto|].
        destruct (String.eqb_spec y x) as [e|n]; [auto|].
        right. split; auto. intros [e|H']; auto.
Qed.

Lemma NoDup_unique_from (seen l : list string) : NoDup (unique_from seen l).
Proof.
  revert seen; induction l as [|y l IH]; intros seen; simpl.
  - constructor.
  - destruct (isin y seen); auto.
    constructor; auto.
    intros H. apply in_unique_from in H as [_ H]. apply H. left. reflexivity.
Qed.

Lemma in_unique (l : list string) (x : string) : In x (unique l) <-> In x l.
Proof.
  unfold unique. rewrite in_unique_from. simpl. tauto.
Qed.

Lemma length_as_sum {A : Type} (m : list A) :
  Z.of_nat (List.length m) = sum_Z (map (fun _ => 1) m).
Proof.
  unfold sum_Z. induction m as [|y m IH]; cbn [List.length map fold_right]; lia.
Qed.

Lemma count_of_as_sum (x : string) (l : list string) :
  Z.of_nat (count_of x l)
  = sum_Z (map (fun _ => 1) (List.filter (fun y => String.eqb x y) l)).
Proof.
  unfold count_of. apply length_as_sum.
Qed.

End GroupedFacts.

(** X9. The daily view has one entry per timestamp that occurs in the
    filtered set, in strictly ascending order, holding the sum of the signed
    amounts of the transactions with that timestamp, taken in the order of
    the set; no other timestamp gets an entry. *)
Theorem daily_groups
    {reductions : PandasLib.Reductions} (f : list Loader.Transaction) :
  StronglySorted (fun x y => Calendar.ts_lt (fst x) (fst y)) (Engine.daily f)
  /\ (forall d v, In (d, v) (Engine.daily f) <->
        (exists t, In t f /\ Loader.date t = d)
        /\ v = PandasLib.group_sum
                 (map Loader.signed_amount (List.filter (Loader.dated d) f))).
Proof.
  split.
  - unfold Engine.daily.
    apply (sorted_by_fst Calendar.ts_lt). rewrite groupby_keys.
    eapply StronglySorted_weaken;
      [|apply (group_keys_sorted Calendar.ts_compare ts_compare_eq
                 ts_compare_lt_trans ts_compare_antisym)].
    intros a b. apply ts_compare_lt.
  - intros d v. unfold Engine.daily.
    apply (in_groupby Calendar.ts_compare ts_compare_eq).
Qed.

(** X11. The branch of lines 190 and 208: the breakdown of the spending is
    empty, and the note is shown in place of the chart, exactly when the
    filtered set has no debit; the breakdown of the income is empty exactly
    when it has no credit. *)
Theorem breakdown_empty_iff
    {sorting : PandasLib.Sorting} {reductions : PandasLib.Reductions}
    (f : list Loader.Transaction) :
  (Engine.spending f = [] <-> forall t, In t f -> Loader.type t <> "debit")
  /\ (Engine.income_cat f = [] <-> forall t, In t f -> Loader.type t <> "credit").
Proof.
  assert (G : forall ty,
             Engine.group_by_category ty f = [] <->
             forall t, In t f -> Loader.type t <> ty).
  { intros ty. unfold Engine.group_by_category. split.
    - intros H t Ht E.
      assert (N : Engine.groupby_sum String.compare Loader.Category Loader.amount
                    (Engine.of_type ty f) = []).
      { apply Permutation_nil. rewrite <- H. apply Permutation_sym.
        apply sort_sums_perm. }
      apply (groupby_nil String.compare string_compare_eq) in N.
      assert (I : In t (Engine.of_type ty f)).
      { unfold Engine.of_type. apply filter_In. split; auto.
        apply String.eqb_eq. exact E. }
      rewrite N in I. exact I.
    - intros H.
      assert (N : Engine.of_type ty f = []).
      { unfold Engine.of_type. clear sorting.
        induction f as [|t f0 IH]; simpl; auto.
        destruct (String.eqb_spec (Loader.type t) ty) as [e|_].
        - exfalso. apply (H t); [left; reflexivity | exact e].
        - apply IH. intros u Hu. apply H. right. exact Hu. }
      rewrite N. apply Permutation_nil. apply (sort_sums_perm []). }
  split; apply G.
Qed.

(** X12. The counts per type of line 144: every type that occurs in the
    filtered set is listed once with the number of its rows, which is at least
    one, no other type is listed, the counts come largest first and add up to
    the number of transactions. *)
Theorem pie_data_counts
    {sorting : PandasLib.Sorting} (f : list Loader.Transaction) :
  NoDup (map fst (Dashboard.pie_data f))
  /\ (forall ty n, In (ty, n) (Dashboard.pie_data f) <->
        (exists t, In t f /\ Loader.type t = ty)
        /\ n = Dashboard.count_of ty (map Loader.type f))
  /\ (forall ty n, In (ty, n) (Dashboard.pie_data f) -> (1 <= n)%nat)
  /\ StronglySorted (fun a b => (snd b <= snd a)%nat) (Dashboard.pie_data f)
  /\ Engine.sum_Z (map (fun p => Z.of_nat (snd p)) (Dashboard.pie_data f))
     = Z.of_nat (List.length f).
Proof.
  set (col := map Loader.type f).
  set (raw := map (fun x => (x, Dashboard.count_of x col)) (Dashboard.unique col)).
  assert (P : Permutation raw (Dashboard.pie_data f))
    by apply PandasLib.sort_values_perm.
  assert (I : forall ty n, In (ty, n) (Dashboard.pie_data f) <->
                (exists t, In t f /\ Loader.type t = ty)
                /\ n = Dashboard.count_of ty col).
  { intros ty n. split.
    - intros H. eapply Permutation_in in H; [|apply Permutation_sym; exact P].
      apply in_map_iff in H as [x [E H]]. inversion E; subst.
      apply in_unique, in_map_iff in H as [t [Et Ht]]. split; eauto.
    - intros [[t [Ht Et]] ->]. eapply Permutation_in; [exact P|].
      apply in_map_iff. exists ty. split; auto.
      apply in_unique, in_map_iff. eauto. }
  split; [|split; [exact I|split; [|split]]].
  - eapply Permutation_NoDup; [apply Permutation_map; exact P|].
    unfold raw. rewrite map_map. simpl. rewrite map_id.
    apply NoDup_unique_from.
  - intros ty n H. apply I in H as [[t [Ht Et]] ->].
    unfold Dashboard.count_of.
    assert (In ty (List.filter (String.eqb ty) col)).
    { apply filter_In. split; [|apply String.eqb_refl].
      unfold col. apply in_map_iff. eauto. }
    destruct (List.filter (String.eqb ty) col); [contradiction | simpl; lia].
  - unfold Dashboard.pie_data, Dashboard.value_counts.
    eapply StronglySorted_weaken.
    2: { apply PandasLib.sort_values_sorted.
         - intros a b. unfold Dashboard.by_count_desc.
           rewrite !Nat.leb_le. lia.
         - intros a b c. unfold Dashboard.by_count_desc.
           rewrite !Nat.leb_le. lia. }
    intros a b H. unfold Dashboard.by_count_desc in H.
    apply Nat.leb_le. exact H.
  - rewrite <- (sum_map_perm (fun p => Z.of_nat (snd p)) _ _ P).
    unfold raw. rewrite map_map. simpl.
    replace (Z.of_nat (List.length f))
      with (Engine.sum_Z (map (fun _ : string => 1) col)).
    + transitivity
        (Engine.sum_Z
           (map (fun k => Engine.sum_Z
                            (map (fun _ : string => 1)
                               (List.filter (fun y => String.eqb y k) col)))
                (Dashboard.unique col))).
      * f_equal. apply map_ext. intros k. rewrite count_of_as_sum.
        f_equal. f_equal. apply filter_ext. intros y. apply String.eqb_sym.
      * apply (sum_by_groups String.eqb (fun y : string => y)).
        -- intros a b. apply String.eqb_eq.
        -- apply NoDup_unique_from.
        -- intros y Hy. apply in_unique. exact Hy.
    + unfold col. rewrite <- (length_map Loader.type f).
      symmetry. apply length_as_sum.
Qed.

(** ** Order of the selected rows, default widgets *)

Section WidgetFacts.
Import Calendar PandasLib Loader Engine Dashboard.

Lemma NoDup_map_filter {A B : Type} (g : A -> B) (p : A -> bool) (l : list A) :
  NoDup (map g l) -> NoDup (map g (List.filter p l)).
Proof.
  induction l as [|x l IH]; simpl; intros N; [constructor|].
  inversion N as [|? ? Nx Nl]; subst.
  destruct (p x); simpl; auto. constructor; auto.
  intros H. apply Nx. apply in_map_iff in H as [y [E Hy]].
  apply filter_In in Hy as [Hy _]. rewrite <- E. apply in_map. exact Hy.
Qed.

Lemma filter_all {A : Type} (p : A -> bool) (l : list A) :
  (forall x, In x l -> p x = true) -> List.filter p l = l.
Proof.
  induction l as [|x l IH]; intros H; simpl; auto.
  rewrite (H x) by (left; reflexivity). f_equal.
  apply IH. intros y Hy. apply H. right. exact Hy.
Qed.

Lemma ts_leb_refl (a : Timestamp) : ts_leb a a = true.
Proof. apply ts_leb_iff. left. reflexivity. Qed.

Lemma ts_leb_date (a b : Timestamp) :
  ts_leb a b = true -> date_leb (ts_date a) (ts_date b) = true.
Proof.
  intros H. apply ts_leb_iff in H as [->|[L|[E _]]]; apply date_leb_iff; auto.
Qed.

Lemma fold_ts_min (x : Timestamp) (t : list Timestamp) :
  In (fold_left ts_min t x) (x :: t)
  /\ forall y, In y (x :: t) -> ts_leb (fold_left ts_min t x) y = true.
Proof.
  revert x; induction t as [|z t IH]; intros x; simpl.
  - split; [auto|]. intros y [<-|[]]. apply ts_leb_refl.
  - destruct (IH (ts_min x z)) as [I L]. split.
    + destruct I as [I|I]; auto.
      assert (E : ts_min x z = x \/ ts_min x z = z)
        by (unfold ts_min; destruct (ts_leb x z); auto).
      destruct E as [E|E]; rewrite E in I; rewrite E; auto.
    + assert (M : ts_leb (fold_left ts_min t (ts_min x z)) (ts_min x z) = true)
        by (apply L; left; reflexivity).
      intros y [<-|[<-|H]].
      * eapply ts_leb_trans; [exact M|]. unfold ts_min.
        destruct (ts_leb x z) eqn:E; [apply ts_leb_refl|].
        destruct (ts_leb_total x z); congruence.
      * eapply ts_leb_trans; [exact M|]. unfold ts_min.
        destruct (ts_leb x z) eqn:E; [exact E | apply ts_leb_refl].
      * apply L. right. exact H.
Qed.

Lemma fold_ts_max (x : Timestamp) (t : list Timestamp) :
  In (fold_left ts_max t x) (x :: t)
  /\ forall y, In y (x :: t) -> ts_leb y (fold_left ts_max t x) = true.
Proof.
  revert x; induction t as [|z t IH]; intros x; simpl.
  - split; [auto|]. intros y [<-|[]]. apply ts_leb_refl.
  - destruct (IH (ts_max x z)) as [I L]. split.
    + destruct I as [I|I]; auto.
      assert (E : ts_max x z = x \/ ts_max x z = z)
        by (unfold ts_max; destruct (ts_leb x z); auto).
      destruct E as [E|E]; rewrite E in I; rewrite E; auto.
    + assert (M : ts_leb (ts_max x z) (fold_left ts_max t (ts_max x z)) = true)
        by (apply L; left; reflexivity).
      intros y [<-|[<-|H]].
      * eapply ts_leb_trans; [|exact M]. unfold ts_max.
        destruct (ts_leb x z) eqn:E; [exact E | apply ts_leb_refl].
      * eapply ts_leb_trans; [|exact M]. unfold ts_max.
        destruct (ts_leb x z) eqn:E; [apply ts_leb_refl|].
        destruct (ts_leb_total x z); congruence.
      * apply L. right. exact H.
Qed.

End WidgetFacts.

(** X13. The rows the mask selects are in ascending date order already:
    the canonical table is sorted by date, selecting rows keeps their order,
    and when no two rows of the table share a timestamp the second sort of
    line 71 leaves the selected rows as they are. *)
Theorem selected_rows_already_sorted
    {parsers : PandasLib.Parsers} {sorting : PandasLib.Sorting}
    (csv : list Loader.RawRow) :
  StronglySorted
    (fun a b => Calendar.ts_leb (Loader.date a) (Loader.date b) = true)
    (Loader.load_data csv)
  /\ (forall types range,
        StronglySorted
          (fun a b => Calendar.ts_leb (Loader.date a) (Loader.date b) = true)
          (Engine.filter_frame types range (Loader.load_data csv)))
  /\ (NoDup (map Loader.date (Loader.load_data csv)) ->
      forall types range,
        Engine.sort_by_date (Engine.filter_frame types range (Loader.load_data csv))
        = Engine.filter_frame types range (Loader.load_data csv)).
Proof.
  assert (S : StronglySorted (fun a b => Loader.by_date a b = true)
                (Loader.load_data csv)).
  { apply PandasLib.sort_values_sorted; [apply by_date_total | apply by_date_trans]. }
  split; [exact S|]. split.
  - intros types range. apply filter_sorted. exact S.
  - intros N types range.
    set (F := Engine.filter_frame types range (Loader.load_data csv)).
    assert (NF : NoDup (map Loader.date F)) by (apply NoDup_map_filter; exact N).
    apply (sorted_perm_unique (fun a b => Loader.by_date a b = true)).
    + intros a b Ha Hb H1 H2. apply (NoDup_map_eq Loader.date F); auto.
      * eapply Permutation_in;
          [apply Permutation_sym, sort_by_date_perm | exact Ha].
      * eapply Permutation_in;
          [apply Permutation_sym, sort_by_date_perm | exact Hb].
      * apply ts_leb_antisym; assumption.
    + apply sort_by_date_sorted.
    + apply filter_sorted. exact S.
    + apply Permutation_sym, sort_by_date_perm.
Qed.

(** X14. With the widgets left as they start, but every type chosen, the
    filter keeps the whole table: for a table that has rows, the default range
    of the date input runs from the calendar date of the earliest row to that
    of the latest one, both dates are dates of rows, every row lies within
    the range, and with the options of the multiselect as the types the
    selected rows are the table itself. *)
Theorem default_widgets_select_everything (df : list Loader.Transaction) :
  df <> [] ->
  exists lo hi,
    Dashboard.default_range df = Some (lo, hi)
    /\ (exists a, In a df /\ Calendar.ts_date (Loader.date a) = lo)
    /\ (exists b, In b df /\ Calendar.ts_date (Loader.date b) = hi)
    /\ (forall t, In t df ->
          Calendar.date_leb lo (Calendar.ts_date (Loader.date t)) = true
          /\ Calendar.date_leb (Calendar.ts_date (Loader.date t)) hi = true)
    /\ Engine.filter_frame (Dashboard.type_options df) (lo, hi) df = df.
Proof.
  intros H. destruct df as [|t0 df0]; [contradiction|]. clear H.
  unfold Dashboard.default_range. cbn [map Dashboard.column_min Dashboard.column_max].
  set (x := Loader.date t0). set (col := map Loader.date df0).
  destruct (fold_ts_min x col) as [Imin Lmin].
  destruct (fold_ts_max x col) as [Imax Lmax].
  assert (C : forall y, In y (x :: col) <->
                exists t, In t (t0 :: df0) /\ Loader.date t = y).
  { intros y. change (x :: col) with (map Loader.date (t0 :: df0)).
    rewrite in_map_iff. split; intros [t [A B]]; exists t; auto. }
  assert (B : forall t, In t (t0 :: df0) ->
     Calendar.date_leb (Calendar.ts_date (fold_left Dashboard.ts_min col x))
       (Calendar.ts_date (Loader.date t)) = true
     /\ Calendar.date_leb (Calendar.ts_date (Loader.date t))
          (Calendar.ts_date (fold_left Dashboard.ts_max col x)) = true).
  { intros t Ht. assert (I : In (Loader.date t) (x :: col)) by (apply C; eauto).
    split; apply ts_leb_date; auto. }
  eexists _, _. split; [reflexivity|].
  split; [|split; [|split; [exact B|]]].
  - apply C in Imin as [a [Ha Ea]]. exists a. rewrite Ea. auto.
  - apply C in Imax as [b [Hb Eb]]. exists b. rewrite Eb. auto.
  - unfold Engine.filter_frame. apply filter_all. intros t Ht.
    apply mask_iff. cbn [fst snd]. destruct (B t Ht) as [B1 B2].
    split; [|split; assumption].
    unfold Dashboard.type_options. apply in_unique. apply in_map. exact Ht.
Qed.

(** The theorem on the canonical table of the scenario. *)
Lemma default_widgets_select_everything_scenario :
  exists lo hi,
    Dashboard.default_range Samples.scenario_table = Some (lo, hi)
    /\ (exists a, In a Samples.scenario_table
                  /\ Calendar.ts_date (Loader.date a) = lo)
    /\ (exists b, In b Samples.scenario_table
                  /\ Calendar.ts_date (Loader.date b) = hi)
    /\ (forall t, In t Samples.scenario_table ->
          Calendar.date_leb lo (Calendar.ts_date (Loader.date t)) = true
          /\ Calendar.date_leb (Calendar.ts_date (Loader.date t)) hi = true)
    /\ Engine.filter_frame (Dashboard.type_options Samples.scenario_table)
         (lo, hi) Samples.scenario_table
       = Samples.scenario_table.
Proof.
  apply (default_widgets_select_everything Samples.scenario_table).
  discriminate.
Defined.

(** ** Counts with thousands separators *)

Section CountFacts.
Import Dashboard.

Lemma uint_no_comma (u : Decimal.uint) :
  Forall (fun c => c <> ","%char)
    (list_ascii_of_string (NilEmpty.string_of_uint u)).
Proof.
  induction u; simpl; constructor; auto; intros H; discriminate H.
Qed.

Lemma drop_commas_group (k : nat) (l : list ascii) :
  Forall (fun c => c <> ","%char) l -> drop_commas (group k l) = l.
Proof.
  intros F; revert k; induction F as [|d t Hd F IH]; intros k; simpl; auto.
  assert (E : negb (Ascii.eqb d ",") = true).
  { destruct (Ascii.eqb_spec d ","); [contradiction | reflexivity]. }
  destruct k as [|[|[|[|k]]]]; simpl; rewrite E, ?IH; reflexivity.
Qed.

Lemma drop_commas_rev (l : list ascii) :
  drop_commas (rev l) = rev (drop_commas l).
Proof.
  unfold drop_commas. induction l as [|c l IH]; simpl; auto.
  rewrite filter_app, IH. simpl.
  destruct (negb (Ascii.eqb c ",")); simpl; auto. apply app_nil_r.
Qed.

Lemma mod4_is_3 (i : nat) : (i mod 4 = 3 <-> exists q, i = 4 * q + 3)%nat.
Proof.
  split.
  - intros H. exists (i / 4)%nat.
    pose proof (Nat.div_mod_eq i 4) as E. rewrite H in E. exact E.
  - intros [q ->]. rewrite Nat.add_comm, Nat.mul_comm.
    rewrite Nat.Div0.mod_add. reflexivity.
Qed.

(** Where [group] puts its commas: after every third digit. *)
Lemma comma_in_group (k : nat) (l : list ascii) (i : nat) :
  Forall (fun c => c <> ","%char) l -> (k <= 3)%nat ->
  (i < List.length (group k l))%nat ->
  (nth i (group k l) "0"%char = ","%char <-> exists q, (i + k = 4 * q + 3)%nat).
Proof.
  intros F; revert k i; induction F as [|d t Hd F IH]; intros k i Hk Hi.
  - simpl in Hi. lia.
  - destruct k as [|[|[|[|k]]]]; try lia; simpl in Hi |- *.
    + destruct i as [|i].
      * split; [contradiction | intros [q H]; lia].
      * rewrite (IH 1%nat i) by lia. split; intros [q H]; exists q; lia.
    + destruct i as [|i].
      * split; [contradiction | intros [q H]; lia].
      * rewrite (IH 2%nat i) by lia. split; intros [q H]; exists q; lia.
    + destruct i as [|i].
      * split; [contradiction | intros [q H]; lia].
      * rewrite (IH 3%nat i) by lia. split; intros [q H]; exists q; lia.
    + destruct i as [|[|i]].
      * split; [intros _; exists 0%nat; lia | reflexivity].
      * split; [contradiction | intros [q H]; lia].
      * rewrite (IH 1%nat i) by lia. split; intros [q H].
        -- exists (S q). lia.
        -- destruct q as [|q]; [lia|]. exists q. lia.
Qed.

End CountFacts.

(** X15. The counts of lines 50 and 87 are written with a comma before
    every group of three digits and with nothing else added: counted from the
    right, a character of the text is a comma exactly when it stands at a
    fourth place, and dropping the commas and reading the digits gives the
    count back. *)
Theorem format_count_reads_back (n : nat) :
  Dashboard.read_count (Dashboard.format_count n) = Some n
  /\ (forall i,
        (i < String.length (Dashboard.format_count n))%nat ->
        (nth i (rev (list_ascii_of_string (Dashboard.format_count n))) "0"%char
         = ","%char
         <-> (i mod 4 = 3)%nat)).
Proof.
  unfold Dashboard.format_count.
  set (d := list_ascii_of_string (Dashboard.decimal n)).
  assert (F : Forall (fun c => c <> ","%char) (rev d)).
  { apply Forall_rev. apply uint_no_comma. }
  split.
  - unfold Dashboard.read_count.
    rewrite list_ascii_of_string_of_list_ascii, drop_commas_rev.
    rewrite drop_commas_group by exact F.
    rewrite rev_involutive. unfold d.
    rewrite string_of_list_ascii_of_string. unfold Dashboard.decimal.
    rewrite NilEmpty.usu. simpl. rewrite DecimalNat.Unsigned.of_to. reflexivity.
  - intros i Hi.
    rewrite list_ascii_of_string_of_list_ascii, rev_involutive.
    assert (L : (i < List.length (Dashboard.group 0 (rev d)))%nat).
    { revert Hi.
      assert (G : forall l, String.length (string_of_list_ascii l) = List.length l).
      { induction l as [|c l IHl]; simpl; auto. }
      rewrite G, length_rev. auto. }
    rewrite (comma_in_group 0 (rev d) i F) by (auto; lia).
    rewrite mod4_is_3. split; intros [q H]; exists q; lia.
Qed.

(** ** Formatted dates *)

Section DateTextFacts.
Import Calendar PandasLib Loader Engine Dashboard.

Lemma digit_char_compare (a b : Z) :
  0 <= a <= 9 -> 0 <= b <= 9 ->
  Ascii.compare (digit_char a) (digit_char b) = (a ?= b).
Proof.
  intros Ha Hb. unfold Ascii.compare, digit_char.
  rewrite !N_ascii_embedding by lia.
  rewrite <- N2Z.inj_compare, !N2Z.inj_add, !Z2N.id by lia.
  apply Z.add_compare_mono_l.
Qed.

Lemma lexico_as_match (c d : comparison) :
  match c with
  | Eq => d
  | Lt => Lt
  | Gt => Gt
  end = lexico c d.
Proof. destruct c; reflexivity. Qed.

Lemma lexico_div_mod_10 (n m : Z) :
  lexico (n / 10 ?= m / 10) (n mod 10 ?= m mod 10) = (n ?= m).
Proof.
  pose proof (Z.div_mod n 10 ltac:(lia)). pose proof (Z.div_mod m 10 ltac:(lia)).
  pose proof (Z.mod_pos_bound n 10 ltac:(lia)).
  pose proof (Z.mod_pos_bound m 10 ltac:(lia)).
  destruct (Z.compare_spec (n / 10) (m / 10)); simpl;
    [destruct (Z.compare_spec (n mod 10) (m mod 10))|..];
    symmetry; try (apply Z.compare_eq_iff; lia);
    try (apply Z.compare_lt_iff; lia); apply Z.compare_gt_iff; lia.
Qed.

Lemma lexico_div_mod_100 (n m : Z) :
  lexico (n / 100 ?= m / 100) (n mod 100 ?= m mod 100) = (n ?= m).
Proof.
  pose proof (Z.div_mod n 100 ltac:(lia)). pose proof (Z.div_mod m 100 ltac:(lia)).
  pose proof (Z.mod_pos_bound n 100 ltac:(lia)).
  pose proof (Z.mod_pos_bound m 100 ltac:(lia)).
  destruct (Z.compare_spec (n / 100) (m / 100)); simpl;
    [destruct (Z.compare_spec (n mod 100) (m mod 100))|..];
    symmetry; try (apply Z.compare_eq_iff; lia);
    try (apply Z.compare_lt_iff; lia); apply Z.compare_gt_iff; lia.
Qed.

Lemma compare_two_digits (n m : Z) :
  0 <= n <= 99 -> 0 <= m <= 99 ->
  String.compare (two_digits n) (two_digits m) = (n ?= m).
Proof.
  intros Hn Hm. unfold two_digits. simpl.
  pose proof (Z.div_mod n 10 ltac:(lia)). pose proof (Z.div_mod m 10 ltac:(lia)).
  pose proof (Z.mod_pos_bound n 10 ltac:(lia)).
  pose proof (Z.mod_pos_bound m 10 ltac:(lia)).
  rewrite !digit_char_compare by lia.
  rewrite (lexico_as_match (n mod 10 ?= m mod 10) Eq).
  replace (lexico (n mod 10 ?= m mod 10) Eq) with (n mod 10 ?= m mod 10)
    by (destruct (n mod 10 ?= m mod 10); reflexivity).
  rewrite lexico_as_match. apply lexico_div_mod_10.
Qed.

Lemma compare_app (x x' y y' : string) :
  String.length x = String.length x' ->
  String.compare (x ++ y) (x' ++ y')
  = lexico (String.compare x x') (String.compare y y').
Proof.
  revert x'; induction x as [|c x IH]; intros [|c' x'] L; simpl in *;
    try discriminate; auto.
  destruct (Ascii.compare c c'); auto.
Qed.

Lemma compare_four_digits (n m : Z) :
  0 <= n <= 9999 -> 0 <= m <= 9999 ->
  String.compare (four_digits n) (four_digits m) = (n ?= m).
Proof.
  intros Hn Hm. unfold four_digits.
  pose proof (Z.div_mod n 100 ltac:(lia)). pose proof (Z.div_mod m 100 ltac:(lia)).
  pose proof (Z.mod_pos_bound n 100 ltac:(lia)).
  pose proof (Z.mod_pos_bound m 100 ltac:(lia)).
  rewrite compare_app by reflexivity.
  rewrite !compare_two_digits by lia.
  apply lexico_div_mod_100.
Qed.

Lemma compare_strftime (a b : Date) :
  printable a -> printable b ->
  String.compare (strftime a) (strftime b) = date_compare a b.
Proof.
  intros [Ya [Ma Da]] [Yb [Mb Db]]. unfold strftime, date_compare.
  rewrite compare_app by reflexivity.
  rewrite compare_four_digits by lia. f_equal.
  change (String.compare ("-" ++ two_digits (month a) ++ "-" ++ two_digits (day a))
            ("-" ++ two_digits (month b) ++ "-" ++ two_digits (day b)))
    with (String.compare (two_digits (month a) ++ "-" ++ two_digits (day a))
            (two_digits (month b) ++ "-" ++ two_digits (day b))).
  rewrite compare_app by reflexivity.
  rewrite compare_two_digits by lia. f_equal.
  change (String.compare ("-" ++ two_digits (day a)) ("-" ++ two_digits (day b)))
    with (String.compare (two_digits (day a)) (two_digits (day b))).
  apply compare_two_digits; lia.
Qed.

Lemma string_leb_trans (a b c : string) :
  String.leb a b = true -> String.leb b c = true -> String.leb a c = true.
Proof.
  unfold String.leb.
  destruct (String.compare a b) eqn:E1; try discriminate;
    destruct (String.compare b c) eqn:E2; try discriminate; intros _ _.
  - apply string_compare_eq in E1, E2. subst.
    rewrite string_compare_refl. reflexivity.
  - apply string_compare_eq in E1. subst. rewrite E2. reflexivity.
  - apply string_compare_eq in E2. subst. rewrite E1. reflexivity.
  - rewrite (string_compare_lt_trans _ _ _ E1 E2). reflexivity.
Qed.

Lemma date_leb_total (a b : Date) :
  date_leb a b = true \/ date_leb b a = true.
Proof.
  destruct (date_leb a b) eqn:E; auto.
  right. apply date_leb_iff. right. apply date_leb_false. exact E.
Qed.

Lemma sorted_map {A B : Type} (R : A -> A -> Prop) (Q : B -> B -> Prop)
    (g : A -> B) (l : list A) :
  (forall a b, In a l -> In b l -> R a b -> Q (g a) (g b)) ->
  StronglySorted R l -> StronglySorted Q (map g l).
Proof.
  intros H S. induction S as [|x l S IH F]; simpl; constructor.
  - apply IH. intros a b Ha Hb. apply H; right; assumption.
  - apply Forall_forall. intros y Hy. apply in_map_iff in Hy as [z [<- Hz]].
    rewrite Forall_forall in F. apply H; [left; reflexivity | right; exact Hz | auto].
Qed.

End DateTextFacts.

(** X16. The dates of the display table sort as text the way they sort
    as dates: for two dates with four-digit years the formatted texts of
    line 227 compare, character by character, as the calendar dates do; in
    particular two dates give the same text only when they are equal. *)
Theorem strftime_orders_dates (a b : Calendar.Date) :
  Dashboard.printable a -> Dashboard.printable b ->
  String.compare (Dashboard.strftime a) (Dashboard.strftime b)
  = Calendar.date_compare a b
  /\ (Dashboard.strftime a = Dashboard.strftime b -> a = b).
Proof.
  intros Pa Pb. pose proof (compare_strftime a b Pa Pb) as C.
  split; [exact C|].
  intros E. rewrite E, string_compare_refl in C.
  destruct (date_compare_spec a b) as [e|l|g]; [exact e | discriminate | discriminate].
Qed.

(** The theorem on two dates of the scenario. *)
Lemma strftime_orders_dates_scenario :
  String.compare (Dashboard.strftime (Calendar.mkDate 2024 1 5))
    (Dashboard.strftime (Calendar.mkDate 2024 2 1))
  = Calendar.date_compare (Calendar.mkDate 2024 1 5) (Calendar.mkDate 2024 2 1)
  /\ (Dashboard.strftime (Calendar.mkDate 2024 1 5)
      = Dashboard.strftime (Calendar.mkDate 2024 2 1) ->
      Calendar.mkDate 2024 1 5 = Calendar.mkDate 2024 2 1).
Proof.
  apply (strftime_orders_dates (Calendar.mkDate 2024 1 5) (Calendar.mkDate 2024 2 1));
    unfold Dashboard.printable; simpl; lia.
Defined.

(** X17. The column of dates of the display table is fixed by the dates
    alone: sorted in descending order of the text at line 230, with whatever
    sort the default kind is, it lists the formatted dates of the filtered set
    from the latest calendar date to the earliest one. *)
Theorem display_dates_latest_first
    {sorting : PandasLib.Sorting} (f : list Loader.Transaction) :
  Forall (fun t => Dashboard.printable (Calendar.ts_date (Loader.date t))) f ->
  Dashboard.display_dates f
  = map Dashboard.strftime
      (PandasLib.insertion_sort Dashboard.by_day_desc
         (map (fun t => Calendar.ts_date (Loader.date t)) f)).
Proof.
  intros P.
  set (days := map (fun t => Calendar.ts_date (Loader.date t)) f).
  assert (Pd : forall d, In d days -> Dashboard.printable d).
  { intros d H. apply in_map_iff in H as [t [<- Ht]].
    rewrite Forall_forall in P. auto. }
  assert (E : map (fun t => Dashboard.strftime (Calendar.ts_date (Loader.date t))) f
              = map Dashboard.strftime days)
    by (unfold days; rewrite map_map; reflexivity).
  unfold Dashboard.display_dates. rewrite E.
  apply (sorted_perm_unique (fun a b => Dashboard.by_text_desc a b = true)).
  - intros a b _ _ H1 H2. unfold Dashboard.by_text_desc in *.
    apply String.leb_antisym; assumption.
  - apply PandasLib.sort_values_sorted.
    + intros a b. unfold Dashboard.by_text_desc. apply String.leb_total.
    + intros a b c H1 H2. unfold Dashboard.by_text_desc in *.
      eapply string_leb_trans; eauto.
  - apply (sorted_map (fun a b => Dashboard.by_day_desc a b = true)).
    + intros a b Ha Hb H.
      assert (Pa : Dashboard.printable a).
      { apply Pd. eapply Permutation_in;
          [apply Permutation_sym, insertion_sort_perm | exact Ha]. }
      assert (Pb : Dashboard.printable b).
      { apply Pd. eapply Permutation_in;
          [apply Permutation_sym, insertion_sort_perm | exact Hb]. }
      unfold Dashboard.by_text_desc, String.leb.
      rewrite (compare_strftime b a Pb Pa).
      unfold Dashboard.by_day_desc, Calendar.date_leb, Calendar.not_gt in H.
      destruct (Calendar.date_compare b a); [reflexivity | reflexivity | discriminate].
    + apply insertion_sort_sorted.
      * intros a b. unfold Dashboard.by_day_desc. apply date_leb_total.
      * intros a b c H1 H2. unfold Dashboard.by_day_desc in *.
        eapply date_leb_trans; eauto.
  - eapply perm_trans; [apply Permutation_sym, PandasLib.sort_values_perm|].
    apply Permutation_map, insertion_sort_perm.
Qed.

(** The theorem on the canonical table of the scenario. *)
Lemma display_dates_latest_first_scenario :
  @Dashboard.display_dates numpy_sorting Samples.scenario_table
  = map Dashboard.strftime
      (PandasLib.insertion_sort Dashboard.by_day_desc
         (map (fun t => Calendar.ts_date (Loader.date t)) Samples.scenario_table)).
Proof.
  apply (@display_dates_latest_first numpy_sorting Samples.scenario_table).
  repeat constructor; simpl; lia.
Defined.
